(** * Agate: the MD trajectory store [HistDataMD]

    A shallow embedding of [src/hist/histdatamd.cpp]: the frame accessors,
    the merge of two stores ([operator+=]), the frame interpolator, the
    velocity autocorrelation aggregation ([getVACF]), the spectral step
    ([getPDOS]) and the harmonic thermodynamics ([computeThermoFunctionHA]).

    Conventions.
    - [unsigned] and [int] values are integers of [Z]; every arithmetic result
      is reduced with [u32] or [i32], as the 32-bit types of the source do.
    - [std::vector<double>] is a [list]; [operator[]] and iterator ranges
      outside the vector give the outcome [Undefined].
    - [double] is a type [D] with the operations of class [Double].  The
      statements hold for every such [D], so for IEEE binary64, the instance
      [Binary64_Double] on the primitive floats, on which the concrete
      evaluations on doubles run.  The field laws of exact arithmetic
      ([ExactArith]) are assumed only where a statement says so.
    - what the source takes from other translation units (the base class
      [HistData], [utils], [phys], [<cmath>], FFTW) is the class [Platform]. *)

From Stdlib Require Import String DecimalString.
From Stdlib Require Import ZArith List Lia Bool.
From Stdlib Require Import QArith Qcanon Field Ring.
From Stdlib Require Qcabs.
From Stdlib Require PrimFloat SpecFloat FloatOps.
Import ListNotations.
Local Open Scope Z_scope.

(** ** Machine integers *)

Module MachInt.

Definition u32 (z : Z) : Z := z mod 2 ^ 32.

Definition i32 (z : Z) : Z := (z + 2 ^ 31) mod 2 ^ 32 - 2 ^ 31.

Definition INT_MAX : Z := 2 ^ 31 - 1.

Definition UINT_MAX : Z := 2 ^ 32 - 1.

End MachInt.
Import MachInt.

(** ** Exceptions ([base/exception.hpp]) and outcomes *)

Inductive ErrCode : Type := ERRDIV | ERRWAR | ERRABT.

(** An exception carries the stack of its annotations, oldest first. *)
Definition Exception : Type := list (string * ErrCode).

Definition EXCEPTION (msg : string) (code : ErrCode) : Exception :=
  [(msg, code)].

Definition ADD (msg : string) (code : ErrCode) (e : Exception) : Exception :=
  e ++ [(msg, code)].

Inductive Outcome (A : Type) : Type :=
| Ok (a : A)
| Throw (e : Exception)
| Undefined.

Arguments Ok {A} a.
Arguments Throw {A} e.
Arguments Undefined {A}.

Definition bind {A B : Type} (m : Outcome A) (f : A -> Outcome B) : Outcome B :=
  match m with
  | Ok a => f a
  | Throw e => Throw e
  | Undefined => Undefined
  end.

Notation "x <- m ;; k" := (bind m (fun x => k))
  (at level 61, m at next level, right associativity).

Notation "' p <- m ;; k" := (bind m (fun p => k))
  (at level 61, p pattern, m at next level, right associativity).

(** [try { m } catch (Exception& e) { h e }] *)
Definition try_catch {A : Type} (m : Outcome A) (h : Exception -> Outcome A)
  : Outcome A :=
  match m with
  | Throw e => h e
  | other => other
  end.

(** [for (unsigned i = lo; n iterations; ++i) body] *)
Fixpoint for_loop {St : Type} (n : nat) (i : Z) (body : Z -> St -> Outcome St)
  (s : St) : Outcome St :=
  match n with
  | O => Ok s
  | S n' => s' <- body i s ;; for_loop n' (i + 1) body s'
  end.

(** [utils::to_string] on an unsigned value. *)
Definition to_string (z : Z) : string := NilZero.string_of_int (Z.to_int z).

(** ** Vectors *)

Section Vector.
Context {A : Type}.

Definition size (v : list A) : Z := Z.of_nat (length v).

Fixpoint update (i : nat) (x : A) (v : list A) : list A :=
  match v, i with
  | [], _ => []
  | _ :: r, O => x :: r
  | y :: r, S j => y :: update j x r
  end.

(** [v[i]] read. *)
Definition vget (v : list A) (i : Z) : Outcome A :=
  if i <? 0 then Undefined
  else match nth_error v (Z.to_nat i) with
       | Some x => Ok x
       | None => Undefined
       end.

(** [v[i] = x] *)
Definition vset (v : list A) (i : Z) (x : A) : Outcome (list A) :=
  if (0 <=? i) && (i <? size v) then Ok (update (Z.to_nat i) x v)
  else Undefined.

(** [v.resize(n)] and [v.resize(n, zero)]: new slots are value-initialised. *)
Definition resize (zero : A) (n : Z) (v : list A) : list A :=
  firstn (Z.to_nat n) v ++ repeat zero (Z.to_nat n - length v).

(** [std::copy(src.begin(), src.end(), dst.begin() + off)] *)
Definition std_copy (src dst : list A) (off : Z) : Outcome (list A) :=
  if (0 <=? off) && (off + size src <=? size dst) then
    Ok (firstn (Z.to_nat off) dst ++ src
          ++ skipn (Z.to_nat off + length src) dst)
  else Undefined.

(** [std::vector<double>(v.begin() + b, v.begin() + e)] *)
Definition slice (v : list A) (b e : Z) : Outcome (list A) :=
  if (0 <=? b) && (b <=? e) && (e <=? size v) then
    Ok (firstn (Z.to_nat (e - b)) (skipn (Z.to_nat b) v))
  else Undefined.

End Vector.

(** ** Arithmetic on [double] *)

Class Double (D : Type) : Type := {
  d0 : D;
  d1 : D;
  dadd : D -> D -> D;
  dsub : D -> D -> D;
  dmul : D -> D -> D;
  ddiv : D -> D -> D;
  dopp : D -> D;
  dabs : D -> D;                 (* std::abs *)
  dltb : D -> D -> bool;         (* a < b *)
  d_of_Z : Z -> D;               (* conversion of an integer value *)
  d_to_Z : D -> Z;               (* conversion to an integer type *)
  d_lit : Q -> D                 (* a decimal literal of the source *)
}.

Declare Scope double_scope.
Delimit Scope double_scope with dbl.
Infix "+" := dadd : double_scope.
Infix "-" := dsub : double_scope.
Infix "*" := dmul : double_scope.
Infix "/" := ddiv : double_scope.
Notation "a <? b" := (dltb a b) : double_scope.
Notation "a >? b" := (dltb b a) : double_scope.

Definition dinv {D : Type} {arith : Double D} (x : D) : D := (d1 / x)%dbl.

(** The laws of exact arithmetic: [D] is a field of characteristic zero in
    which the integer conversions are the canonical ones. *)
Record ExactArith (D : Type) {arith : Double D} : Prop := {
  ea_field : field_theory d0 d1 dadd dmul dsub dopp ddiv dinv eq;
  ea_of_Z_0 : d_of_Z 0 = d0;
  ea_of_Z_1 : d_of_Z 1 = d1;
  ea_of_Z_add : forall a b, d_of_Z (a + b) = (d_of_Z a + d_of_Z b)%dbl;
  ea_of_Z_mul : forall a b, d_of_Z (a * b) = (d_of_Z a * d_of_Z b)%dbl;
  ea_of_Z_inj : forall a, a <> 0 -> d_of_Z a <> d0;
  ea_to_Z : forall a, d_to_Z (d_of_Z a) = a;
  ea_abs_0 : dabs d0 = d0;
  ea_lit_pos : forall q, (0 < q)%Q -> dltb d0 (d_lit q) = true
}.

(** ** The stores *)

(** The fields of the base class [HistData] that the MD code reads. *)
Record HistData (D : Type) : Type := mkHistData {
  _natom : Z;              (* unsigned *)
  _ntime : Z;              (* unsigned: frames filled *)
  _ntimeAvail : Z;         (* unsigned: frames reserved *)
  _tryToMap : bool;
  _time : list D;
  _typat : list Z;         (* species of each atom, counted from 1 *)
  _znucl : list Z          (* atomic number of each species *)
}.

Arguments mkHistData {D}.
Arguments _natom {D} h.
Arguments _ntime {D} h.
Arguments _ntimeAvail {D} h.
Arguments _tryToMap {D} h.
Arguments _time {D} h.
Arguments _typat {D} h.
Arguments _znucl {D} h.

Record HistDataMD (D : Type) : Type := mkHistDataMD {
  base :> HistData D;
  _ekin : list D;
  _velocities : list D;
  _temperature : list D;
  _pressure : list D;
  _entropy : list D
}.

Arguments mkHistDataMD {D}.
Arguments base {D} h.
Arguments _ekin {D} h.
Arguments _velocities {D} h.
Arguments _temperature {D} h.
Arguments _pressure {D} h.
Arguments _entropy {D} h.

Definition _xyz : Z := 3.

(** What [histdatamd.cpp] uses from other translation units. *)
Class Platform (D : Type) : Type := {
  (* base/phys.hpp *)
  phys_kB : D;
  phys_eV : D;
  phys_b2A : D;
  phys_atu2fs : D;
  phys_THz2Ha : D;
  phys_Ha2eV : D;
  phys_pi : D;
  (* <cmath> *)
  std_sinh : D -> D;
  std_tanh : D -> D;
  std_log : D -> D;
  std_exp : D -> D;
  std_sqrt : D -> D;
  (* base/utils.hpp: mean of an iterator range *)
  utils_mean : list D -> D;
  (* hist/histdata.hpp *)
  HistData_reorder : HistData D -> HistData D -> Outcome (list Z);
  HistData_checkTimes : HistData D -> Z -> Z -> Outcome unit;
  HistData_acf : list D -> Z -> Outcome (list D);
  HistData_interpolate : Z -> D -> HistData D -> Outcome (HistData D);
  (* fftw3 *)
  HAVE_FFTW3 : bool;
  fftw_redft10 : list D -> list D
}.

Section Model.
Context {D : Type} {arith : Double D} {env : Platform D}.
Local Open Scope double_scope.

(** Modelled from the spec: [HistData::operator+=], the merge of the base
    class, which is not in src/.  The spec (4.1) makes the result's frame
    count the sum of both segments' filled frame counts and the series the
    temporal concatenation; atom count and species metadata stay those of
    the base store. *)
Definition HistData_plus_assign (this hist : HistData D) : HistData D :=
  {| _natom := _natom this;
     _ntime := u32 (_ntime this + _ntime hist);
     _ntimeAvail := u32 (_ntime this + _ntime hist);
     _tryToMap := _tryToMap this;
     _time := _time this ++ _time hist;
     _typat := _typat this;
     _znucl := _znucl this |}.

(** *** Accessors *)

Definition range_error (what : string) (time ntime : Z) : Exception :=
  EXCEPTION (what ++ to_string time ++ "/" ++ to_string ntime) ERRDIV.

(** The pointer returned by [getVel] is the storage from that slot on. *)
Definition getVel (this : HistDataMD D) (time : Z) : Outcome (list D) :=
  if (_ntime this <? time)%Z then
    Throw (range_error "Out of range for velocities " time (_ntime this))
  else
    let i := u32 (time * 3 * _natom this) in
    _ <- vget (_velocities this) i ;;
    Ok (skipn (Z.to_nat i) (_velocities this)).

Definition getEkin (this : HistDataMD D) (time : Z) : Outcome D :=
  if (_ntime this <? time)%Z then
    Throw (range_error "Out of range for ekin " time (_ntime this))
  else vget (_ekin this) time.

Definition getTemperature (this : HistDataMD D) (time : Z) : Outcome D :=
  if (_ntime this <? time)%Z then
    Throw (range_error "Out of range for temperature" time (_ntime this))
  else vget (_temperature this) time.

Definition getPressure (this : HistDataMD D) (time : Z) : Outcome D :=
  if (_ntime this <? time)%Z then
    Throw (range_error "Out of range for pressure" time (_ntime this))
  else vget (_pressure this) time.

(** *** Merge: [operator+=(HistDataMD&)] *)

Definition warn_dtion : Exception :=
  EXCEPTION "dtion are different !!! BE VERY CAREFULL FOR ANALYSIS !!!" ERRWAR.

Definition warn_temperature : Exception :=
  EXCEPTION
    "Temperatures seem very different (+50%) !!! BE VERY CAREFULL FOR ANALYSIS !!!"
    ERRWAR.

Definition warn_pressure : Exception :=
  EXCEPTION
    "Pressures seem very different (+50%) !!! BE VERY CAREFULL FOR ANALYSIS !!!"
    ERRWAR.

Definition empty (v : list D) : bool :=
  match v with [] => true | _ => false end.

(** The scan of [order] that sets [reorder]: some [i != order[i]]. *)
Fixpoint differs_from (i : Z) (order : list Z) : bool :=
  match order with
  | [] => false
  | o :: rest => if negb (i =? o)%Z then true else differs_from (i + 1) rest
  end.

(** The frame spacing check at the head of the merge. *)
Definition check_dtion (this hist : HistDataMD D) : Outcome (list Exception) :=
  if ((1 <? _ntime this) && (1 <? _ntime hist))%Z then
    t1 <- vget (_time this) 1 ;;
    t0 <- vget (_time this) 0 ;;
    h1 <- vget (_time hist) 1 ;;
    h0 <- vget (_time hist) 0 ;;
    let dt1 := t1 - t0 in
    let dt2 := h1 - h0 in
    Ok (if dabs (dt1 - dt2) >? d_lit (1 # 1000000) then [warn_dtion] else [])
  else Ok [].

(** The copy of the appended velocities through [order]. *)
Definition copy_reordered (order : list Z) (natom hist_ntime start : Z)
  (hvel vel : list D) : Outcome (list D) :=
  for_loop (Z.to_nat hist_ntime) 0 (fun itime v =>
    for_loop (Z.to_nat natom) 0 (fun iatom v =>
      for_loop 3 0 (fun coord v =>
        o <- vget order iatom ;;
        x <- vget hvel (u32 (itime * 3 * natom + o * 3 + coord)) ;;
        vset v (u32 (start + itime * 3 * natom + iatom * 3 + coord)) x) v) v)
    vel.

(** The comparison of the means of a series over both segments. *)
Definition check_mean (warning : Exception) (mine theirs : list D)
  : list Exception :=
  let mean1 := utils_mean mine in
  let mean2 := utils_mean theirs in
  if dabs (mean1 - mean2) / mean1 >? d_lit (1 # 2) then [warning] else [].

(** [order] and [reorder], when the mapping of atoms is requested. *)
Definition map_structures (this hist : HistData D)
  : Outcome (list Z * bool) :=
  if _tryToMap this then
    match HistData_reorder this hist with
    | Ok order => Ok (order, differs_from 0 order)
    | Throw e =>
        (* e.ADD("Unable to map structures",ERRABT): annotated, dropped *)
        Ok ([], false)
    | Undefined => Undefined
    end
  else Ok ([], false).

(** The appended store with its velocities replaced. *)
Definition with_velocities (hist : HistDataMD D) (v : list D)
  : HistDataMD D :=
  {| base := base hist;
     _ekin := _ekin hist;
     _velocities := v;
     _temperature := _temperature hist;
     _pressure := _pressure hist;
     _entropy := _entropy hist |}.

(** The result is the updated store, the appended store (its velocities may
    have been zero-filled) and what was printed on [std::cout]. *)
Definition operator_plus_assign (this hist : HistDataMD D)
  : Outcome (HistDataMD D * HistDataMD D * list Exception) :=
  let prevNtime := u32 (size (_temperature this)) in
  out1 <- check_dtion this hist ;;
  let b := if (prevNtime =? _ntime this)%Z
           then HistData_plus_assign this hist else base this in
  let ntime := _ntime b in
  let natom := _natom b in
  let dovel := xorb (empty (_velocities this)) (empty (_velocities hist)) in
  let vel1 := if dovel && empty (_velocities this)
              then resize d0 (u32 (_xyz * natom * prevNtime)) (_velocities this)
              else _velocities this in
  let hvel := if dovel && empty (_velocities hist)
              then resize d0 (u32 (_xyz * natom * _ntimeAvail hist))
                     (_velocities hist)
              else _velocities hist in
  let dovel := negb (empty vel1 || empty hvel) in
  ekin1 <- std_copy (_ekin hist) (resize d0 ntime (_ekin this)) prevNtime ;;
  let out2 := check_mean warn_temperature (_temperature this)
                (_temperature hist) in
  temperature1 <- std_copy (_temperature hist)
                    (resize d0 ntime (_temperature this)) prevNtime ;;
  let out3 := check_mean warn_pressure (_pressure this) (_pressure hist) in
  '(order, reorder) <- map_structures b hist ;;
  pressure1 <- std_copy (_pressure hist)
                 (resize d0 ntime (_pressure this)) prevNtime ;;
  vel2 <-
     (if dovel then
        let v := resize d0 (u32 (ntime * natom * _xyz)) vel1 in
        if negb reorder then std_copy hvel v (u32 (prevNtime * natom * _xyz))
        else copy_reordered order natom (_ntime hist)
               (u32 (prevNtime * natom * _xyz)) hvel v
      else Ok vel1) ;;
  let entropy1 := resize d0 ntime (_entropy this) in
  ekin2 <- std_copy (_ekin hist) ekin1 prevNtime ;;
  Ok ({| base := b;
         _ekin := ekin2;
         _velocities := vel2;
         _temperature := temperature1;
         _pressure := pressure1;
         _entropy := entropy1 |},
      with_velocities hist hvel,
      out1 ++ out2 ++ out3).

(** *** Interpolation *)

(** The series under interpolation and the write cursor of the loop. *)
Record Cursor : Type := mkCursor {
  c_velocities : list D;
  c_ekin : list D;
  c_temperature : list D;
  c_pressure : list D;
  c_entropy : list D;
  currentTime : Z            (* unsigned *)
}.

(** [removeDuplica = std::abs(amplitude-1) < 1e-10] *)
Definition removeDuplica (amplitude : D) : bool :=
  dabs (amplitude - d1) <? d_lit (1 # 10000000000).

(** [int newNTime], after the elision of duplicates. *)
Definition newNTime (ntime ninter : Z) (amplitude : D) : Z :=
  let nsegment := i32 (ntime - 1) in
  let n := i32 (ninter * nsegment) in
  if removeDuplica amplitude then i32 (n - (ntime - 2)) else n.

(** [value = gamma*last + beta*first] *)
Definition blend (alpha : D) (tinter : Z) (last first : D) : D :=
  let beta := d_of_Z tinter * alpha in
  let gamma := d1 - beta in
  gamma * last + beta * first.

(** One scalar series at sub-step [tinter]. *)
Definition blend_scalar (alpha : D) (tinter firstStep cur : Z) (last : D)
  (v : list D) : Outcome (list D) :=
  f <- vget v firstStep ;;
  vset v cur (blend alpha tinter last f).

(** The body of the loop over [tinter]. *)
Definition substep (natom3 : Z) (alpha : D) (firstStep : Z)
  (velocitiesLast : list D) (ekinLast temperatureLast pressureLast entropyLast : D)
  (tinter : Z) (c : Cursor) : Outcome Cursor :=
  vel <- for_loop (Z.to_nat natom3) 0 (fun iatomDir v =>
           l <- vget velocitiesLast iatomDir ;;
           f <- vget v (u32 (natom3 * firstStep + iatomDir)) ;;
           vset v (u32 (natom3 * currentTime c + iatomDir))
             (blend alpha tinter l f)) (c_velocities c) ;;
  ekin <- blend_scalar alpha tinter firstStep (currentTime c) ekinLast
            (c_ekin c) ;;
  temperature <- blend_scalar alpha tinter firstStep (currentTime c)
                   temperatureLast (c_temperature c) ;;
  pressure <- blend_scalar alpha tinter firstStep (currentTime c) pressureLast
                (c_pressure c) ;;
  entropy <- blend_scalar alpha tinter firstStep (currentTime c) entropyLast
               (c_entropy c) ;;
  Ok {| c_velocities := vel;
        c_ekin := ekin;
        c_temperature := temperature;
        c_pressure := pressure;
        c_entropy := entropy;
        currentTime := u32 (currentTime c - 1) |}.

(** The body of the loop over [lastStep]. *)
Definition segment (natom3 ninter : Z) (alpha : D) (dup : bool) (lastStep : Z)
  (c : Cursor) : Outcome Cursor :=
  let firstStep := (lastStep - 1)%Z in
  velocitiesLast <- slice (c_velocities c) (u32 (natom3 * lastStep))
                      (u32 (natom3 * (lastStep + 1))) ;;
  ekinLast <- vget (c_ekin c) lastStep ;;
  temperatureLast <- vget (c_temperature c) lastStep ;;
  pressureLast <- vget (c_pressure c) lastStep ;;
  entropyLast <- vget (c_entropy c) lastStep ;;
  c' <- for_loop (Z.to_nat ninter) 0
          (substep natom3 alpha firstStep velocitiesLast ekinLast
             temperatureLast pressureLast entropyLast) c ;;
  Ok (if dup then
        {| c_velocities := c_velocities c';
           c_ekin := c_ekin c';
           c_temperature := c_temperature c';
           c_pressure := c_pressure c';
           c_entropy := c_entropy c';
           currentTime := u32 (currentTime c' + 1) |}
      else c').

(** [for (int lastStep = _ntime-1; lastStep > 0; --lastStep)] *)
Fixpoint segments (natom3 ninter : Z) (alpha : D) (dup : bool)
  (lastStep : nat) (c : Cursor) : Outcome Cursor :=
  match lastStep with
  | O => Ok c
  | S firstStep =>
      c' <- segment natom3 ninter alpha dup (Z.of_nat lastStep) c ;;
      segments natom3 ninter alpha dup firstStep c'
  end.

(** [v.resize(n)] with an [int] argument: a negative count converts to a
    size beyond [max_size()] and the vector throws [std::length_error]. *)
Definition resize_int (n : Z) (v : list D) : Outcome (list D) :=
  if (n <? 0)%Z then Throw (EXCEPTION "std::length_error" ERRABT)
  else Ok (resize d0 n v).

Definition interpolate (ninter : Z) (amplitude : D) (this : HistDataMD D)
  : Outcome (HistDataMD D) :=
  (* this->waitTime(_ntime): waits for the reader, the store is unchanged *)
  let nsegment := i32 (_ntime this - 1) in
  let n := newNTime (_ntime this) ninter amplitude in
  let natom3 := u32 (3 * _natom this) in
  let velocities := resize d0 (u32 (natom3 * n)) (_velocities this) in
  let ekin := resize d0 (u32 (natom3 * n)) (_ekin this) in
  let temperature := resize d0 (u32 (_xyz * n)) (_temperature this) in
  let pressure := resize d0 (u32 (_xyz * _xyz * n)) (_pressure this) in
  entropy <- resize_int n (_entropy this) ;;
  let alpha := amplitude / d_of_Z (u32 (ninter - 1)) in
  c <- segments natom3 ninter alpha (removeDuplica amplitude)
         (Z.to_nat nsegment)
         {| c_velocities := velocities;
            c_ekin := ekin;
            c_temperature := temperature;
            c_pressure := pressure;
            c_entropy := entropy;
            currentTime := u32 (n - 1) |} ;;
  b <- HistData_interpolate ninter amplitude this ;;
  Ok {| base := b;
        _ekin := c_ekin c;
        _velocities := c_velocities c;
        _temperature := c_temperature c;
        _pressure := c_pressure c;
        _entropy := c_entropy c |}.

(** *** Velocity autocorrelation: [getVACF] *)

(** [v[i] += x] *)
Definition vadd (v : list D) (i : Z) (x : D) : Outcome (list D) :=
  a <- vget v i ;;
  vset v i (a + x).

(** A vector of [n] slots filled by [f 0], [f 1], ... *)
Fixpoint tabulate {A : Type} (n : nat) (i : Z) (f : Z -> Outcome A)
  : Outcome (list A) :=
  match n with
  | O => Ok []
  | S n' => x <- f i ;; r <- tabulate n' (i + 1) f ;; Ok (x :: r)
  end.

(** [ntypat]: the number of atoms of each species, slot 0 for all atoms. *)
Definition count_types (this : HistData D) : Outcome (list Z) :=
  counts <- for_loop (Z.to_nat (_natom this)) 0 (fun iatom n =>
              t <- vget (_typat this) iatom ;;
              k <- vget n t ;;
              vset n t (i32 (k + 1)))
              (repeat 0%Z (Z.to_nat (size (_znucl this) + 1))) ;;
  vset counts 0 (i32 (_natom this)).

(** [vacf_tmp[itau]]: the three channels of each atom are added to slot 0
    and to the slot of the atom's species. *)
Definition accumulate_lag (this : HistData D) (fullvacf : list D) (itau : Z)
  : Outcome (list D) :=
  let natom := _natom this in
  let shift := d_of_Z (u32 (itau * 3 * natom)) in
  for_loop (Z.to_nat natom) 0 (fun iatom vacftau =>
    for_loop 3 0 (fun c vacftau =>
      x <- vget fullvacf (d_to_Z (shift + d_of_Z (u32 (iatom * 3 + c)))) ;;
      vacftau <- vadd vacftau 0 x ;;
      t <- vget (_typat this) iatom ;;
      vadd vacftau t x) vacftau)
    (repeat d0 (Z.to_nat (size (_znucl this) + 1))).

Definition conversion2nm2ps2 : D :=
  (phys_b2A * d_lit (1 # 10)) * (phys_b2A * d_lit (1 # 10))
  / (phys_atu2fs * d_lit (1 # 1000) * phys_atu2fs * d_lit (1 # 1000)).

(** The series of species [ityp] from the accumulated lags. *)
Definition normalize_type (ntypat : list Z) (vacf_tmp : list (list D))
  (ntau ityp : Z) : Outcome (list D) :=
  k <- vget ntypat ityp ;;
  let natom_3 := d_of_Z (i32 (3 * k)) in
  tabulate (Z.to_nat ntau) 0 (fun itau =>
    row <- vget vacf_tmp itau ;;
    x <- vget row ityp ;;
    Ok (d0 + x / natom_3 * conversion2nm2ps2)).

(** The lags before normalisation, [vacf_tmp]. *)
Definition vacf_lags (this : HistDataMD D) (tbegin tend : Z)
  : Outcome (Z * list (list D)) :=
  let natom := _natom this in
  let ntime := u32 (tend - tbegin) in
  let b := u32 (tbegin * 3 * natom) in
  window <- slice (_velocities this) b (b + u32 (ntime * 3 * natom)) ;;
  fullvacf <- try_catch (HistData_acf window (u32 (3 * natom)))
                (fun e => Throw (ADD "VACF calculation failed" ERRDIV e)) ;;
  if (u32 (3 * natom) =? 0)%Z then Undefined    (* division by zero *)
  else
    let ntau := u32 (size fullvacf / u32 (3 * natom)) in
    vacf_tmp <- tabulate (Z.to_nat ntau) 0 (accumulate_lag this fullvacf) ;;
    Ok (ntau, vacf_tmp).

Definition getVACF (this : HistDataMD D) (tbegin tend : Z)
  : Outcome (list (list D)) :=
  '(ntau, vacf_tmp) <- vacf_lags this tbegin tend ;;
  ntypat <- count_types this ;;
  tabulate (Z.to_nat (size (_znucl this) + 1)) 0
    (normalize_type ntypat vacf_tmp ntau).

(** *** Spectrum: [getPDOS] *)

(** Gaussian broadening of one transformed series of [n] samples. *)
Definition smear (n : Z) (sigma : D) (out : list D) : Outcome (list D) :=
  let renorm := d1 / (sigma * std_sqrt (d_of_Z 2 * phys_pi)) in
  let inv_2sigma2 := d1 / (d_of_Z 2 * sigma * sigma) in
  let inv_n := d1 / d_of_Z n in
  for_loop (Z.to_nat n) 0 (fun i fit =>
    let mean := d_of_Z i * inv_n in
    o <- vget out i ;;
    let max := o * renorm in
    for_loop (Z.to_nat n) 0 (fun g fit =>
      vadd fit g
        (max * std_exp (dopp (d_of_Z g * inv_n - mean)
                        * (d_of_Z g * inv_n - mean) * inv_2sigma2))) fit)
    (repeat d0 (Z.to_nat n)).

Definition front {A : Type} (l : list A) : Outcome A :=
  match l with
  | x :: _ => Ok x
  | [] => Undefined
  end.

Definition getPDOS (this : HistDataMD D) (tbegin tend : Z) (tsmear : D)
  : Outcome (list (list D)) :=
  if negb HAVE_FFTW3 then
    Throw (EXCEPTION "FFTW3 is needed to compute the PDOS" ERRDIV)
  else
    pdos <- getVACF this tbegin tend ;;
    first <- front pdos ;;
    let n := i32 (size first) in
    let fft_out := map fftw_redft10 pdos in
    if tsmear >? d0 then tabulate (length pdos) 0 (fun u =>
                           out <- vget fft_out u ;; smear n tsmear out)
    else Ok fft_out.

(** *** Harmonic thermodynamics: [computeThermoFunctionHA] *)

(** The trapezoid sum over the first [n] bins. *)
Definition trapezoid (pdos : list D) (domega : D) (n : Z) : Outcome D :=
  for_loop (Z.to_nat n) 0 (fun iomega norme =>
    a <- vget pdos iomega ;;
    b <- vget pdos (u32 (iomega + 1)) ;;
    Ok (norme + (a + b) * d_lit (1 # 2) * domega)) d0.

(** [pdos[iomega] /= norme] for the first [nmax] samples. *)
Definition renormalize (pdos : list D) (norme : D) (nmax : Z)
  : Outcome (list D) :=
  for_loop (Z.to_nat nmax) 0 (fun iomega p =>
    a <- vget p iomega ;;
    vset p iomega (a / norme)) pdos.

Definition dtion_ps (this : HistData D) : Outcome D :=
  if (1 <? size (_time this))%Z then
    t1 <- vget (_time this) 1 ;;
    t0 <- vget (_time this) 0 ;;
    Ok (phys_atu2fs * d_lit (1 # 1000) * (t1 - t0))
  else Ok (phys_atu2fs * d_lit (1 # 1000) * d_of_Z 100).

(** [domega]: the width of a frequency bin, in THz. *)
Definition bin_width (this : HistData D) (nfreq : Z) : Outcome D :=
  dtion <- dtion_ps this ;;
  Ok (d1 / (d_of_Z 2 * dtion * d_of_Z nfreq)).

(** [nmax]: the number of samples below the cutoff. *)
Definition cutoff (omegaMax domega : D) (nfreq : Z) : Outcome Z :=
  if omegaMax <? d0 then Ok nfreq
  else
    let q := d_to_Z (omegaMax / domega) in
    if ((0 <=? q) && (q <=? UINT_MAX))%Z then Ok (Z.min q nfreq)
    else Undefined.

(** The sums F, E, C, S over the bins. *)
Definition thermo_sums (pdos omega : list D) (domega inv_2kBT : D) (n : Z)
  : Outcome (D * D * D * D) :=
  for_loop (Z.to_nat n) 0 (fun iomega '(F_, E_, C_, S_) =>
    w <- vget omega iomega ;;
    a <- vget pdos iomega ;;
    b <- vget pdos (u32 (iomega + 1)) ;;
    let argument := w * inv_2kBT in
    let gwdw := (a + b) * domega * d_lit (1 # 2) in
    let sinharg := std_sinh argument in
    let cotharg := d1 / std_tanh argument in
    let log2sinharg := std_log (d_of_Z 2 * sinharg) in
    Ok (F_ + log2sinharg * gwdw,
        E_ + w * cotharg * gwdw,
        C_ + argument * argument / (sinharg * sinharg) * gwdw,
        S_ + (argument * cotharg - log2sinharg) * gwdw))
    (d0, d0, d0, d0).

(** The overload on a PDOS: the vector is renormalised in place, so the
    result carries it next to (F, E, C, S). *)
Definition computeThermoFunctionHA (this : HistDataMD D) (pdos : list D)
  (T omegaMax : D) : Outcome (list D * (D * D * D * D)) :=
  let nfreq := u32 (size pdos) in
  domega <- bin_width this nfreq ;;
  omega <- tabulate (length pdos) 0 (fun itime =>
             Ok (phys_THz2Ha * phys_Ha2eV * (d_of_Z itime + d_lit (1 # 2))
                 * domega)) ;;
  nmax <- cutoff omegaMax domega nfreq ;;
  norme <- trapezoid pdos domega (u32 (nmax - 1)) ;;
  pdos <- renormalize pdos norme nmax ;;
  let kBT := phys_kB * T / phys_eV in
  let inv_2kBT := d_lit (1 # 2) / kBT in
  '(F_, E_, C_, S_) <-
     thermo_sums pdos omega domega inv_2kBT (u32 (nmax - 1)) ;;
  Ok (pdos,
      (F_ * (d_of_Z 3 * kBT),
       E_ * (d_of_Z 3 * d_lit (1 # 2)),
       C_ * d_of_Z 3,
       S_ * d_of_Z 3)).

(** The overload on a frame window. *)
Definition computeThermoFunctionHA_window (this : HistDataMD D)
  (tbegin tend : Z) (omegaMax : D) : Outcome (D * D * D * D) :=
  _ <- try_catch (HistData_checkTimes this tbegin tend)
         (fun e => Throw (ADD "Thermodynamics calculations aborted" ERRDIV e)) ;;
  pdos <- try_catch (pdosfull <- getPDOS this tbegin tend d0 ;; front pdosfull)
            (fun e =>
               (* e.ADD("Unable to compute thermodynamics functions.",ERRDIV)
                  and the handler ends: [pdos] stays empty *)
               Ok []) ;;
  window <- slice (_temperature this) tbegin tend ;;
  let T := utils_mean window in
  r <- computeThermoFunctionHA this pdos T omegaMax ;;
  Ok (snd r).

End Model.

(** ** Well-formed stores and the vocabulary of the statements *)

Section Conditions.
Context {D : Type} {arith : Double D} {env : Platform D}.

(** Every scalar series and the time axis hold one value per filled frame. *)
Definition series_filled (s : HistDataMD D) : Prop :=
  0 <= _ntime s /\
  size (_time s) = _ntime s /\
  size (_ekin s) = _ntime s /\
  size (_temperature s) = _ntime s /\
  size (_pressure s) = _ntime s /\
  size (_entropy s) = _ntime s.

(** The store has atoms and frames, three velocity components for each. *)
Definition velocities_filled (s : HistDataMD D) : Prop :=
  0 < _natom s /\ 0 < _ntime s /\
  size (_velocities s) = 3 * _natom s * _ntime s.

(** Two filled stores on the same atoms whose merge fits [unsigned]. *)
Definition mergeable (this hist : HistDataMD D) : Prop :=
  series_filled this /\ series_filled hist /\
  velocities_filled this /\ velocities_filled hist /\
  _natom hist = _natom this /\
  3 * _natom this * (_ntime this + _ntime hist) < 2 ^ 32.

(** [order] maps each of [natom] atoms to an atom. *)
Definition valid_order (natom : Z) (order : list Z) : Prop :=
  size order = natom /\ Forall (fun o => 0 <= o < natom) order.

Definition identity_order (n : nat) : list Z := map Z.of_nat (seq 0 n).

(** What the structural matching may answer for the merge to go through:
    an order, valid when it is not the identity, or an exception. *)
Definition order_usable (this hist : HistDataMD D) : Prop :=
  _tryToMap this = true ->
  match HistData_reorder (HistData_plus_assign this hist) hist with
  | Ok order => order <> identity_order (length order) ->
                valid_order (_natom this) order
  | Throw _ => True
  | Undefined => False
  end.

(** What [copy_reordered] has established once the components before
    position [L] of the appended block are written. *)
Definition reordered_upto (order : list Z) (natom hn start : Z)
  (hvel vel : list D) (L : Z) (v : list D) : Prop :=
  length v = length vel /\
  (forall j, (j < Z.to_nat start)%nat -> nth_error v j = nth_error vel j) /\
  (forall t a c o, 0 <= t < hn -> 0 <= a < natom -> 0 <= c < 3 ->
     t * 3 * natom + a * 3 + c < L ->
     vget order a = Ok o ->
     nth_error v (Z.to_nat (start + (t * 3 * natom + a * 3 + c))) =
     nth_error hvel (Z.to_nat (t * 3 * natom + o * 3 + c))).

(** The spacing of the first two frames. *)
Definition frame_spacing (s : HistData D) : option D :=
  match _time s with
  | t0 :: t1 :: _ => Some (t1 - t0)%dbl
  | _ => None
  end.

(** The mismatch of two spacings relative to the first. *)
Definition relative_mismatch (dt1 dt2 : D) : D :=
  (dabs (dt1 - dt2) / dabs dt1)%dbl.

(** Component [coord] of the velocity of atom [iatom] in frame [itime]. *)
Definition velocity (v : list D) (natom itime iatom coord : Z) : option D :=
  nth_error v (Z.to_nat (itime * 3 * natom + iatom * 3 + coord)).

(** *** Interpolation *)

(** Slot [i] of a vector. *)
Definition slot (x : list D) (i : Z) : option D := nth_error x (Z.to_nat i).

(** The slot written first in the segment that ends at [lastStep]. *)
Definition cursor_top (dup : bool) (ninter lastStep : Z) : Z :=
  if dup then (ninter - 1) * lastStep else ninter * lastStep - 1.

(** The blend returns its end points on the pair [last], [first]. *)
Definition blend_returns_ends (alpha : D) (ninter : Z) (last first : D)
  : Prop :=
  blend alpha 0 last first = last /\
  blend alpha (ninter - 1) last first = first.

(** It does so on every pair of neighbouring recorded frames of a series of
    [s] values per frame and [T] frames. *)
Definition ends_kept (alpha : D) (ninter s T : Z) (xi : list D) : Prop :=
  forall L d l f, 1 <= L < T -> 0 <= d < s ->
    slot xi (s * L + d) = Some l -> slot xi (s * (L - 1) + d) = Some f ->
    blend_returns_ends alpha ninter l f.

(** Frames below [L] hold the recorded values. *)
Definition low_frames (s L : Z) (xi x : list D) : Prop :=
  forall j d, 0 <= j < L -> 0 <= d < s ->
    slot x (s * j + d) = slot xi (s * j + d).

(** Recorded frame [j], for [L < j < T], sits at frame [m * j]. *)
Definition grid_frames (s m T L : Z) (xi x : list D) : Prop :=
  forall j d, L < j < T -> 0 <= d < s ->
    slot x (s * (m * j) + d) = slot xi (s * j + d).

(** The first [dmax] components of recorded frame [L] sit at frame [m * L]. *)
Definition grid_frame_upto (s m L : Z) (xi x : list D) (dmax : Z) : Prop :=
  forall d, 0 <= d < dmax ->
    slot x (s * (m * L) + d) = slot xi (s * L + d).

(** A series in the segment that ends at [L], before component [d] of
    sub-step [t] is written. *)
Definition series_values (s m T L : Z) (xi : list D) (t d : Z) (x : list D)
  : Prop :=
  low_frames s L xi x /\ grid_frames s m T L xi x /\
  grid_frame_upto s m L xi x (if t =? 0 then d else s).

Definition series_ok (exact : Prop) (s m T L : Z) (xi : list D) (t d : Z)
  (x : list D) : Prop :=
  length x = length xi /\ (exact -> series_values s m T L xi t d x).

(** A series between two segments, the next one ending at [L]. *)
Definition series_done (s m T L : Z) (xi x : list D) : Prop :=
  low_frames s (L + 1) xi x /\ grid_frames s m T L xi x.

Definition outer_ok (exact : Prop) (s m T L : Z) (xi x : list D) : Prop :=
  length x = length xi /\ (exact -> series_done s m T L xi x).

(** The cursor inside the segment that ends at [L], before sub-step [t]. *)
Definition cursor_ok (exact : Prop) (natom3 ninter T L t : Z)
  (c0 c : @Cursor D) (ct : Z) : Prop :=
  currentTime c = ct /\
  series_ok exact natom3 (ninter - 1) T L (c_velocities c0) t 0
    (c_velocities c) /\
  series_ok exact 1 (ninter - 1) T L (c_ekin c0) t 0 (c_ekin c) /\
  series_ok exact 1 (ninter - 1) T L (c_temperature c0) t 0
    (c_temperature c) /\
  series_ok exact 1 (ninter - 1) T L (c_pressure c0) t 0 (c_pressure c) /\
  series_ok exact 1 (ninter - 1) T L (c_entropy c0) t 0 (c_entropy c).

(** The cursor between two segments, the next one ending at [L]. *)
Definition cursor_done (exact : Prop) (natom3 ninter T L : Z)
  (c0 c : @Cursor D) (ct : Z) : Prop :=
  currentTime c = ct /\
  outer_ok exact natom3 (ninter - 1) T L (c_velocities c0) (c_velocities c) /\
  outer_ok exact 1 (ninter - 1) T L (c_ekin c0) (c_ekin c) /\
  outer_ok exact 1 (ninter - 1) T L (c_temperature c0) (c_temperature c) /\
  outer_ok exact 1 (ninter - 1) T L (c_pressure c0) (c_pressure c) /\
  outer_ok exact 1 (ninter - 1) T L (c_entropy c0) (c_entropy c).

(** The sizes of the series at the start of the loop, for [N] frames. *)
Definition cursor_sized (natom3 N : Z) (c0 : @Cursor D) : Prop :=
  natom3 * N <= size (c_velocities c0) /\
  N <= size (c_ekin c0) /\
  N <= size (c_temperature c0) /\
  N <= size (c_pressure c0) /\
  N <= size (c_entropy c0).

(** The blend returns its end points on the five series under the cursor. *)
Definition cursor_ends_kept (alpha : D) (ninter natom3 T : Z)
  (c0 : @Cursor D) : Prop :=
  ends_kept alpha ninter natom3 T (c_velocities c0) /\
  ends_kept alpha ninter 1 T (c_ekin c0) /\
  ends_kept alpha ninter 1 T (c_temperature c0) /\
  ends_kept alpha ninter 1 T (c_pressure c0) /\
  ends_kept alpha ninter 1 T (c_entropy c0).

(** The blend returns its end points on the recorded frames of a store. *)
Definition store_ends_kept (alpha : D) (ninter : Z) (this : HistDataMD D)
  : Prop :=
  ends_kept alpha ninter (3 * _natom this) (_ntime this) (_velocities this) /\
  ends_kept alpha ninter 1 (_ntime this) (_ekin this) /\
  ends_kept alpha ninter 1 (_ntime this) (_temperature this) /\
  ends_kept alpha ninter 1 (_ntime this) (_pressure this) /\
  ends_kept alpha ninter 1 (_ntime this) (_entropy this).

(** The store has atoms, its series hold [_ntime] frames, and the frames
    asked for fit the 32-bit counters of the interpolation. *)
Definition interpolable (this : HistDataMD D) (ninter : Z) : Prop :=
  series_filled this /\
  0 < _natom this /\
  size (_velocities this) = 3 * _natom this * _ntime this /\
  3 * Z.max 3 (_natom this) * (ninter * _ntime this) < 2 ^ 31.

(** *** Autocorrelation *)

(** The number of atoms of species [s]. *)
Definition count_species (typat : list Z) (s : Z) : Z :=
  Z.of_nat (count_occ Z.eq_dec typat s).

Definition total (l : list D) : D := fold_right dadd d0 l.

(** Entry [j] of row [i] of a table. *)
Definition entry (table : list (list D)) (i j : Z) : D :=
  nth (Z.to_nat j) (nth (Z.to_nat i) table []) d0.

(** The velocities of the frames [tbegin, tend). *)
Definition velocity_window (this : HistDataMD D) (tbegin tend : Z) : list D :=
  firstn (Z.to_nat ((tend - tbegin) * 3 * _natom this))
    (skipn (Z.to_nat (tbegin * 3 * _natom this)) (_velocities this)).

(** The store has atoms, each of a species of the table, each species has
    an atom, and the window lies inside the recorded frames. *)
Definition vacf_ready (this : HistDataMD D) (tbegin tend : Z) : Prop :=
  0 < _natom this /\
  size (_typat this) = _natom this /\
  Forall (fun t => 1 <= t <= size (_znucl this)) (_typat this) /\
  (forall s, 1 <= s <= size (_znucl this) ->
             0 < count_species (_typat this) s) /\
  size (_velocities this) = 3 * _natom this * _ntime this /\
  0 <= tbegin < tend /\ tend <= _ntime this /\
  3 * _natom this * _ntime this < 2 ^ 31.

(** A row of [vacf_tmp]: slot 0 holds the sum of the [n] species slots. *)
Definition balanced (n : nat) (row : list D) : Prop :=
  exists h tl, row = h :: tl /\ length tl = n /\ h = total tl.

End Conditions.

(** ** Exact arithmetic: the rationals *)

Definition Qc_ltb (a b : Qc) : bool :=
  match (a ?= b)%Qc with
  | Lt => true
  | _ => false
  end.

#[export] Instance Qc_Double : Double Qc := {|
  d0 := 0%Qc;
  d1 := 1%Qc;
  dadd := Qcplus;
  dsub := Qcminus;
  dmul := Qcmult;
  ddiv := Qcdiv;
  dopp := Qcopp;
  dabs := Qcabs.Qcabs;
  dltb := Qc_ltb;
  d_of_Z := fun z => Q2Qc (inject_Z z);
  d_to_Z := fun q => Z.quot (Qnum q) (Zpos (Qden q));
  d_lit := Q2Qc
|}.

(** ** IEEE arithmetic: binary64 *)

Module Binary64.

(** The double nearest to an integer, ties to even. *)
Definition of_Z (z : Z) : PrimFloat.float :=
  FloatOps.SF2Prim
    (SpecFloat.binary_normalize FloatOps.prec FloatOps.emax z 0 false).

(** The conversion to an integer type truncates.  That of an infinity or of
    a NaN is undefined in C++; it is 0 here. *)
Definition to_Z (x : PrimFloat.float) : Z :=
  match FloatOps.Prim2SF x with
  | SpecFloat.S754_finite s m e =>
      let a := match e with
               | Z0 => Zpos m
               | Zpos _ => Zpos m * 2 ^ e
               | Zneg p => Zpos m / 2 ^ Zpos p
               end in
      if s then - a else a
  | _ => 0
  end.

(** A decimal literal whose numerator and denominator are doubles: their
    quotient, rounded once. *)
Definition lit (q : Q) : PrimFloat.float :=
  PrimFloat.div (of_Z (Qnum q)) (of_Z (Zpos (Qden q))).

End Binary64.

#[export] Instance Binary64_Double : Double PrimFloat.float := {|
  d0 := PrimFloat.zero;
  d1 := PrimFloat.one;
  dadd := PrimFloat.add;
  dsub := PrimFloat.sub;
  dmul := PrimFloat.mul;
  ddiv := PrimFloat.div;
  dopp := PrimFloat.opp;
  dabs := PrimFloat.abs;
  dltb := PrimFloat.ltb;
  d_of_Z := Binary64.of_Z;
  d_to_Z := Binary64.to_Z;
  d_lit := Binary64.lit
|}.

(** ** Concrete stores and platforms *)

Module Examples.

Definition q (z : Z) : Qc := Q2Qc (inject_Z z).

Definition sum (l : list Qc) : Qc := fold_left Qcplus l 0%Qc.

(** A platform without FFTW: unit constants, the arithmetic mean, the
    autocorrelation at lag zero only, [order] given. *)
Definition platform (order : Outcome (list Z)) : Platform Qc := {|
  phys_kB := 1%Qc;
  phys_eV := 1%Qc;
  phys_b2A := 1%Qc;
  phys_atu2fs := 1%Qc;
  phys_THz2Ha := 1%Qc;
  phys_Ha2eV := 1%Qc;
  phys_pi := q 3;
  std_sinh := fun x => x;
  std_tanh := fun x => x;
  std_log := fun x => x;
  std_exp := fun x => x;
  std_sqrt := fun x => x;
  utils_mean := fun l => (sum l / q (Z.of_nat (length l)))%Qc;
  HistData_reorder := fun _ _ => order;
  HistData_checkTimes := fun _ _ _ => Ok tt;
  HistData_acf := fun w n => Ok (firstn (Z.to_nat n) (map (fun x => x * x)%Qc w));
  HistData_interpolate := fun ninter amplitude h =>
    let n := newNTime (_ntime h) ninter amplitude in
    Ok {| _natom := _natom h; _ntime := n; _ntimeAvail := n;
          _tryToMap := _tryToMap h; _time := _time h;
          _typat := _typat h; _znucl := _znucl h |};
  HAVE_FFTW3 := false;
  fftw_redft10 := fun l => l
|}.

(** Two atoms of two species, [n] frames at spacing [dt]. *)
Definition frames (n : nat) (dt : Qc) (map_atoms : bool) : HistData Qc := {|
  _natom := 2;
  _ntime := Z.of_nat n;
  _ntimeAvail := Z.of_nat n;
  _tryToMap := map_atoms;
  _time := map (fun i => (q (Z.of_nat i) * dt)%Qc) (seq 0 n);
  _typat := [1; 2];
  _znucl := [8; 1]
|}.

(** The series of frame [i] are [k+i] (ekin), [2k+i], [3k+i], [4k+i]
    (entropy); velocity component [j] of the frame is [100(k+i)+j]. *)
Definition store (k : Z) (n : nat) (dt : Qc) (map_atoms : bool)
  : HistDataMD Qc := {|
  base := frames n dt map_atoms;
  _ekin := map (fun i => q (k + Z.of_nat i)) (seq 0 n);
  _velocities :=
    flat_map (fun i => map (fun j => q (100 * (k + Z.of_nat i) + Z.of_nat j))
                         (seq 0 6)) (seq 0 n);
  _temperature := map (fun i => q (2 * k + Z.of_nat i)) (seq 0 n);
  _pressure := map (fun i => q (3 * k + Z.of_nat i)) (seq 0 n);
  _entropy := map (fun i => q (4 * k + Z.of_nat i)) (seq 0 n)
|}.

(** The platform whose structural matching swaps the two atoms. *)
Definition swapping : Platform Qc := platform (Ok [1; 0]).

Definition two_frames : HistDataMD Qc := store 1 2 (q 1) true.

Definition three_frames : HistDataMD Qc := store 5 3 (q 1) true.

(** Two segments whose frame spacings are 1000 and 1000.0005. *)
Definition spaced_1000 : HistDataMD Qc := store 1 2 (q 1000) false.

Definition spaced_1000_0005 : HistDataMD Qc :=
  store 5 2 (Q2Qc (2000001 # 2000)) false.

End Examples.

(** Stores of doubles. *)
Module DoubleExamples.

Definition f (z : Z) : PrimFloat.float := Binary64.of_Z z.

(** A platform without FFTW: unit constants, the arithmetic mean, the
    autocorrelation at lag zero only. *)
Definition platform : Platform PrimFloat.float := {|
  phys_kB := PrimFloat.one;
  phys_eV := PrimFloat.one;
  phys_b2A := PrimFloat.one;
  phys_atu2fs := PrimFloat.one;
  phys_THz2Ha := PrimFloat.one;
  phys_Ha2eV := PrimFloat.one;
  phys_pi := f 3;
  std_sinh := fun x => x;
  std_tanh := fun x => x;
  std_log := fun x => x;
  std_exp := fun x => x;
  std_sqrt := PrimFloat.sqrt;
  utils_mean := fun l =>
    PrimFloat.div (fold_left PrimFloat.add l PrimFloat.zero)
      (f (Z.of_nat (length l)));
  HistData_reorder := fun _ _ => Ok [];
  HistData_checkTimes := fun _ _ _ => Ok tt;
  HistData_acf := fun w n =>
    Ok (firstn (Z.to_nat n) (map (fun x => PrimFloat.mul x x) w));
  HistData_interpolate := fun ninter amplitude h =>
    let n := newNTime (_ntime h) ninter amplitude in
    Ok {| _natom := _natom h; _ntime := n; _ntimeAvail := n;
          _tryToMap := _tryToMap h; _time := _time h;
          _typat := _typat h; _znucl := _znucl h |};
  HAVE_FFTW3 := false;
  fftw_redft10 := fun l => l
|}.

(** One atom, two frames: every series goes from 0 to 1. *)
Definition rising : HistDataMD PrimFloat.float := {|
  base := {| _natom := 1; _ntime := 2; _ntimeAvail := 2; _tryToMap := false;
             _time := [f 0; f 1]; _typat := [1]; _znucl := [1] |};
  _ekin := [f 0; f 1];
  _velocities := [f 0; f 0; f 0; f 1; f 1; f 1];
  _temperature := [f 0; f 1];
  _pressure := [f 0; f 1];
  _entropy := [f 0; f 1]
|}.

(** Three atoms of two species in one frame, the middle one fast: the
    squares of the velocities are 1, 1e16 and 1. *)
Definition heavy_middle : HistDataMD PrimFloat.float := {|
  base := {| _natom := 3; _ntime := 1; _ntimeAvail := 1; _tryToMap := false;
             _time := [f 0]; _typat := [1; 2; 1]; _znucl := [8; 1] |};
  _ekin := [f 0];
  _velocities := [f 1; f 0; f 0; f 100000000; f 0; f 0; f 1; f 0; f 0];
  _temperature := [f 0];
  _pressure := [f 0];
  _entropy := [f 0]
|}.

End DoubleExamples.

(** ** The rest of the store: construction, the generic merge, averages
    and finite differences *)

Section ModelOfTheStore.
Context {D : Type} {arith : Double D} {env : Platform D}.

(** *** Construction and assignment from the base class *)

(** The store with its base part replaced. *)
Definition with_base (this : HistDataMD D) (b : HistData D) : HistDataMD D :=
  {| base := b;
     _ekin := _ekin this;
     _velocities := _velocities this;
     _temperature := _temperature this;
     _pressure := _pressure this;
     _entropy := _entropy this |}.

(** The five [resize(n, 0.)] that follow a copy of the base part. *)
Definition zero_fill (this : HistDataMD D) : HistDataMD D :=
  {| base := base this;
     _ekin := resize d0 (_ntimeAvail this) (_ekin this);
     _velocities :=
       resize d0 (u32 (_xyz * _natom this * _ntimeAvail this))
         (_velocities this);
     _temperature := resize d0 (_ntimeAvail this) (_temperature this);
     _pressure := resize d0 (_ntimeAvail this) (_pressure this);
     _entropy := resize d0 (_ntimeAvail this) (_entropy this) |}.

(** [HistDataMD(const HistData&)] and [HistDataMD(HistData&&)]: the base
    part is [copy], what the copy constructor of [HistData] makes of the
    argument, and the MD series start empty. *)
Definition HistDataMD_of (copy : HistData D) : HistDataMD D :=
  zero_fill {| base := copy;
               _ekin := [];
               _velocities := [];
               _temperature := [];
               _pressure := [];
               _entropy := [] |}.

(** [operator=(const HistData&)] and [operator=(HistData&&)]: [assigned] is
    the base part after [HistData::operator=]. *)
Definition operator_assign (this : HistDataMD D) (assigned : HistData D)
  : HistDataMD D :=
  zero_fill (with_base this assigned).

(** *** Merge: [operator+=(HistData&)] *)

(** The operand of the merge: [dynamic_cast<HistDataMD*>] tells the two
    cases apart. *)
Inductive Operand : Type :=
| Plain (h : HistData D)
| MD (h : HistDataMD D).

Definition operand_base (hist : Operand) : HistData D :=
  match hist with
  | Plain h => h
  | MD h => base h
  end.

Definition operator_plus_assign_HistData (this : HistDataMD D)
  (hist : Operand)
  : Outcome (HistDataMD D * Operand * list Exception) :=
  let b := HistData_plus_assign this (operand_base hist) in
  match hist with
  | MD toadd =>
      '(r, h, out) <- operator_plus_assign (with_base this b) toadd ;;
      Ok (r, MD h, out)
  | Plain _ =>
      Ok ({| base := b;
             _ekin := resize d0 (_ntime b) (_ekin this);
             _velocities :=
               resize d0 (u32 (_ntime b * _natom b * _xyz))
                 (_velocities this);
             _temperature := resize d0 (_ntime b) (_temperature this);
             _pressure := resize d0 (_ntime b) (_pressure this);
             _entropy := resize d0 (_ntime b) (_entropy this) |},
          hist, [])
  end.

End ModelOfTheStore.

Section MoreConditions.
Context {D : Type} {arith : Double D} {env : Platform D}.


(** [new] is [old] cut to [n] values or padded with zeros up to [n]. *)
Definition cut_or_padded (old new : list D) (n : Z) : Prop :=
  size new = n /\
  forall j, 0 <= j < n ->
    (j < size old -> slot new j = slot old j) /\
    (size old <= j -> slot new j = Some d0).

End MoreConditions.

Section AverageModel.
Context {D : Type} {arith : Double D} {env : Platform D}.
Local Open Scope double_scope.

(** *** Average over a window: [average] *)

(** [HistData::myAverage] is not in src/: [HistData_myAverage this tbegin
    tend] stands for the object [*av], a [new HistDataDtset], once the base
    class has averaged its own series into it. *)
Variable HistData_myAverage :
  HistDataMD D -> Z -> Z -> Outcome (HistDataMD D).

(** The body of the loop over [time]. *)
Definition accumulate_frame (this : HistDataMD D) (inv_ntime : D) (time : Z)
  (av : HistDataMD D) : Outcome (HistDataMD D) :=
  let natom := _natom this in
  vel <- for_loop (Z.to_nat (u32 (3 * natom))) 0 (fun val v =>
           x <- vget (_velocities this) (u32 (time * 3 * natom + val)) ;;
           vadd v val (x * inv_ntime)) (_velocities av) ;;
  e <- vget (_ekin this) time ;;
  ekin <- vadd (_ekin av) 0 (e * inv_ntime) ;;
  t <- vget (_temperature this) time ;;
  temperature <- vadd (_temperature av) 0 (t * inv_ntime) ;;
  p <- vget (_pressure this) time ;;
  pressure <- vadd (_pressure av) 0 (p * inv_ntime) ;;
  s <- vget (_entropy this) time ;;
  entropy <- vadd (_entropy av) 0 (s * inv_ntime) ;;
  Ok {| base := base av;
        _ekin := ekin;
        _velocities := vel;
        _temperature := temperature;
        _pressure := pressure;
        _entropy := entropy |}.

Definition average (this : HistDataMD D) (tbegin tend : Z)
  : Outcome (HistDataMD D) :=
  _ <- HistData_checkTimes this tbegin tend ;;
  av <- HistData_myAverage this tbegin tend ;;
  let inv_ntime := d1 / d_of_Z (u32 (tend - tbegin)) in
  (* av->_mdtemp is copied from this->_mdtemp *)
  let av := {| base := base av;
               _ekin := resize d0 1 (_ekin av);
               _velocities :=
                 resize d0 (u32 (_xyz * _natom this)) (_velocities av);
               _temperature := resize d0 1 (_temperature av);
               _pressure := resize d0 1 (_pressure av);
               _entropy := resize d0 1 (_entropy av) |} in
  for_loop (Z.to_nat (tend - tbegin)) tbegin (accumulate_frame this inv_ntime)
    av.

End AverageModel.

Section AverageConditions.
Context {D : Type} {arith : Double D}.

(** The values at offset [val] of the blocks of [stride] values of [v], for
    the frames [tbegin, tend). *)
Definition channel (v : list D) (stride val tbegin tend : Z) : list D :=
  map (fun k => nth (Z.to_nat ((tbegin + Z.of_nat k) * stride + val)) v d0)
    (seq 0 (Z.to_nat (tend - tbegin))).

(** The MD series of a store are empty, as [HistDataMD()] makes them. *)
Definition md_series_empty (s : HistDataMD D) : Prop :=
  _ekin s = [] /\ _velocities s = [] /\ _temperature s = [] /\
  _pressure s = [] /\ _entropy s = [].

(** The running sum of the values of [l], each multiplied by [inv], from 0
    and in the order of the list. *)
Definition scaled_sum (inv : D) (l : list D) : D :=
  fold_left (fun acc x => (acc + x * inv)%dbl) l d0.

End AverageConditions.

(** The series of the base class [HistData] that the estimator reads:
    positions, cell vectors and stress, frame after frame. *)
Record Trajectory (D : Type) : Type := mkTrajectory {
  _xcart : list D;      (* 3*natom values per frame *)
  _rprimd : list D;     (* 9 values per frame *)
  _stress : list D      (* 6 values per frame *)
}.

Arguments mkTrajectory {D}.
Arguments _xcart {D} t.
Arguments _rprimd {D} t.
Arguments _stress {D} t.

(** What the estimator uses from other translation units, beside
    [Platform]. *)
Class Chemistry (D : Type) : Type := {
  phys_Ha : D;                    (* base/phys.hpp *)
  phys_amu_emass : D;
  MendeTable_mass : list D;       (* base/mendeleev.hpp, by atomic number *)
  geometry_det : list D -> D      (* base/geometry.hpp, on 9 values *)
}.

Section EstimatorModel.
Context {D : Type} {arith : Double D} {env : Platform D}
        {chem : Chemistry D}.
Local Open Scope double_scope.

(** *** Finite differences: [computeVelocitiesPressureTemperature] *)

(** [v2]: the squared velocity of atom [iatom] in frame [itime]. *)
Definition squared_velocity (this : HistDataMD D) (itime iatom : Z)
  : Outcome D :=
  for_loop 3 0 (fun c v2 =>
    x <- vget (_velocities this)
           (u32 (itime * _natom this * 3 + iatom * 3 + c)) ;;
    Ok (v2 + x * x)) d0.

Definition computePressureTemperature (traj : Trajectory D)
  (this : HistDataMD D) (itime : Z) : Outcome (HistDataMD D) :=
  let natom := _natom this in
  let factorT := phys_Ha / (d_lit 3 * phys_kB * d_of_Z natom) in
  let factorP := phys_kB / phys_Ha in
  cell <- slice (_rprimd traj) (u32 (itime * 9)) (u32 (itime * 9) + 9) ;;
  let volume := geometry_det cell in
  temperature <- vset (_temperature this) itime d0 ;;
  temperature <- for_loop (Z.to_nat natom) 0 (fun iatom temperature =>
                   t <- vget (_typat this) iatom ;;
                   z <- vget (_znucl this) (i32 (t - 1)) ;;
                   m <- vget MendeTable_mass z ;;
                   let mass := m * phys_amu_emass in
                   v2 <- squared_velocity this itime iatom ;;
                   vadd temperature itime (mass * v2)) temperature ;;
  T <- vget temperature itime ;;
  temperature <- vset temperature itime (T * factorT) ;;
  s0 <- vget (_stress traj) (u32 (itime * 6)) ;;
  s1 <- vget (_stress traj) (u32 (itime * 6 + 1)) ;;
  s2 <- vget (_stress traj) (u32 (itime * 6 + 2)) ;;
  T <- vget temperature itime ;;
  pressure <- vset (_pressure this) itime
                (phys_Ha / (phys_b2A * phys_b2A * phys_b2A)
                 * d_lit (1000000000000000000000 # 1)
                 * (dopp (s0 + s1 + s2) / d_lit 3
                    + d_of_Z natom / volume * factorP * T)) ;;
  Ok {| base := base this;
        _ekin := _ekin this;
        _velocities := _velocities this;
        _temperature := temperature;
        _pressure := pressure;
        _entropy := _entropy this |}.

(** The three loops over the atoms and the directions: the velocities of
    frame [frame] from the positions of the frames [hi] and [lo], as half
    of the difference over [dtion] when [central], as the difference over
    [dtion] otherwise. *)
Definition difference_velocities (traj : Trajectory D) (natom : Z)
  (central : bool) (dtion : D) (frame hi lo : Z) (vel : list D)
  : Outcome (list D) :=
  for_loop (Z.to_nat natom) 0 (fun iatom v =>
    for_loop 3 0 (fun c v =>
      a <- vget (_xcart traj) (u32 ((hi * natom + iatom) * 3 + c)) ;;
      b <- vget (_xcart traj) (u32 ((lo * natom + iatom) * 3 + c)) ;;
      vset v (u32 (frame * 3 * natom + iatom * 3 + c))
        (if central then d_lit (1 # 2) * (a - b) / dtion
         else (a - b) / dtion)) v) vel.

Definition with_velocities_of (this : HistDataMD D) (v : list D)
  : HistDataMD D :=
  {| base := base this;
     _ekin := _ekin this;
     _velocities := v;
     _temperature := _temperature this;
     _pressure := _pressure this;
     _entropy := _entropy this |}.

Definition computeVelocitiesPressureTemperature (traj : Trajectory D)
  (this : HistDataMD D) (itime : Z) (dtion : D) : Outcome (HistDataMD D) :=
  let natom := _natom this in
  this <- (if (2 <=? itime)%Z then
             v <- difference_velocities traj natom true dtion
                    (u32 (itime - 1)) itime (u32 (itime - 2))
                    (_velocities this) ;;
             computePressureTemperature traj (with_velocities_of this v)
               (u32 (itime - 1))
           else Ok this) ;;
  this <- (if (itime =? u32 (_ntime this - 1))%Z && (0 <? itime)%Z then
             v <- difference_velocities traj natom false dtion
                    itime itime (u32 (itime - 1)) (_velocities this) ;;
             computePressureTemperature traj (with_velocities_of this v) itime
           else Ok this) ;;
  if (itime =? 1)%Z then
    v <- difference_velocities traj natom false dtion
           0 itime (u32 (itime - 1)) (_velocities this) ;;
    computePressureTemperature traj (with_velocities_of this v) 0
  else Ok this.

End EstimatorModel.

Section EstimatorConditions.
Context {D : Type} {arith : Double D} {chem : Chemistry D}.

(** The store and the trajectory hold [_ntime] frames of [_natom] atoms
    whose species and atomic numbers are in the tables. *)
Definition estimable (traj : Trajectory D) (this : HistDataMD D) : Prop :=
  0 < _natom this /\ 0 <= _ntime this /\
  size (_typat this) = _natom this /\
  size (_znucl this) < 2 ^ 31 /\
  Forall (fun t => 1 <= t <= size (_znucl this)) (_typat this) /\
  Forall (fun z => 0 <= z < size MendeTable_mass) (_znucl this) /\
  size (_xcart traj) = 3 * _natom this * _ntime this /\
  size (_velocities this) = 3 * _natom this * _ntime this /\
  size (_rprimd traj) = 9 * _ntime this /\
  size (_stress traj) = 6 * _ntime this /\
  size (_temperature this) = _ntime this /\
  size (_pressure this) = _ntime this /\
  Z.max 3 (_natom this) * 3 * _ntime this < 2 ^ 31.

(** Component [coord] of the position of atom [iatom] in frame [itime]. *)
Definition position (traj : Trajectory D) (natom itime iatom coord : Z) : D :=
  nth (Z.to_nat ((itime * natom + iatom) * 3 + coord)) (_xcart traj) d0.

(** The value a finite difference writes. *)
Definition difference (central : bool) (dtion a b : D) : D :=
  if central then (d_lit (1 # 2) * (a - b) / dtion)%dbl
  else ((a - b) / dtion)%dbl.

End EstimatorConditions.

(** ** More concrete stores *)

Module MoreExamples.
Import Examples.

(** The base part of a store of two atoms with [n] frames filled out of
    [avail] reserved. *)
Definition reserved (n avail : nat) : HistData Qc := {|
  _natom := 2;
  _ntime := Z.of_nat n;
  _ntimeAvail := Z.of_nat avail;
  _tryToMap := false;
  _time := map (fun i => q (Z.of_nat i)) (seq 0 n);
  _typat := [1; 2];
  _znucl := [8; 1]
|}.

(** A store without velocities. *)
Definition still (n avail : nat) : HistDataMD Qc :=
  with_velocities (with_base (store 5 n (q 1) false) (reserved n avail)) [].

Definition two_frames_unmapped : HistDataMD Qc := store 1 2 (q 1) false.

Definition three_frames_unmapped : HistDataMD Qc := store 5 3 (q 1) false.

(** A platform whose autocorrelation primitive fails. *)
Definition failing_acf : Platform Qc := {|
  phys_kB := 1%Qc;
  phys_eV := 1%Qc;
  phys_b2A := 1%Qc;
  phys_atu2fs := 1%Qc;
  phys_THz2Ha := 1%Qc;
  phys_Ha2eV := 1%Qc;
  phys_pi := q 3;
  std_sinh := fun x => x;
  std_tanh := fun x => x;
  std_log := fun x => x;
  std_exp := fun x => x;
  std_sqrt := fun x => x;
  utils_mean := fun l => (sum l / q (Z.of_nat (length l)))%Qc;
  HistData_reorder := fun _ _ => Ok [0; 1];
  HistData_checkTimes := fun _ _ _ => Ok tt;
  HistData_acf := fun _ _ => Throw (EXCEPTION "not enough data" ERRDIV);
  HistData_interpolate := fun _ _ h => Ok h;
  HAVE_FFTW3 := true;
  fftw_redft10 := fun l => l
|}.

(** The object [*av] as [new HistDataDtset] and the base class leave it. *)
Definition fresh_average (this : HistDataMD Qc) (tbegin tend : Z)
  : Outcome (HistDataMD Qc) :=
  Ok {| base := frames 1 (q 1) false;
        _ekin := [];
        _velocities := [];
        _temperature := [];
        _pressure := [];
        _entropy := [] |}.

(** Unit constants, ten masses, a unit cell volume. *)
Definition chemistry : Chemistry Qc := {|
  phys_Ha := 1%Qc;
  phys_amu_emass := 1%Qc;
  MendeTable_mass := map (fun i => q (Z.of_nat i)) (seq 0 10);
  geometry_det := fun _ => 1%Qc
|}.

(** Three frames of two atoms: component [j] of frame [t] is at
    [10*j + 4*t]. *)
Definition moving : Trajectory Qc := {|
  _xcart :=
    flat_map (fun t => map (fun j => q (10 * Z.of_nat j + 4 * Z.of_nat t))
                         (seq 0 6)) (seq 0 3);
  _rprimd := repeat 1%Qc 27;
  _stress := repeat 1%Qc 18
|}.


End MoreExamples.

(** ** The vocabulary of the interpolated frames *)

Section InterpolationVocabulary.
Context {D : Type} {arith : Double D}.

(** What one sub-step leaves in a series of [s] values per frame. *)
Definition frame_written (alpha : D) (s L t cur : Z) (last : Z -> option D)
  (x x' : list D) : Prop :=
  (forall p, 0 <= p -> p < s * cur \/ s * cur + s <= p ->
     slot x' p = slot x p) /\
  (forall d, 0 <= d < s ->
     exists l f, last d = Some l /\ slot x (s * (L - 1) + d) = Some f /\
                 slot x' (s * cur + d) = Some (blend alpha t l f)).

(** Sub-step [t] of the segment that ends at recorded frame [L] is found in
    [result] at frame [n*L - 1 - t], blended from the recorded frames [L]
    and [L-1] of [orig], for series of [s] values per frame. *)
Definition blended_from (alpha : D) (s n : Z) (orig result : list D)
  (L t : Z) : Prop :=
  forall d, 0 <= d < s ->
    exists l f,
      slot orig (s * L + d) = Some l /\
      slot orig (s * (L - 1) + d) = Some f /\
      slot result (s * (n * L - 1 - t) + d) = Some (blend alpha t l f).

(** Without elision: the frames below the cursor hold the recorded values,
    the frames of the segments above [L] and of the sub-steps before
    [tdone] of segment [L] hold their blends. *)
Definition stepped_written (alpha : D) (s n T L tdone : Z) (xi x : list D)
  : Prop :=
  (forall p, 0 <= p < s * (n * L - tdone) -> slot x p = slot xi p) /\
  (forall L' t', 0 <= t' < n -> L < L' < T \/ (L' = L /\ t' < tdone) ->
     blended_from alpha s n xi x L' t').

Definition cursor_stepped (alpha : D) (natom3 n T L tdone : Z)
  (c0 c : @Cursor D) : Prop :=
  stepped_written alpha natom3 n T L tdone (c_velocities c0)
    (c_velocities c) /\
  stepped_written alpha 1 n T L tdone (c_ekin c0) (c_ekin c) /\
  stepped_written alpha 1 n T L tdone (c_temperature c0) (c_temperature c) /\
  stepped_written alpha 1 n T L tdone (c_pressure c0) (c_pressure c) /\
  stepped_written alpha 1 n T L tdone (c_entropy c0) (c_entropy c).

(** With elision: sub-step [t] of the segment that ends at recorded frame
    [L] is found in [result] at frame [(n-1)*L - t], blended from the
    recorded frames [L] and [L-1] of [orig]. *)
Definition blended_onto (alpha : D) (s n : Z) (orig result : list D)
  (L t : Z) : Prop :=
  forall d, 0 <= d < s ->
    exists l f,
      slot orig (s * L + d) = Some l /\
      slot orig (s * (L - 1) + d) = Some f /\
      slot result (s * ((n - 1) * L - t) + d) = Some (blend alpha t l f).

(** With elision: the frames below the cursor, and the frame under it once
    the segment has begun, hold the recorded values; the sub-steps already
    run hold their blends, the last sub-step of a segment apart, which the
    next segment overwrites unless it wrote frame 0. *)
Definition elided_written (alpha : D) (s n T L tdone : Z) (xi x : list D)
  : Prop :=
  (forall p,
     0 <= p < s * ((n - 1) * L - tdone + (if tdone =? 0 then 0 else 1)) ->
     slot x p = slot xi p) /\
  (forall L' t', 0 <= t' < n -> t' < n - 1 \/ L' = 1 ->
     L < L' < T \/ (L' = L /\ t' < tdone) ->
     blended_onto alpha s n xi x L' t').

Definition cursor_elided (alpha : D) (natom3 n T L tdone : Z)
  (c0 c : @Cursor D) : Prop :=
  elided_written alpha natom3 n T L tdone (c_velocities c0)
    (c_velocities c) /\
  elided_written alpha 1 n T L tdone (c_ekin c0) (c_ekin c) /\
  elided_written alpha 1 n T L tdone (c_temperature c0) (c_temperature c) /\
  elided_written alpha 1 n T L tdone (c_pressure c0) (c_pressure c) /\
  elided_written alpha 1 n T L tdone (c_entropy c0) (c_entropy c).

End InterpolationVocabulary.

(** ** The vocabulary of the aggregation *)

Section AggregationVocabulary.
Context {D : Type} {arith : Double D} {env : Platform D}.

(** Slot [s] of the accumulators covers the atoms of species [t]; slot 0
    covers every atom. *)
Definition covers (s t : Z) : bool := (s =? 0) || (s =? t).

(** The running sum of slot [s]: in the order of the atoms, the three
    channels of each atom the slot covers are added to [acc], one after
    the other. *)
Fixpoint lag_sum (s : Z) (typat : list Z) (values : list D) (acc : D) : D :=
  match typat, values with
  | t :: typat', x :: y :: z :: values' =>
      lag_sum s typat' values'
        (if covers s t then (acc + x + y + z)%dbl else acc)
  | _, _ => acc
  end.

(** The values of [fullvacf] from lag [itau] on. *)
Definition from_lag (this : HistData D) (fullvacf : list D) (itau : Z)
  : list D :=
  skipn (Z.to_nat (itau * 3 * _natom this)) fullvacf.

(** The number of atoms slot [s] covers. *)
Definition slot_count (this : HistData D) (s : Z) : Z :=
  if s =? 0 then _natom this else count_species (_typat this) s.

(** The index [shift+iatom*3+c], computed on doubles, is the integer it
    stands for. *)
Definition lag_index_exact (natom ntau : Z) : Prop :=
  forall itau k, 0 <= itau < ntau -> 0 <= k < 3 * natom ->
    d_to_Z (d_of_Z (itau * 3 * natom) + d_of_Z k)%dbl = itau * 3 * natom + k.

(** The store has atoms, each of a species of the table, and the window
    lies inside the recorded frames. *)
Definition vacf_window (this : HistDataMD D) (tbegin tend : Z) : Prop :=
  0 < _natom this /\
  size (_typat this) = _natom this /\
  Forall (fun t => 1 <= t <= size (_znucl this)) (_typat this) /\
  size (_velocities this) = 3 * _natom this * _ntime this /\
  0 <= tbegin < tend /\ tend <= _ntime this /\
  3 * _natom this * _ntime this < 2 ^ 31.

(** Slot [s] of [row] holds [g s], for the [n] species and slot 0. *)
Definition row_holds (n : nat) (row : list D) (g : Z -> D) : Prop :=
  length row = S n /\
  forall s, 0 <= s <= Z.of_nat n -> nth_error row (Z.to_nat s) = Some (g s).

End AggregationVocabulary.

(** * Properties *)

(** ** Machine integers, outcomes, vectors *)

Lemma u32_small (z : Z) : 0 <= z < 2 ^ 32 -> u32 z = z.
Proof. intros Hz. unfold u32. apply Z.mod_small. exact Hz. Qed.

Lemma i32_small (z : Z) : - 2 ^ 31 <= z < 2 ^ 31 -> i32 z = z.
Proof.
  intros Hz. unfold i32. rewrite Z.mod_small; lia.
Qed.

Lemma u32_range (z : Z) : 0 <= u32 z < 2 ^ 32.
Proof. unfold u32. apply Z.mod_pos_bound. lia. Qed.

Lemma bind_Ok {A B : Type} (m : Outcome A) (f : A -> Outcome B) (b : B) :
  bind m f = Ok b -> exists a, m = Ok a /\ f a = Ok b.
Proof.
  destruct m as [a| |]; simpl; intros Hb; try discriminate.
  exists a. split; [reflexivity | exact Hb].
Qed.

Ltac bind_inv H :=
  let a := fresh "a" in
  let Ha := fresh "H" a in
  apply bind_Ok in H; destruct H as (a & Ha & H).

Section VectorFacts.
Context {A : Type}.
Implicit Types (v : list A) (x zero : A) (i n : nat).

Lemma length_update i x v : length (update i x v) = length v.
Proof.
  revert i; induction v as [|y r IH]; intros [|j]; simpl; auto.
Qed.

Lemma nth_error_update_eq i x v :
  (i < length v)%nat -> nth_error (update i x v) i = Some x.
Proof.
  revert i; induction v as [|y r IH]; intros [|j]; simpl; intros Hi;
    try lia; auto.
  apply IH. lia.
Qed.

Lemma nth_error_update_neq i j x v :
  i <> j -> nth_error (update i x v) j = nth_error v j.
Proof.
  revert i j; induction v as [|y r IH]; intros [|i] [|j]; simpl; intros Hij;
    try congruence; auto.
Qed.

Lemma length_resize zero (n : Z) v : length (resize zero n v) = Z.to_nat n.
Proof.
  unfold resize. rewrite length_app, length_firstn, repeat_length. lia.
Qed.

Lemma resize_grow zero (n : Z) v :
  (length v <= Z.to_nat n)%nat ->
  resize zero n v = v ++ repeat zero (Z.to_nat n - length v).
Proof.
  intros Hn. unfold resize. rewrite firstn_all2 by exact Hn. reflexivity.
Qed.

Lemma nth_error_resize zero (n : Z) v i :
  (i < length v)%nat -> (i < Z.to_nat n)%nat ->
  nth_error (resize zero n v) i = nth_error v i.
Proof.
  intros Hi Hn. unfold resize.
  rewrite nth_error_app1 by (rewrite length_firstn; lia).
  rewrite nth_error_firstn.
  destruct (Nat.ltb_spec i (Z.to_nat n)); [reflexivity | lia].
Qed.

Lemma vget_Some v (i : Z) x :
  vget v i = Ok x <-> 0 <= i /\ nth_error v (Z.to_nat i) = Some x.
Proof.
  unfold vget. destruct (Z.ltb_spec i 0) as [Hi|Hi].
  - split; [discriminate | lia].
  - destruct (nth_error v (Z.to_nat i)) as [y|]; split.
    + intros [= ->]. auto.
    + intros [_ [= ->]]. reflexivity.
    + discriminate.
    + intros [_ [=]].
  Qed.

Lemma vget_in_range v (i : Z) :
  0 <= i < size v -> exists x, vget v i = Ok x.
Proof.
  unfold size. intros Hi.
  destruct (nth_error v (Z.to_nat i)) as [x|] eqn:Hx.
  - exists x. apply vget_Some. split; [lia | exact Hx].
  - apply nth_error_None in Hx. lia.
Qed.

Lemma vget_never_throws v (i : Z) (e : Exception) : vget v i <> Throw e.
Proof.
  unfold vget. destruct (i <? 0); [discriminate|].
  destruct (nth_error v (Z.to_nat i)); discriminate.
Qed.

Lemma vset_Ok v (i : Z) x :
  0 <= i < size v -> vset v i x = Ok (update (Z.to_nat i) x v).
Proof.
  intros Hi. unfold vset.
  destruct (Z.leb_spec 0 i); [|lia].
  destruct (Z.ltb_spec i (size v)); [|lia]. reflexivity.
Qed.

Lemma vset_inv v (i : Z) x v' :
  vset v i x = Ok v' -> 0 <= i < size v /\ v' = update (Z.to_nat i) x v.
Proof.
  unfold vset.
  destruct (Z.leb_spec 0 i); simpl; [|discriminate].
  destruct (Z.ltb_spec i (size v)); [|discriminate].
  intros [= <-]. split; [lia | reflexivity].
Qed.

Lemma std_copy_append (src v pad : list A) :
  length pad = length src ->
  std_copy src (v ++ pad) (size v) = Ok (v ++ src).
Proof.
  intros Hp. unfold std_copy, size.
  rewrite length_app, Hp.
  destruct (Z.leb_spec 0 (Z.of_nat (length v))); [|lia].
  destruct (Z.leb_spec (Z.of_nat (length v) + Z.of_nat (length src))
              (Z.of_nat (length v + length src))); [|lia].
  simpl. rewrite Nat2Z.id.
  rewrite firstn_app, firstn_all, Nat.sub_diag, firstn_O, app_nil_r.
  rewrite skipn_all2 by (rewrite length_app; lia).
  rewrite app_nil_r. reflexivity.
Qed.

Lemma std_copy_length (src dst : list A) (off : Z) (r : list A) :
  std_copy src dst off = Ok r -> length r = length dst.
Proof.
  unfold std_copy, size.
  destruct (Z.leb_spec 0 off); simpl; [|discriminate].
  destruct (Z.leb_spec (off + Z.of_nat (length src)) (Z.of_nat (length dst)));
    [|discriminate].
  intros [= <-].
  rewrite !length_app, length_firstn, length_skipn. lia.
Qed.

End VectorFacts.

(** A loop keeps whatever each iteration keeps. *)
Lemma for_loop_preserves {St : Type} (P : St -> Prop)
  (body : Z -> St -> Outcome St) :
  (forall i s s', body i s = Ok s' -> P s -> P s') ->
  forall n i s s', for_loop n i body s = Ok s' -> P s -> P s'.
Proof.
  intros Hbody. induction n as [|n IH]; simpl; intros i s s' Hrun Hs.
  - injection Hrun as <-. exact Hs.
  - bind_inv Hrun. eapply IH; [exact Hrun|]. eapply Hbody; eauto.
Qed.

(** A loop establishes an invariant indexed by the counter. *)
Lemma for_loop_invariant {St : Type} (P : Z -> St -> Prop)
  (body : Z -> St -> Outcome St) (lo : Z) :
  forall n s,
  P lo s ->
  (forall i s, lo <= i < lo + Z.of_nat n -> P i s ->
     exists s', body i s = Ok s' /\ P (i + 1) s') ->
  exists s', for_loop n lo body s = Ok s' /\ P (lo + Z.of_nat n) s'.
Proof.
  intros n. revert lo. induction n as [|n IH]; intros lo s Hs Hbody.
  - exists s. simpl. rewrite Z.add_0_r. auto.
  - destruct (Hbody lo s) as (s1 & Hs1 & HP1); [lia | exact Hs |].
    destruct (IH (lo + 1) s1 HP1) as (s2 & Hs2 & HP2).
    + intros i s0 Hi. apply Hbody. lia.
    + exists s2. split.
      * simpl. rewrite Hs1. simpl. exact Hs2.
      * replace (lo + Z.of_nat (S n)) with (lo + 1 + Z.of_nat n) by lia.
        exact HP2.
Qed.

(** The first iteration of a loop of positive count. *)
Lemma for_loop_first {St : Type} (n : Z) (i : Z)
  (body : Z -> St -> Outcome St) (s : St) :
  0 < n ->
  for_loop (Z.to_nat n) i body s =
  (s' <- body i s ;; for_loop (Z.to_nat (n - 1)) (i + 1) body s').
Proof.
  intros Hn. replace n with (Z.succ (n - 1)) at 1 by lia.
  rewrite Z2Nat.inj_succ by lia. reflexivity.
Qed.

(** A loop whose body cannot fail under [P] returns. *)
Lemma for_loop_total {St : Type} (P : St -> Prop)
  (body : Z -> St -> Outcome St) (lo : Z) (n : nat) (s : St) :
  P s ->
  (forall i s, lo <= i < lo + Z.of_nat n -> P s ->
     exists s', body i s = Ok s' /\ P s') ->
  exists s', for_loop n lo body s = Ok s' /\ P s'.
Proof.
  intros Hs Hbody.
  apply (for_loop_invariant (fun _ s => P s) body lo n s Hs Hbody).
Qed.

(** A table is filled when each of its entries is. *)
Lemma tabulate_total {A : Type} (P : Z -> A -> Prop) (f : Z -> Outcome A) :
  forall (n : nat) (lo : Z),
  (forall i, lo <= i < lo + Z.of_nat n -> exists x, f i = Ok x /\ P i x) ->
  exists l, tabulate n lo f = Ok l /\ length l = n /\
            forall k x, nth_error l k = Some x -> P (lo + Z.of_nat k) x.
Proof.
  induction n as [|n IH]; intros lo Hf.
  - exists []. repeat split. intros [|k] x; discriminate.
  - destruct (Hf lo) as (x & Hx & HP); [lia|].
    destruct (IH (lo + 1)) as (l & Hl & Hlen & Hnth).
    + intros i Hi. apply Hf. lia.
    + exists (x :: l). cbn [tabulate]. rewrite Hx. cbn [bind].
      rewrite Hl. cbn [bind]. repeat split; [cbn; lia|].
      intros [|k] y; cbn.
      * intros [= <-]. rewrite Z.add_0_r. exact HP.
      * intros Hy. replace (lo + Z.pos (Pos.of_succ_nat k))
          with (lo + 1 + Z.of_nat k) by lia.
        apply Hnth. exact Hy.
Qed.

Section Properties.
Context {D : Type} {arith : Double D} {env : Platform D}.

(** ** Accessors *)

Lemma getEkin_beyond (this : HistDataMD D) (time : Z) :
  _ntime this < time ->
  getEkin this time =
  Throw (range_error "Out of range for ekin " time (_ntime this)).
Proof.
  intros Ht. unfold getEkin.
  destruct (Z.ltb_spec (_ntime this) time); [reflexivity | lia].
Qed.

Lemma getEkin_within (this : HistDataMD D) (time : Z) :
  size (_ekin this) = _ntime this -> 0 <= time < _ntime this ->
  exists x, getEkin this time = Ok x /\
            nth_error (_ekin this) (Z.to_nat time) = Some x.
Proof.
  intros Hsize Ht. unfold getEkin.
  destruct (Z.ltb_spec (_ntime this) time); [lia|].
  destruct (vget_in_range (_ekin this) time) as (x & Hx); [lia|].
  exists x. split; [exact Hx|]. apply vget_Some in Hx. apply Hx.
Qed.

(** C3, at the first frame index outside the recorded range.  The guard of
    the four accessors is [time > _ntime], so the index [_ntime] itself is
    let through: none of them reports a lookup failure there, each goes on
    to read slot [_ntime] of its series. *)
Theorem accessors_let_index_ntime_through (this : HistDataMD D)
  (e : Exception) :
  getVel this (_ntime this) <> Throw e /\
  getEkin this (_ntime this) <> Throw e /\
  getTemperature this (_ntime this) <> Throw e /\
  getPressure this (_ntime this) <> Throw e /\
  getEkin this (_ntime this) = vget (_ekin this) (_ntime this).
Proof.
  unfold getVel, getEkin, getTemperature, getPressure.
  rewrite Z.ltb_irrefl.
  repeat split; try apply vget_never_throws.
  destruct (vget (_velocities this) (u32 (_ntime this * 3 * _natom this)))
    eqn:Hv; simpl; try discriminate.
  exfalso. exact (vget_never_throws _ _ _ Hv).
Qed.

(** ** The thermodynamics engine on a frame window *)

Lemma slice_never_throws {A : Type} (v : list A) (b e : Z) (x : Exception) :
  slice v b e <> Throw x.
Proof.
  unfold slice. destruct ((0 <=? b)%Z && (b <=? e)%Z && (e <=? size v)%Z);
    discriminate.
Qed.

Lemma trapezoid_empty (domega : D) (n : Z) :
  0 < n -> trapezoid [] domega n = Undefined.
Proof.
  intros Hn. unfold trapezoid. rewrite for_loop_first by exact Hn.
  reflexivity.
Qed.

Lemma cutoff_empty (omegaMax domega : D) (nmax : Z) :
  cutoff omegaMax domega 0 = Ok nmax -> nmax = 0%Z.
Proof.
  unfold cutoff. destruct (omegaMax <? d0)%dbl.
  - intros [= <-]. reflexivity.
  - destruct (Z.leb_spec 0 (d_to_Z (omegaMax / domega)%dbl)); simpl;
      [|discriminate].
    destruct (_ <=? UINT_MAX)%Z; [|discriminate].
    intros [= <-]. lia.
Qed.

(** On the empty PDOS the count of bins is 0 and the bound [nmax-1] of the
    loops wraps to [UINT_MAX]: the first read is outside the vector. *)
Lemma computeThermoFunctionHA_empty (this : HistDataMD D) (T omegaMax : D) :
  computeThermoFunctionHA this [] T omegaMax = Undefined.
Proof.
  unfold computeThermoFunctionHA, bin_width.
  destruct (dtion_ps this) as [dtion| |] eqn:Hdt; simpl; try reflexivity.
  - destruct (cutoff omegaMax _ (u32 (size []))) as [nmax| |] eqn:Hc;
      simpl; try reflexivity.
    + apply cutoff_empty in Hc. subst nmax.
      rewrite trapezoid_empty; [reflexivity|]. reflexivity.
    + exfalso. revert Hc. unfold cutoff.
      destruct (omegaMax <? d0)%dbl; [discriminate|].
      destruct ((0 <=? _)%Z && (_ <=? UINT_MAX)%Z); discriminate.
  - exfalso. revert Hdt. unfold dtion_ps.
    destruct (1 <? size (_time this))%Z; [|discriminate].
    destruct (vget (_time this) 1) eqn:H1; simpl; try discriminate.
    + destruct (vget (_time this) 0) eqn:H2; simpl; try discriminate.
      exfalso. exact (vget_never_throws _ _ _ H2).
    + exfalso. exact (vget_never_throws _ _ _ H1).
Qed.

(** C2, on any window whose PDOS computation fails.  The handler of the
    second [try] annotates the exception and ends without [throw e], as the
    first handler and [getVACF] do: the failure does not reach the caller.
    The function goes on with an empty PDOS and reads outside of it. *)
Theorem thermo_window_swallows_pdos_failure (this : HistDataMD D)
  (tbegin tend : Z) (omegaMax : D) (e : Exception) :
  HistData_checkTimes this tbegin tend = Ok tt ->
  getPDOS this tbegin tend d0 = Throw e ->
  computeThermoFunctionHA_window this tbegin tend omegaMax = Undefined /\
  forall e', computeThermoFunctionHA_window this tbegin tend omegaMax
             <> Throw e'.
Proof.
  intros Hcheck Hpdos.
  assert (Hrun : computeThermoFunctionHA_window this tbegin tend omegaMax
                 = Undefined).
  { unfold computeThermoFunctionHA_window.
    rewrite Hcheck, Hpdos. simpl.
    destruct (slice (_temperature this) tbegin tend) as [w| |] eqn:Hs;
      simpl; try reflexivity.
    - rewrite computeThermoFunctionHA_empty. reflexivity.
    - exfalso. exact (slice_never_throws _ _ _ _ Hs). }
  split; [exact Hrun|]. intros e'. rewrite Hrun. discriminate.
Qed.

End Properties.

(** A platform built without FFTW: every PDOS computation fails. *)
Lemma thermo_window_swallows_pdos_failure_witness :
  exists e,
    getPDOS (env := Examples.platform Undefined)
      (Examples.store 1 3 (Examples.q 1) false) 0 3 0%Qc = Throw e /\
    computeThermoFunctionHA_window (env := Examples.platform Undefined)
      (Examples.store 1 3 (Examples.q 1) false) 0 3 (Examples.q (-1))
    = Undefined.
Proof.
  eexists. split; [reflexivity|].
  eapply (thermo_window_swallows_pdos_failure
            (env := Examples.platform Undefined)); reflexivity.
Defined.

(** ** Merge *)

Section MergeProperties.
Context {D : Type} {arith : Double D} {env : Platform D}.

(** The position of a component inside a block of frames. *)
Lemma position_bound (natom hn t a c : Z) :
  0 <= t < hn -> 0 <= a < natom -> 0 <= c < 3 ->
  0 <= t * 3 * natom + a * 3 + c < 3 * natom * hn.
Proof. intros Ht Ha Hc. nia. Qed.

Lemma position_inj (natom t a c t' a' c' : Z) :
  0 <= a < natom -> 0 <= c < 3 -> 0 <= a' < natom -> 0 <= c' < 3 ->
  t * 3 * natom + a * 3 + c = t' * 3 * natom + a' * 3 + c' ->
  t = t' /\ a = a' /\ c = c'.
Proof.
  intros Ha Hc Ha' Hc' Heq.
  assert (Hu : t * natom + a = t' * natom + a' /\ c = c') by lia.
  destruct Hu as [Hu ->].
  assert (t = t') by nia. subst t'. lia.
Qed.

Lemma valid_order_get (natom : Z) (order : list Z) (a : Z) :
  valid_order natom order -> 0 <= a < natom ->
  exists o, vget order a = Ok o /\ 0 <= o < natom.
Proof.
  intros [Hsize Hall] Ha.
  destruct (vget_in_range order a) as (o & Ho); [lia|].
  exists o. split; [exact Ho|].
  apply vget_Some in Ho. destruct Ho as [_ Ho].
  apply nth_error_In in Ho. rewrite Forall_forall in Hall. auto.
Qed.

Lemma copy_reordered_spec (order : list Z) (natom hn start : Z)
  (hvel vel : list D) :
  0 <= natom -> 0 <= hn -> 0 <= start ->
  valid_order natom order ->
  3 * natom * hn <= size hvel ->
  start + 3 * natom * hn <= size vel ->
  start + 3 * natom * hn < 2 ^ 32 ->
  exists v, copy_reordered order natom hn start hvel vel = Ok v /\
            reordered_upto order natom hn start hvel vel (3 * natom * hn) v.
Proof.
  intros Hnatom Hhn Hstart Horder Hhvel Hvel Hrep.
  unfold copy_reordered.
  pose (Inv := reordered_upto order natom hn start hvel vel).
  destruct (for_loop_invariant (fun t v => Inv (t * 3 * natom) v)
              (fun itime v =>
                 for_loop (Z.to_nat natom) 0 (fun iatom v =>
                   for_loop 3 0 (fun coord v =>
                     o <- vget order iatom ;;
                     x <- vget hvel (u32 (itime * 3 * natom + o * 3 + coord)) ;;
                     vset v (u32 (start + itime * 3 * natom + iatom * 3 + coord)) x)
                     v) v)
              0 (Z.to_nat hn) vel) as (v & Hv & HI).
  - (* nothing written yet *)
    split; [reflexivity|]. split; [reflexivity|].
    intros t a c o Ht Ha Hc HL. nia.
  - intros t v0. rewrite Z2Nat.id by lia. intros Ht HIt.
    destruct (for_loop_invariant
                (fun a v => Inv (t * 3 * natom + a * 3) v)
                (fun iatom v =>
                   for_loop 3 0 (fun coord v =>
                     o <- vget order iatom ;;
                     x <- vget hvel (u32 (t * 3 * natom + o * 3 + coord)) ;;
                     vset v (u32 (start + t * 3 * natom + iatom * 3 + coord)) x)
                     v)
                0 (Z.to_nat natom) v0) as (v1 & Hv1 & HI1).
    + replace (t * 3 * natom + 0 * 3) with (t * 3 * natom) by lia. exact HIt.
    + intros a v2. rewrite Z2Nat.id by lia. intros Ha HIa.
      destruct (for_loop_invariant
                  (fun c v => Inv (t * 3 * natom + a * 3 + c) v)
                  (fun coord v =>
                     o <- vget order a ;;
                     x <- vget hvel (u32 (t * 3 * natom + o * 3 + coord)) ;;
                     vset v (u32 (start + t * 3 * natom + a * 3 + coord)) x)
                  0 3 v2) as (v3 & Hv3 & HI3).
      * rewrite Z.add_0_r. exact HIa.
      * intros c v4 Hc HIc. simpl in Hc.
        destruct (valid_order_get natom order a Horder) as (o & Ho & Hon);
          [lia|].
        pose proof (position_bound natom hn t o c) as Hsrc.
        pose proof (position_bound natom hn t a c) as Hdst.
        rewrite Ho. simpl.
        rewrite u32_small by lia.
        destruct (vget_in_range hvel (t * 3 * natom + o * 3 + c))
          as (x & Hx); [lia|].
        rewrite Hx. simpl.
        rewrite u32_small by lia.
        destruct HIc as (Hlen & Hlow & Hdone).
        rewrite vset_Ok by (unfold size in *; lia).
        eexists. split; [reflexivity|].
        split; [rewrite length_update; exact Hlen|].
        split.
        -- intros j Hj. rewrite nth_error_update_neq by lia. apply Hlow, Hj.
        -- intros t' a' c' o' Ht' Ha' Hc' HL Ho'.
           destruct (Z.eq_dec (t' * 3 * natom + a' * 3 + c')
                       (t * 3 * natom + a * 3 + c)) as [Heq|Hne].
           ++ apply position_inj in Heq; try lia.
              destruct Heq as (-> & -> & ->).
              rewrite Ho in Ho'. injection Ho' as <-.
              replace (start + (t * 3 * natom + a * 3 + c))
                with (start + t * 3 * natom + a * 3 + c) by lia.
              rewrite nth_error_update_eq by (unfold size in *; lia).
              apply vget_Some in Hx. symmetry. apply Hx.
           ++ rewrite nth_error_update_neq by lia.
              apply Hdone; try assumption. lia.
      * exists v3. split; [exact Hv3|].
        replace (t * 3 * natom + (a + 1) * 3)
          with (t * 3 * natom + a * 3 + (0 + Z.of_nat 3)) by lia.
        exact HI3.
    + exists v1. split; [exact Hv1|].
      replace ((t + 1) * 3 * natom)
        with (t * 3 * natom + (0 + Z.of_nat (Z.to_nat natom)) * 3) by lia.
      exact HI1.
  - exists v. split; [exact Hv|].
    replace (3 * natom * hn) with ((0 + Z.of_nat (Z.to_nat hn)) * 3 * natom)
      by lia.
    exact HI.
Qed.


Lemma resize_extend {A : Type} (zero : A) (n m : Z) (v : list A) :
  size v = n -> 0 <= m ->
  resize zero (n + m) v = v ++ repeat zero (Z.to_nat m).
Proof.
  unfold size. intros Hn Hm. rewrite resize_grow by lia.
  f_equal. f_equal. lia.
Qed.

Lemma append_by_copy {A : Type} (zero : A) (n m : Z) (src v : list A) :
  size v = n -> size src = m ->
  std_copy src (resize zero (n + m) v) n = Ok (v ++ src).
Proof.
  intros Hn Hm. rewrite resize_extend by (unfold size in *; lia).
  rewrite <- Hn. apply std_copy_append.
  rewrite repeat_length. unfold size in Hm. lia.
Qed.

Lemma copy_over_pad {A : Type} (n : Z) (src v pad : list A) :
  size v = n -> length pad = length src ->
  std_copy src (v ++ pad) n = Ok (v ++ src).
Proof. intros <- Hp. apply std_copy_append. exact Hp. Qed.

Lemma copy_again {A : Type} (n : Z) (src v : list A) :
  size v = n -> std_copy src (v ++ src) n = Ok (v ++ src).
Proof. intros <-. apply std_copy_append. reflexivity. Qed.

Lemma empty_false (v : list D) : 0 < size v -> empty v = false.
Proof. destruct v; [unfold size; simpl; lia | reflexivity]. Qed.

Lemma with_velocities_same (hist : HistDataMD D) :
  with_velocities hist (_velocities hist) = hist.
Proof. destruct hist. reflexivity. Qed.

Lemma merge_unfold (this hist : HistDataMD D) :
  mergeable this hist ->
  operator_plus_assign this hist =
  (out1 <- check_dtion this hist ;;
   ' (order, reorder) <- map_structures (HistData_plus_assign this hist) hist ;;
   vel2 <- (if negb reorder then Ok (_velocities this ++ _velocities hist)
            else copy_reordered order (_natom this) (_ntime hist)
                   (3 * _natom this * _ntime this) (_velocities hist)
                   (_velocities this
                    ++ repeat d0 (Z.to_nat (3 * _natom this * _ntime hist)))) ;;
   Ok ({| base := HistData_plus_assign this hist;
          _ekin := _ekin this ++ _ekin hist;
          _velocities := vel2;
          _temperature := _temperature this ++ _temperature hist;
          _pressure := _pressure this ++ _pressure hist;
          _entropy := _entropy this ++ repeat d0 (Z.to_nat (_ntime hist)) |},
       hist,
       out1 ++ check_mean warn_temperature (_temperature this)
                 (_temperature hist)
            ++ check_mean warn_pressure (_pressure this) (_pressure hist))).
Proof.
  intros (Hs & Hh & Hv & Hhv & Hnatom & Hrep).
  destruct Hs as (Hn0 & Htime & Hekin & Htemp & Hpress & Hentr).
  destruct Hh as (Hhn0 & Hhtime & Hhekin & Hhtemp & Hhpress & Hhentr).
  destruct Hv as (Hna & Hnt & Hvel).
  destruct Hhv as (_ & Hhnt & Hhvel).
  assert (Hsum : 0 <= _ntime this + _ntime hist < 2 ^ 32) by nia.
  unfold operator_plus_assign. cbv zeta.
  rewrite Htemp, (u32_small (_ntime this)) by lia.
  rewrite Z.eqb_refl.
  change (_ntime (HistData_plus_assign this hist))
    with (u32 (_ntime this + _ntime hist)).
  change (_natom (HistData_plus_assign this hist)) with (_natom this).
  rewrite (u32_small (_ntime this + _ntime hist)) by lia.
  rewrite (empty_false (_velocities this)) by nia.
  rewrite (empty_false (_velocities hist)) by nia.
  cbn [xorb andb orb negb].
  rewrite !(append_by_copy d0 (_ntime this) (_ntime hist)) by assumption.
  cbn [bind].
  rewrite (copy_again (_ntime this)) by assumption.
  rewrite (resize_extend d0 (_ntime this) (_ntime hist)) by assumption.
  unfold _xyz.
  rewrite (u32_small (_ntime this * _natom this * 3)) by nia.
  rewrite (u32_small ((_ntime this + _ntime hist) * _natom this * 3)) by nia.
  replace ((_ntime this + _ntime hist) * _natom this * 3)
    with (3 * _natom this * _ntime this + 3 * _natom this * _ntime hist)
    by lia.
  replace (_ntime this * _natom this * 3) with (3 * _natom this * _ntime this)
    by lia.
  rewrite (resize_extend d0 (3 * _natom this * _ntime this)) by (auto; nia).
  rewrite (empty_false (_velocities this)) by nia.
  rewrite (empty_false (_velocities hist)) by nia.
  cbn [orb negb bind].
  rewrite (copy_over_pad (3 * _natom this * _ntime this))
    by (try rewrite repeat_length; unfold size in *; nia).
  rewrite with_velocities_same.
  reflexivity.
Qed.


Lemma differs_from_identity (order : list Z) (i : nat) :
  differs_from (Z.of_nat i) order = false <->
  order = map Z.of_nat (seq i (length order)).
Proof.
  revert i; induction order as [|o rest IH]; intros i; simpl.
  - split; reflexivity.
  - destruct (Z.eqb_spec (Z.of_nat i) o) as [Heq|Hne]; simpl.
    + replace (Z.of_nat i + 1) with (Z.of_nat (S i)) by lia.
      rewrite IH. subst o. split.
      * intros ->. rewrite length_map, length_seq. reflexivity.
      * intros [= Hrest]. exact Hrest.
    + split; [discriminate|]. intros [= Ho _]. congruence.
Qed.

Lemma map_structures_spec (this hist : HistData D) (order : list Z)
  (reorder : bool) :
  map_structures this hist = Ok (order, reorder) ->
  (reorder = true <->
   _tryToMap this = true /\ HistData_reorder this hist = Ok order /\
   order <> identity_order (length order)).
Proof.
  unfold map_structures. destruct (_tryToMap this).
  - destruct (HistData_reorder this hist) as [o|e|]; try discriminate.
    + intros [= <- <-]. split.
      * intros Hd. repeat split. intros Hid.
        apply (differs_from_identity o 0) in Hid. simpl in Hid. congruence.
      * intros (_ & _ & Hid).
        destruct (differs_from 0 o) eqn:Hd; [reflexivity|].
        exfalso. apply Hid. apply (differs_from_identity o 0). exact Hd.
    + intros [= <- <-]. split; [discriminate|]. intros (_ & [=] & _).
  - intros [= <- <-]. split; [discriminate|]. intros ([=] & _).
Qed.

Lemma check_dtion_spec (this hist : HistDataMD D) :
  series_filled this -> series_filled hist ->
  exists out1, check_dtion this hist = Ok out1 /\
    (In warn_dtion out1 <->
     1 < _ntime this /\ 1 < _ntime hist /\
     exists dt1 dt2, frame_spacing this = Some dt1 /\
                     frame_spacing hist = Some dt2 /\
                     (dabs (dt1 - dt2) >? d_lit (1 # 1000000))%dbl = true).
Proof.
  intros (_ & Htime & _) (_ & Hhtime & _).
  unfold check_dtion, frame_spacing.
  destruct (Z.ltb_spec 1 (_ntime this)) as [Hn|Hn];
    [destruct (Z.ltb_spec 1 (_ntime hist)) as [Hh|Hh]|]; simpl.
  - destruct (_time this) as [|t0 [|t1 r]];
      try (unfold size in Htime; simpl in Htime; lia).
    destruct (_time hist) as [|h0 [|h1 r']];
      try (unfold size in Hhtime; simpl in Hhtime; lia).
    simpl. eexists. split; [reflexivity|].
    destruct (dltb _ (dabs _)) eqn:Htest; split.
    + intros _. repeat split; try assumption.
      do 2 eexists. repeat split. exact Htest.
    + intros _. left. reflexivity.
    + intros [].
    + intros (_ & _ & dt1 & dt2 & [= <-] & [= <-] & Ht). congruence.
  - eexists. split; [reflexivity|]. split; [intros [] | intros (_ & ? & _); lia].
  - eexists. split; [reflexivity|]. split; [intros [] | intros (? & _); lia].
Qed.


Lemma merge_result (this hist : HistDataMD D) :
  mergeable this hist -> order_usable this hist ->
  exists out1 order reorder vel2,
    check_dtion this hist = Ok out1 /\
    map_structures (HistData_plus_assign this hist) hist
      = Ok (order, reorder) /\
    (reorder = false -> vel2 = _velocities this ++ _velocities hist) /\
    (reorder = true ->
     reordered_upto order (_natom this) (_ntime hist)
       (3 * _natom this * _ntime this) (_velocities hist)
       (_velocities this
        ++ repeat d0 (Z.to_nat (3 * _natom this * _ntime hist)))
       (3 * _natom this * _ntime hist) vel2) /\
    operator_plus_assign this hist =
    Ok ({| base := HistData_plus_assign this hist;
           _ekin := _ekin this ++ _ekin hist;
           _velocities := vel2;
           _temperature := _temperature this ++ _temperature hist;
           _pressure := _pressure this ++ _pressure hist;
           _entropy := _entropy this ++ repeat d0 (Z.to_nat (_ntime hist)) |},
        hist,
        out1 ++ check_mean warn_temperature (_temperature this)
                  (_temperature hist)
             ++ check_mean warn_pressure (_pressure this) (_pressure hist)).
Proof.
  intros Hm Hu. rewrite (merge_unfold this hist Hm).
  pose proof Hm as (Hs & Hh & Hv & Hhv & Hnatom & Hrep).
  destruct (check_dtion_spec this hist Hs Hh) as (out1 & Hout1 & _).
  destruct Hv as (Hna & Hnt & Hvel). destruct Hhv as (_ & Hhnt & Hhvel).
  assert (Hmap : exists order reorder,
             map_structures (HistData_plus_assign this hist) hist
               = Ok (order, reorder) /\
             (reorder = true -> valid_order (_natom this) order)).
  { unfold order_usable in Hu. unfold map_structures.
    change (_tryToMap (HistData_plus_assign this hist))
      with (_tryToMap this).
    destruct (_tryToMap this).
    - specialize (Hu eq_refl).
      destruct (HistData_reorder _ _) as [order|e|]; [| |contradiction].
      + exists order, (differs_from 0 order). split; [reflexivity|].
        intros Hd. apply Hu. intros Hid.
        apply (differs_from_identity order 0) in Hid. simpl in Hid.
        congruence.
      + exists [], false. split; [reflexivity | discriminate].
    - exists [], false. split; [reflexivity | discriminate]. }
  destruct Hmap as (order & reorder & Hmap & Hvalid).
  rewrite Hout1, Hmap. cbn [bind].
  exists out1, order, reorder.
  destruct reorder; cbn [negb].
  - destruct (copy_reordered_spec order (_natom this) (_ntime hist)
                (3 * _natom this * _ntime this) (_velocities hist)
                (_velocities this
                 ++ repeat d0 (Z.to_nat (3 * _natom this * _ntime hist))))
      as (v & Hv & Hspec).
    + lia.
    + lia.
    + nia.
    + auto.
    + rewrite Hhvel, Hnatom. lia.
    + unfold size in *. rewrite length_app, repeat_length. nia.
    + nia.
    + exists v. rewrite Hv. cbn [bind].
      repeat split; auto; try discriminate; apply Hspec.
  - exists (_velocities this ++ _velocities hist). cbn [bind].
    repeat split; auto; discriminate.
Qed.


Lemma warn_dtion_not_in_check_mean (what : Exception) (a b : list D) :
  what <> warn_dtion -> ~ In warn_dtion (check_mean what a b).
Proof.
  intros Hw. unfold check_mean. cbv zeta.
  destruct (dltb _ _); simpl; [|tauto].
  intros [Heq|[]]. congruence.
Qed.

(** C1, for every merge of two filled stores.  Kinetic energy, temperature
    and pressure become the concatenation of both segments, the velocities
    keep the base frames and grow by the appended ones, the frame count is
    the sum.  The entropy series is resized as well, but the statement
    after the resize copies [hist._ekin] into [_ekin] a second time: the
    appended entropy is never written, the new slots stay at zero. *)
Theorem merge_appends_series_but_not_entropy (this hist : HistDataMD D) :
  mergeable this hist -> order_usable this hist ->
  exists r out,
    operator_plus_assign this hist = Ok (r, hist, out) /\
    _ntime r = _ntime this + _ntime hist /\
    _ekin r = _ekin this ++ _ekin hist /\
    _temperature r = _temperature this ++ _temperature hist /\
    _pressure r = _pressure this ++ _pressure hist /\
    length (_velocities r)
      = (length (_velocities this) + length (_velocities hist))%nat /\
    (forall j, (j < length (_velocities this))%nat ->
       nth_error (_velocities r) j = nth_error (_velocities this) j) /\
    _entropy r = _entropy this ++ repeat d0 (Z.to_nat (_ntime hist)) /\
    (Exists (fun x => x <> d0) (_entropy hist) ->
     _entropy r <> _entropy this ++ _entropy hist).
Proof.
  intros Hm Hu.
  destruct (merge_result this hist Hm Hu)
    as (out1 & order & reorder & vel2 & _ & _ & Hdirect & Hperm & Hrun).
  destruct Hm as (Hs & Hh & (Hna & Hnt & Hvel) & (_ & Hhnt & Hhvel)
                  & Hnatom & Hrep).
  eexists. eexists. split; [exact Hrun|]. cbn.
  split; [apply u32_small; destruct Hs, Hh; nia|].
  do 3 (split; [reflexivity|]).
  assert (Hpad : length (repeat d0 (Z.to_nat (3 * _natom this * _ntime hist)))
                 = length (_velocities hist)).
  { rewrite repeat_length. unfold size in Hhvel. rewrite Hnatom in Hhvel.
    lia. }
  split; [|split; [|split; [reflexivity|]]].
  - destruct reorder.
    + destruct (Hperm eq_refl) as (Hlen & _).
      rewrite Hlen, length_app, Hpad. reflexivity.
    + rewrite (Hdirect eq_refl), length_app. reflexivity.
  - intros j Hj. destruct reorder.
    + destruct (Hperm eq_refl) as (_ & Hlow & _).
      rewrite Hlow by (unfold size in Hvel; lia).
      apply nth_error_app1. exact Hj.
    + rewrite (Hdirect eq_refl). apply nth_error_app1. exact Hj.
  - intros Hex Heq. apply app_inv_head in Heq.
    apply Exists_exists in Hex. destruct Hex as (x & Hin & Hx).
    rewrite <- Heq in Hin. apply repeat_spec in Hin. contradiction.
Qed.

(** C5, amended.  When both segments have at least two frames the merge
    is produced and the warning on [dtion] is printed exactly when the
    absolute difference of the two frame spacings exceeds 1e-6. *)
Theorem dtion_warning_iff_absolute_mismatch (this hist : HistDataMD D) :
  mergeable this hist -> order_usable this hist ->
  2 <= _ntime this -> 2 <= _ntime hist ->
  exists dt1 dt2 r out,
    frame_spacing this = Some dt1 /\
    frame_spacing hist = Some dt2 /\
    operator_plus_assign this hist = Ok (r, hist, out) /\
    (In warn_dtion out <->
     (dabs (dt1 - dt2) >? d_lit (1 # 1000000))%dbl = true).
Proof.
  intros Hm Hu Hn Hh.
  destruct (merge_result this hist Hm Hu)
    as (out1 & order & reorder & vel2 & Hout1 & _ & _ & _ & Hrun).
  destruct Hm as (Hs & Hhs & _).
  destruct (check_dtion_spec this hist Hs Hhs) as (out1' & Hout1' & Hiff).
  rewrite Hout1 in Hout1'. injection Hout1' as <-.
  assert (Hdt1 : exists dt1, frame_spacing this = Some dt1).
  { destruct Hs as (_ & Htime & _). unfold frame_spacing.
    destruct (_time this) as [|t0 [|t1 rest]];
      try (unfold size in Htime; simpl in Htime; lia).
    eexists. reflexivity. }
  assert (Hdt2 : exists dt2, frame_spacing hist = Some dt2).
  { destruct Hhs as (_ & Htime & _). unfold frame_spacing.
    destruct (_time hist) as [|t0 [|t1 rest]];
      try (unfold size in Htime; simpl in Htime; lia).
    eexists. reflexivity. }
  destruct Hdt1 as (dt1 & Hdt1). destruct Hdt2 as (dt2 & Hdt2).
  exists dt1, dt2. eexists. eexists.
  split; [exact Hdt1|]. split; [exact Hdt2|]. split; [exact Hrun|].
  rewrite !in_app_iff. split.
  - intros [Hin|[Hin|Hin]].
    + apply Hiff in Hin. destruct Hin as (_ & _ & a & b & Ha & Hb & Htest).
      congruence.
    + exfalso. revert Hin. apply warn_dtion_not_in_check_mean. discriminate.
    + exfalso. revert Hin. apply warn_dtion_not_in_check_mean. discriminate.
  - intros Htest. left. apply Hiff. repeat split; try lia.
    exists dt1, dt2. auto.
Qed.

(** C6.  When the mapping is requested and the order found is not the
    identity, component [coord] of atom [iatom] in appended frame [itime]
    of the result is the appended store's component [coord] of atom
    [order[iatom]] in that frame; when the mapping is not requested, the
    order is the identity or the matching fails, the appended velocities
    follow the base ones unchanged. *)
Theorem merge_copies_velocities_through_order (this hist : HistDataMD D) :
  mergeable this hist -> order_usable this hist ->
  exists r out,
    operator_plus_assign this hist = Ok (r, hist, out) /\
    (forall order,
       _tryToMap this = true ->
       HistData_reorder (HistData_plus_assign this hist) hist = Ok order ->
       order <> identity_order (length order) ->
       forall itime iatom coord o,
         0 <= itime < _ntime hist -> 0 <= iatom < _natom this ->
         0 <= coord < 3 -> vget order iatom = Ok o ->
         velocity (_velocities r) (_natom this) (_ntime this + itime)
           iatom coord
         = velocity (_velocities hist) (_natom this) itime o coord) /\
    (_tryToMap this = false \/
     (exists order,
        HistData_reorder (HistData_plus_assign this hist) hist = Ok order /\
        order = identity_order (length order)) \/
     (exists e,
        HistData_reorder (HistData_plus_assign this hist) hist = Throw e) ->
     _velocities r = _velocities this ++ _velocities hist).
Proof.
  intros Hm Hu.
  destruct (merge_result this hist Hm Hu)
    as (out1 & order & reorder & vel2 & _ & Hmap & Hdirect & Hperm & Hrun).
  eexists. eexists. split; [exact Hrun|]. cbn [_velocities].
  pose proof (map_structures_spec _ _ _ _ Hmap) as Hflag.
  change (_tryToMap (HistData_plus_assign this hist))
    with (_tryToMap this) in Hflag.
  split.
  - intros order' Htry Horder Hnid itime iatom coord o Hi Ha Hc Ho.
    assert (Hre : reorder = true /\ order' = order).
    { unfold map_structures in Hmap.
      change (_tryToMap (HistData_plus_assign this hist))
        with (_tryToMap this) in Hmap.
      rewrite Htry, Horder in Hmap. injection Hmap as <- <-.
      split; [|reflexivity].
      destruct (differs_from 0 order') eqn:Hd; [reflexivity|].
      exfalso. apply Hnid. apply (differs_from_identity order' 0). exact Hd. }
    destruct Hre as (-> & ->).
    destruct (Hperm eq_refl) as (_ & _ & Hcopy).
    unfold velocity.
    rewrite <- (Hcopy itime iatom coord o Hi Ha Hc); [|nia|exact Ho].
    f_equal. f_equal. lia.
  - intros Hcase. apply Hdirect.
    destruct reorder; [|reflexivity]. exfalso.
    destruct Hflag as [Hflag _].
    destruct (Hflag eq_refl) as (Htry & Horder & Hnid).
    destruct Hcase as [Hoff|[(order' & Ho' & Hid)|(e & He)]];
      congruence.
Qed.

End MergeProperties.

(** *** The merge on concrete stores *)

Ltac concrete :=
  repeat split; vm_compute;
  try reflexivity; try discriminate; try (intros; discriminate).

Lemma two_and_three_frames_mergeable :
  mergeable Examples.two_frames Examples.three_frames /\
  order_usable (env := Examples.swapping) Examples.two_frames
    Examples.three_frames.
Proof.
  split; [concrete|].
  intros _. vm_compute. intros _. split; [reflexivity|].
  repeat constructor; discriminate.
Qed.

Lemma merge_appends_series_but_not_entropy_witness :
  exists r out,
    operator_plus_assign (env := Examples.swapping) Examples.two_frames
      Examples.three_frames = Ok (r, Examples.three_frames, out) /\
    _entropy r = _entropy Examples.two_frames ++ repeat 0%Qc 3.
Proof.
  destruct two_and_three_frames_mergeable as (Hm & Hu).
  destruct (merge_appends_series_but_not_entropy (env := Examples.swapping)
              Examples.two_frames Examples.three_frames Hm Hu)
    as (r & out & Hrun & _ & _ & _ & _ & _ & _ & Hentropy & _).
  exists r, out. split; [exact Hrun | exact Hentropy].
Defined.

Lemma merge_copies_velocities_through_order_witness :
  exists r out,
    operator_plus_assign (env := Examples.swapping) Examples.two_frames
      Examples.three_frames = Ok (r, Examples.three_frames, out) /\
    velocity (_velocities r) 2 (2 + 0) 0 0
    = velocity (_velocities Examples.three_frames) 2 0 1 0.
Proof.
  destruct two_and_three_frames_mergeable as (Hm & Hu).
  destruct (merge_copies_velocities_through_order (env := Examples.swapping)
              Examples.two_frames Examples.three_frames Hm Hu)
    as (r & out & Hrun & Hperm & _).
  exists r, out. split; [exact Hrun|].
  apply (Hperm [1; 0]); concrete.
Defined.

Lemma dtion_warning_iff_absolute_mismatch_witness :
  exists dt1 dt2 r out,
    frame_spacing Examples.two_frames = Some dt1 /\
    frame_spacing Examples.three_frames = Some dt2 /\
    operator_plus_assign (env := Examples.swapping) Examples.two_frames
      Examples.three_frames = Ok (r, Examples.three_frames, out) /\
    (In warn_dtion out <->
     (dabs (dt1 - dt2) >? d_lit (1 # 1000000))%dbl = true).
Proof.
  destruct two_and_three_frames_mergeable as (Hm & Hu).
  apply (dtion_warning_iff_absolute_mismatch (env := Examples.swapping)
           Examples.two_frames Examples.three_frames Hm Hu); concrete.
Defined.

(** C5 as stated fails: the spacings 1000 and 1000.0005 differ by 5e-7 in
    relative terms, whichever of the two is the reference, and the merge
    prints the warning all the same. *)
Lemma dtion_warning_despite_small_relative_mismatch :
  exists dt1 dt2 r out,
    frame_spacing Examples.spaced_1000 = Some dt1 /\
    frame_spacing Examples.spaced_1000_0005 = Some dt2 /\
    operator_plus_assign (env := Examples.swapping) Examples.spaced_1000
      Examples.spaced_1000_0005 = Ok (r, Examples.spaced_1000_0005, out) /\
    In warn_dtion out /\
    (relative_mismatch dt1 dt2 >? d_lit (1 # 1000000))%dbl = false /\
    (relative_mismatch dt2 dt1 >? d_lit (1 # 1000000))%dbl = false.
Proof.
  do 4 eexists.
  split; [vm_compute; reflexivity|].
  split; [vm_compute; reflexivity|].
  split; [vm_compute; reflexivity|].
  split; [left; reflexivity|].
  split; vm_compute; reflexivity.
Qed.

(** ** Interpolation *)

Section InterpolationProperties.
Context {D : Type} {arith : Double D} {env : Platform D}.

Lemma stride_inj (s a d b d' : Z) :
  0 <= d < s -> 0 <= d' < s -> s * a + d = s * b + d' -> a = b /\ d = d'.
Proof.
  intros Hd Hd' Heq. assert (a = b) by nia. subst b. lia.
Qed.

Lemma slot_update_eq (x : list D) (p : Z) (v : D) :
  0 <= p < size x -> slot (update (Z.to_nat p) v x) p = Some v.
Proof.
  intros Hp. unfold slot. apply nth_error_update_eq. unfold size in Hp. lia.
Qed.

Lemma slot_update_neq (x : list D) (p q : Z) (v : D) :
  0 <= p -> 0 <= q -> p <> q -> slot (update (Z.to_nat p) v x) q = slot x q.
Proof.
  intros Hp Hq Hne. unfold slot. apply nth_error_update_neq. lia.
Qed.

Lemma write_values (alpha : D) (s m T L t d : Z) (xi x : list D) (l f : D) :
  1 <= s -> 1 <= m -> 1 <= L < T -> 0 <= t <= m -> 0 <= d < s ->
  blend_returns_ends alpha (m + 1) l f ->
  slot xi (s * L + d) = Some l ->
  slot x (s * (L - 1) + d) = Some f ->
  s * (m * L - t) + d < size x ->
  series_values s m T L xi t d x ->
  series_values s m T L xi t (d + 1)
    (update (Z.to_nat (s * (m * L - t) + d)) (blend alpha t l f) x).
Proof.
  intros Hs Hm HL Ht Hd [Hb0 Hb1] Hl Hf Hp (Hlow & Hgrid & Hupto).
  replace (m + 1 - 1) with m in Hb1 by lia.
  assert (HmL : m * L >= m) by nia.
  assert (Hfr : 0 <= m * L - t) by lia.
  assert (Hp0 : 0 <= s * (m * L - t) + d) by nia.
  split; [|split].
  - intros j d' Hj Hd'.
    destruct (Z.eq_dec (s * (m * L - t) + d) (s * j + d')) as [Heq|Hne].
    + apply stride_inj in Heq; [|lia|lia]. destruct Heq as [Hjeq <-].
      assert (Hmm : m * (L - 1) >= L - 1) by nia.
      assert (t = m) by nia. subst t.
      assert (j = L - 1) by nia. subst j.
      replace (m * L - m) with (L - 1) by lia.
      rewrite slot_update_eq
        by (split; [nia|]; replace (L - 1) with (m * L - m) by lia; exact Hp).
      rewrite Hb1. rewrite <- Hf. apply Hlow; lia.
    + rewrite slot_update_neq by (try nia; assumption). apply Hlow; assumption.
  - intros j d' Hj Hd'.
    rewrite slot_update_neq; [apply Hgrid; assumption|nia|nia|].
    intros Heq. apply stride_inj in Heq; [|lia|lia]. nia.
  - intros d' Hd'.
    destruct (Z.eqb_spec t 0) as [->|Ht0].
    + destruct (Z.eq_dec d' d) as [->|Hdd].
      * replace (s * (m * L - 0) + d) with (s * (m * L) + d) by lia.
        rewrite slot_update_eq by (split; [nia|]; lia).
        rewrite Hb0. symmetry. exact Hl.
      * rewrite slot_update_neq; [apply Hupto; lia|nia|nia|].
        intros Heq. apply stride_inj in Heq; [|lia|lia]. lia.
    + rewrite slot_update_neq; [apply Hupto; lia|nia|nia|].
      intros Heq. apply stride_inj in Heq; [|lia|lia]. nia.
Qed.


Lemma series_values_next (s m T L t : Z) (xi x : list D) :
  0 <= t -> series_values s m T L xi t s x ->
  series_values s m T L xi (t + 1) 0 x.
Proof.
  intros Ht (Hlow & Hgrid & Hupto). repeat split; try assumption.
  destruct (Z.eqb_spec (t + 1) 0); [lia|].
  destruct (t =? 0); exact Hupto.
Qed.

Lemma series_ok_next (exact : Prop) (s m T L t : Z) (xi x : list D) :
  0 <= t -> series_ok exact s m T L xi t s x ->
  series_ok exact s m T L xi (t + 1) 0 x.
Proof.
  intros Ht (Hlen & Hval). split; [exact Hlen|].
  intros He. apply series_values_next; auto.
Qed.

Lemma blend_scalar_spec (alpha : D) (exact : Prop) (n T L t cur : Z)
  (xi x : list D) (last : D) :
  2 <= n -> 1 <= L < T -> 0 <= t < n ->
  (exact -> ends_kept alpha n 1 T xi /\ cur = (n - 1) * L - t) ->
  0 <= cur < size xi -> T <= size xi ->
  (exact -> slot xi L = Some last) ->
  series_ok exact 1 (n - 1) T L xi t 0 x ->
  exists x', blend_scalar alpha t (L - 1) cur last x = Ok x' /\
             series_ok exact 1 (n - 1) T L xi (t + 1) 0 x'.
Proof.
  intros Hn HL Ht Hex Hcur HT Hlast (Hlen & Hval).
  assert (Hsize : size x = size xi) by (unfold size; congruence).
  unfold blend_scalar.
  destruct (vget_in_range x (L - 1)) as (f & Hf); [lia|].
  rewrite Hf. cbn [bind].
  rewrite vset_Ok by lia.
  eexists. split; [reflexivity|].
  apply series_ok_next; [lia|].
  split; [rewrite length_update; exact Hlen|].
  intros He. destruct (Hex He) as (Hb & ->).
  replace ((n - 1) * L - t) with (1 * ((n - 1) * L - t) + 0) by lia.
  replace 1 with (0 + 1) at 4 by lia.
  apply write_values; try lia.
  - replace (n - 1 + 1) with n by lia. apply (Hb L 0); try lia.
    + replace (1 * L + 0) with L by lia. auto.
    + rewrite <- (proj1 (Hval He) (L - 1) 0) by lia.
      replace (1 * (L - 1) + 0) with (L - 1) by lia.
      apply vget_Some in Hf. apply Hf.
  - replace (1 * L + 0) with L by lia. auto.
  - replace (1 * (L - 1) + 0) with (L - 1) by lia.
    apply vget_Some in Hf. apply Hf.
  - auto.
Qed.

Lemma blend_vector_spec (alpha : D) (exact : Prop) (s n T L t cur : Z)
  (xi x vl : list D) :
  1 <= s -> 2 <= n -> 1 <= L < T -> 0 <= t < n ->
  (exact -> ends_kept alpha n s T xi /\ cur = (n - 1) * L - t) ->
  forall N, 0 <= cur < N -> T <= N -> s * N <= size xi -> s * N < 2 ^ 32 ->
  size vl = s ->
  (exact -> forall d, 0 <= d < s -> slot vl d = slot xi (s * L + d)) ->
  series_ok exact s (n - 1) T L xi t 0 x ->
  exists x',
    for_loop (Z.to_nat s) 0 (fun iatomDir v =>
      l <- vget vl iatomDir ;;
      f <- vget v (u32 (s * (L - 1) + iatomDir)) ;;
      vset v (u32 (s * cur + iatomDir)) (blend alpha t l f)) x = Ok x' /\
    series_ok exact s (n - 1) T L xi (t + 1) 0 x'.
Proof.
  intros Hs Hn HL Ht Hex N Hcur HT Hsz Hrep Hvl Hlast Hx.
  destruct (for_loop_invariant
              (fun d v => series_ok exact s (n - 1) T L xi t d v)
              (fun iatomDir v =>
                 l <- vget vl iatomDir ;;
                 f <- vget v (u32 (s * (L - 1) + iatomDir)) ;;
                 vset v (u32 (s * cur + iatomDir)) (blend alpha t l f))
              0 (Z.to_nat s) x Hx) as (x' & Hrun & Hx').
  - intros d v. rewrite Z2Nat.id by lia. intros Hd (Hlen & Hval).
    assert (Hsize : size v = size xi) by (unfold size; congruence).
    destruct (vget_in_range vl d) as (l & Hl); [lia|].
    rewrite Hl. cbn [bind].
    rewrite (u32_small (s * (L - 1) + d)) by nia.
    destruct (vget_in_range v (s * (L - 1) + d)) as (f & Hf); [nia|].
    rewrite Hf. cbn [bind].
    rewrite (u32_small (s * cur + d)) by nia.
    rewrite vset_Ok by nia.
    eexists. split; [reflexivity|].
    split; [rewrite length_update; exact Hlen|].
    intros He. destruct (Hex He) as (Hb & ->).
    apply write_values; try lia.
    + replace (n - 1 + 1) with n by lia. apply (Hb L d); try lia.
      * rewrite <- (Hlast He) by lia. apply vget_Some in Hl. apply Hl.
      * rewrite <- (proj1 (Hval He) (L - 1) d) by lia.
        apply vget_Some in Hf. apply Hf.
    + rewrite <- (Hlast He) by lia. apply vget_Some in Hl. apply Hl.
    + apply vget_Some in Hf. apply Hf.
    + assert (s * ((n - 1) * L - t) + s <= s * N) by nia. lia.
    + auto.
  - exists x'. split; [exact Hrun|].
    apply series_ok_next; [lia|].
    replace (0 + Z.of_nat (Z.to_nat s)) with s in Hx' by lia. exact Hx'.
Qed.


Lemma u32_pred (a : Z) : u32 (u32 a - 1) = u32 (a - 1).
Proof. unfold u32. apply Zminus_mod_idemp_l. Qed.

Lemma u32_succ (a : Z) : u32 (u32 a + 1) = u32 (a + 1).
Proof. unfold u32. apply Zplus_mod_idemp_l. Qed.

Lemma cursor_top_range (dup : bool) (n L t : Z) :
  2 <= n -> 1 <= L -> 0 <= t < n -> 0 <= cursor_top dup n L - t.
Proof. intros Hn HL Ht. unfold cursor_top. destruct dup; nia. Qed.

Lemma cursor_top_mono (dup : bool) (n L L' : Z) :
  2 <= n -> L <= L' -> cursor_top dup n L <= cursor_top dup n L'.
Proof. intros Hn HL. unfold cursor_top. destruct dup; nia. Qed.

Lemma substep_spec (alpha : D) (exact : Prop) (dup : bool)
  (natom3 n T L t N : Z) (c0 c : @Cursor D) (vl : list D)
  (ekinLast temperatureLast pressureLast entropyLast : D) :
  1 <= natom3 -> 2 <= n -> 1 <= L < T -> 0 <= t < n ->
  (exact -> dup = true /\ cursor_ends_kept alpha n natom3 T c0) ->
  cursor_sized natom3 N c0 -> T <= N -> natom3 * N < 2 ^ 32 ->
  cursor_top dup n L < N ->
  size vl = natom3 ->
  (exact -> forall d, 0 <= d < natom3 ->
            slot vl d = slot (c_velocities c0) (natom3 * L + d)) ->
  (exact -> slot (c_ekin c0) L = Some ekinLast) ->
  (exact -> slot (c_temperature c0) L = Some temperatureLast) ->
  (exact -> slot (c_pressure c0) L = Some pressureLast) ->
  (exact -> slot (c_entropy c0) L = Some entropyLast) ->
  cursor_ok exact natom3 n T L t c0 c (u32 (cursor_top dup n L - t)) ->
  exists c',
    substep natom3 alpha (L - 1) vl ekinLast temperatureLast pressureLast
      entropyLast t c = Ok c' /\
    cursor_ok exact natom3 n T L (t + 1) c0 c'
      (u32 (cursor_top dup n L - (t + 1))).
Proof.
  intros Hnatom3 Hn HL Ht Hex (Sv & Se & St & Sp & Ss) HTN Hrep Htop Hvl
    Lv Le Lt Lp Ls (Hct & Cv & Ce & Ct & Cp & Cs).
  pose proof (cursor_top_range dup n L t Hn (proj1 HL) Ht) as Hcur0.
  rewrite u32_small in Hct by nia.
  assert (Hcur : exact -> cursor_top dup n L - t = (n - 1) * L - t).
  { intros He. destruct (Hex He) as (-> & _). reflexivity. }
  assert (Hxv : exact -> ends_kept alpha n natom3 T (c_velocities c0)
                         /\ cursor_top dup n L - t = (n - 1) * L - t)
    by (intros He; split; [apply (Hex He) | auto]).
  assert (Hxe : exact -> ends_kept alpha n 1 T (c_ekin c0)
                         /\ cursor_top dup n L - t = (n - 1) * L - t)
    by (intros He; split; [apply (Hex He) | auto]).
  assert (Hxt : exact -> ends_kept alpha n 1 T (c_temperature c0)
                         /\ cursor_top dup n L - t = (n - 1) * L - t)
    by (intros He; split; [apply (Hex He) | auto]).
  assert (Hxp : exact -> ends_kept alpha n 1 T (c_pressure c0)
                         /\ cursor_top dup n L - t = (n - 1) * L - t)
    by (intros He; split; [apply (Hex He) | auto]).
  assert (Hxs : exact -> ends_kept alpha n 1 T (c_entropy c0)
                         /\ cursor_top dup n L - t = (n - 1) * L - t)
    by (intros He; split; [apply (Hex He) | auto]).
  unfold substep. rewrite Hct.
  destruct (blend_vector_spec alpha exact natom3 n T L t
              (cursor_top dup n L - t) (c_velocities c0) (c_velocities c) vl)
    with (N := N) as (vel' & Hvel & Cv'); auto; try lia.
  rewrite Hvel. cbn [bind].
  destruct (blend_scalar_spec alpha exact n T L t (cursor_top dup n L - t)
              (c_ekin c0) (c_ekin c) ekinLast)
    as (ekin' & Hekin & Ce'); auto; try lia.
  rewrite Hekin. cbn [bind].
  destruct (blend_scalar_spec alpha exact n T L t (cursor_top dup n L - t)
              (c_temperature c0) (c_temperature c) temperatureLast)
    as (temp' & Htemp & Ct'); auto; try lia.
  rewrite Htemp. cbn [bind].
  destruct (blend_scalar_spec alpha exact n T L t (cursor_top dup n L - t)
              (c_pressure c0) (c_pressure c) pressureLast)
    as (press' & Hpress & Cp'); auto; try lia.
  rewrite Hpress. cbn [bind].
  destruct (blend_scalar_spec alpha exact n T L t (cursor_top dup n L - t)
              (c_entropy c0) (c_entropy c) entropyLast)
    as (entr' & Hentr & Cs'); auto; try lia.
  rewrite Hentr. cbn [bind].
  eexists. split; [reflexivity|].
  refine (conj _ (conj Cv' (conj Ce' (conj Ct' (conj Cp' Cs'))))).
  cbn. f_equal. lia.
Qed.


Lemma slice_frame (x : list D) (s L : Z) :
  0 <= s -> 0 <= L -> s * (L + 1) <= size x -> s * (L + 1) < 2 ^ 32 ->
  exists vl, slice x (u32 (s * L)) (u32 (s * (L + 1))) = Ok vl /\
             size vl = s /\
             forall d, 0 <= d < s -> slot vl d = slot x (s * L + d).
Proof.
  intros Hs HL Hsize Hrep.
  rewrite !u32_small by nia. unfold slice.
  destruct (Z.leb_spec 0 (s * L)); [|nia].
  destruct (Z.leb_spec (s * L) (s * (L + 1))); [|nia].
  destruct (Z.leb_spec (s * (L + 1)) (size x)); [|lia].
  cbn [andb]. eexists. split; [reflexivity|].
  replace (s * (L + 1) - s * L) with s by lia.
  unfold size in *. split.
  - rewrite length_firstn, length_skipn. nia.
  - intros d Hd. unfold slot.
    rewrite nth_error_firstn.
    destruct (Nat.ltb_spec (Z.to_nat d) (Z.to_nat s)); [|lia].
    rewrite nth_error_skipn. f_equal. nia.
Qed.

Lemma outer_ok_enter (exact : Prop) (s m T L : Z) (xi x : list D) :
  outer_ok exact s m T L xi x -> series_ok exact s m T L xi 0 0 x.
Proof.
  intros (Hlen & Hval). split; [exact Hlen|].
  intros He. destruct (Hval He) as (Hlow & Hgrid).
  repeat split.
  - intros j d Hj Hd. apply Hlow; lia.
  - exact Hgrid.
  - intros d Hd. simpl in Hd. lia.
Qed.

Lemma outer_ok_leave (exact : Prop) (s m T L t : Z) (xi x : list D) :
  1 <= t -> L < T ->
  series_ok exact s m T L xi t 0 x -> outer_ok exact s m T (L - 1) xi x.
Proof.
  intros Ht HL (Hlen & Hval). split; [exact Hlen|].
  intros He. destruct (Hval He) as (Hlow & Hgrid & Hupto).
  destruct (Z.eqb_spec t 0); [lia|].
  split.
  - intros j d Hj Hd. apply Hlow; lia.
  - intros j d Hj Hd. destruct (Z.eq_dec j L) as [->|Hne].
    + apply Hupto. exact Hd.
    + apply Hgrid; lia.
Qed.

Lemma outer_ok_last (exact : Prop) (s m T L : Z) (xi x : list D) (d : Z) :
  0 <= L -> 0 <= d < s -> exact ->
  outer_ok exact s m T L xi x -> slot x (s * L + d) = slot xi (s * L + d).
Proof.
  intros HL Hd He (_ & Hval). destruct (Hval He) as (Hlow & _).
  apply Hlow; lia.
Qed.

Lemma scalar_last (exact : Prop) (m T L N : Z) (xi x : list D) :
  0 <= L < T -> T <= N -> N <= size xi ->
  outer_ok exact 1 m T L xi x ->
  exists last, vget x L = Ok last /\ (exact -> slot xi L = Some last).
Proof.
  intros HL HT HN Hx.
  assert (Hsize : size x = size xi) by (unfold size; destruct Hx; congruence).
  destruct (vget_in_range x L) as (last & Hlast); [lia|].
  exists last. split; [exact Hlast|].
  intros He.
  pose proof (outer_ok_last exact 1 m T L xi x 0 (proj1 HL) ltac:(lia) He Hx)
    as Heq.
  replace (1 * L + 0) with L in Heq by lia. rewrite <- Heq.
  apply vget_Some in Hlast. apply Hlast.
Qed.

Lemma segment_spec (alpha : D) (exact : Prop) (dup : bool)
  (natom3 n T L N : Z) (c0 c : @Cursor D) :
  1 <= natom3 -> 2 <= n -> 1 <= L < T ->
  (exact -> dup = true /\ cursor_ends_kept alpha n natom3 T c0) ->
  cursor_sized natom3 N c0 -> T <= N -> natom3 * N < 2 ^ 32 ->
  cursor_top dup n L < N ->
  cursor_done exact natom3 n T L c0 c (u32 (cursor_top dup n L)) ->
  exists c',
    segment natom3 n alpha dup L c = Ok c' /\
    cursor_done exact natom3 n T (L - 1) c0 c'
      (u32 (cursor_top dup n (L - 1))).
Proof.
  intros Hnatom3 Hn HL Hex Hsized HTN Hrep Htop (Hct & Ov & Oe & Ot & Op & Os).
  pose proof Hsized as (Sv & Se & St & Sp & Ss).
  unfold segment.
  assert (Hvsize : size (c_velocities c) = size (c_velocities c0))
    by (unfold size; destruct Ov; congruence).
  destruct (slice_frame (c_velocities c) natom3 L) as (vl & Hvl & Hvlsize & Hvlslot);
    try nia.
  rewrite Hvl. cbn [bind].
  destruct (scalar_last exact (n - 1) T L N (c_ekin c0) (c_ekin c))
    as (ekinLast & He & Le); try lia; auto.
  destruct (scalar_last exact (n - 1) T L N (c_temperature c0)
              (c_temperature c))
    as (temperatureLast & Ht & Lt); try lia; auto.
  destruct (scalar_last exact (n - 1) T L N (c_pressure c0) (c_pressure c))
    as (pressureLast & Hp & Lp); try lia; auto.
  destruct (scalar_last exact (n - 1) T L N (c_entropy c0) (c_entropy c))
    as (entropyLast & Hs & Ls); try lia; auto.
  rewrite He, Ht, Hp, Hs. cbn [bind].
  destruct (for_loop_invariant
              (fun t c => cursor_ok exact natom3 n T L t c0 c
                            (u32 (cursor_top dup n L - t)))
              (substep natom3 alpha (L - 1) vl ekinLast temperatureLast
                 pressureLast entropyLast)
              0 (Z.to_nat n) c) as (c' & Hrun & Hc').
  - rewrite Z.sub_0_r.
    refine (conj Hct (conj _ (conj _ (conj _ (conj _ _)))));
      apply outer_ok_enter; assumption.
  - intros t c1. rewrite Z2Nat.id by lia. intros Ht1 Hc1.
    apply substep_spec with (N := N); auto; try lia.
    intros Hexact d Hd. rewrite Hvlslot by exact Hd.
    apply outer_ok_last with (exact := exact) (m := n - 1) (T := T);
      auto; lia.
  - rewrite Hrun. cbn [bind].
    replace (0 + Z.of_nat (Z.to_nat n)) with n in Hc' by lia.
    destruct Hc' as (Hct' & Cv & Ce & Ct & Cp & Cs).
    eexists. split; [reflexivity|].
    assert (Hcur : currentTime
                     (if dup
                      then {| c_velocities := c_velocities c';
                              c_ekin := c_ekin c';
                              c_temperature := c_temperature c';
                              c_pressure := c_pressure c';
                              c_entropy := c_entropy c';
                              currentTime := u32 (currentTime c' + 1) |}
                      else c') = u32 (cursor_top dup n (L - 1))).
    { unfold cursor_top in *. destruct dup; cbn [currentTime]; rewrite Hct'.
      - rewrite u32_succ. f_equal. lia.
      - f_equal. lia. }
    refine (conj Hcur _).
    destruct dup; cbn [c_velocities c_ekin c_temperature c_pressure c_entropy];
      (refine (conj _ (conj _ (conj _ (conj _ _))));
       eapply outer_ok_leave with (t := n); try lia; eassumption).
Qed.


Lemma segments_spec (alpha : D) (exact : Prop) (dup : bool)
  (natom3 n T N : Z) (c0 : @Cursor D) :
  1 <= natom3 -> 2 <= n ->
  (exact -> dup = true /\ cursor_ends_kept alpha n natom3 T c0) ->
  cursor_sized natom3 N c0 -> T <= N -> natom3 * N < 2 ^ 32 ->
  cursor_top dup n (T - 1) < N ->
  forall (k : nat) (c : Cursor),
    Z.of_nat k < T ->
    cursor_done exact natom3 n T (Z.of_nat k) c0 c
      (u32 (cursor_top dup n (Z.of_nat k))) ->
    exists c',
      segments natom3 n alpha dup k c = Ok c' /\
      cursor_done exact natom3 n T 0 c0 c' (u32 (cursor_top dup n 0)).
Proof.
  intros Hnatom3 Hn Hex Hsized HTN Hrep Htop.
  induction k as [|k IH]; intros c Hk Hc.
  - exists c. split; [reflexivity | exact Hc].
  - cbn [segments].
    destruct (segment_spec alpha exact dup natom3 n T (Z.of_nat (S k)) N c0 c)
      as (c1 & Hrun & Hc1); auto; try lia.
    + pose proof (cursor_top_mono dup n (Z.of_nat (S k)) (T - 1) Hn). lia.
    + rewrite Hrun. cbn [bind].
      replace (Z.of_nat (S k) - 1) with (Z.of_nat k) in Hc1 by lia.
      apply IH; [lia | exact Hc1].
Qed.

Lemma newNTime_value (T n : Z) (amplitude : D) :
  1 <= T -> 2 <= n -> n * T < 2 ^ 31 ->
  newNTime T n amplitude = cursor_top (removeDuplica amplitude) n (T - 1) + 1.
Proof.
  intros HT Hn Hfit. unfold newNTime, cursor_top.
  rewrite (i32_small (T - 1)) by lia.
  rewrite (i32_small (n * (T - 1))) by nia.
  destruct (removeDuplica amplitude).
  - rewrite i32_small by nia. ring.
  - ring.
Qed.

Lemma outer_ok_start (exact : Prop) (s m T : Z) (xi : list D) :
  outer_ok exact s m T (T - 1) xi xi.
Proof.
  split; [reflexivity|]. intros _. split.
  - intros j d _ _. reflexivity.
  - intros j d Hj. lia.
Qed.

Lemma outer_ok_end (exact : Prop) (s m T L : Z) (orig xi x : list D) (K : Z) :
  exact -> outer_ok exact s m T 0 xi x ->
  xi = resize d0 K orig -> size orig = s * T -> s * T <= K ->
  0 <= L < T -> forall d, 0 <= d < s ->
  slot x (s * (m * L) + d) = slot orig (s * L + d).
Proof.
  intros He (_ & Hval) -> Hsize HK HL d Hd.
  destruct (Hval He) as (Hlow & Hgrid).
  assert (Hxi : slot (resize d0 K orig) (s * L + d) = slot orig (s * L + d)).
  { unfold slot. apply nth_error_resize; unfold size in Hsize; nia. }
  rewrite <- Hxi.
  destruct (Z.eq_dec L 0) as [->|HL0].
  - replace (s * (m * 0) + d) with (s * 0 + d) by lia. apply Hlow; lia.
  - apply Hgrid; lia.
Qed.

Lemma ends_kept_resize (alpha : D) (n s T K : Z) (orig : list D) :
  1 <= s -> size orig = s * T -> s * T <= K ->
  ends_kept alpha n s T orig -> ends_kept alpha n s T (resize d0 K orig).
Proof.
  intros Hs Hsize HK Hkept L d l f HL Hd Hl Hf.
  assert (H0 : 0 <= s * (L - 1)) by (apply Z.mul_nonneg_nonneg; lia).
  assert (H1 : s * (L + 1) <= s * T) by (apply Z.mul_le_mono_nonneg_l; lia).
  apply (Hkept L d l f HL Hd).
  - rewrite <- Hl. unfold slot. symmetry.
    apply nth_error_resize; unfold size in Hsize; lia.
  - rewrite <- Hf. unfold slot. symmetry.
    apply nth_error_resize; unfold size in Hsize; lia.
Qed.

(** The interpolation on a well-formed store: it returns, the series have
    the sizes of the five [resize], and when the blend returns its end
    points on the recorded frames, with elision, every recorded frame [L]
    sits at frame [(ninter-1) * L] of the result. *)
Lemma interpolate_spec (ninter : Z) (amplitude : D) (this : HistDataMD D)
  (b : HistData D) :
  interpolable this ninter -> 2 <= ninter -> 1 <= _ntime this ->
  (removeDuplica amplitude = false -> 2 <= _ntime this) ->
  HistData_interpolate ninter amplitude this = Ok b ->
  let N := newNTime (_ntime this) ninter amplitude in
  let natom3 := 3 * _natom this in
  exists r,
    interpolate ninter amplitude this = Ok r /\
    base r = b /\
    size (_velocities r) = natom3 * N /\
    size (_ekin r) = natom3 * N /\
    size (_temperature r) = 3 * N /\
    size (_pressure r) = 9 * N /\
    size (_entropy r) = N /\
    (removeDuplica amplitude = true ->
     store_ends_kept (amplitude / d_of_Z (u32 (ninter - 1)))%dbl ninter this ->
     forall L, 0 <= L < _ntime this ->
       slot (_ekin r) ((ninter - 1) * L) = slot (_ekin this) L /\
       slot (_temperature r) ((ninter - 1) * L) = slot (_temperature this) L /\
       slot (_pressure r) ((ninter - 1) * L) = slot (_pressure this) L /\
       slot (_entropy r) ((ninter - 1) * L) = slot (_entropy this) L /\
       forall d, 0 <= d < natom3 ->
         slot (_velocities r) (natom3 * ((ninter - 1) * L) + d)
         = slot (_velocities this) (natom3 * L + d)).
Proof.
  intros (Hs & Hnatom & Hvel & Hfit) Hn HT HT2 Hbase N natom3.
  destruct Hs as (_ & _ & Hekin & Htemp & Hpress & Hentr).
  set (T := _ntime this) in *.
  set (dup := removeDuplica amplitude) in *.
  set (alpha := (amplitude / d_of_Z (u32 (ninter - 1)))%dbl).
  assert (HnT : ninter * T < 2 ^ 31) by nia.
  assert (HN : N = cursor_top dup ninter (T - 1) + 1)
    by (apply newNTime_value; assumption).
  assert (HTN : T <= N).
  { rewrite HN. unfold cursor_top. destruct dup; [nia|].
    specialize (HT2 eq_refl). nia. }
  assert (HNle : N <= ninter * T).
  { rewrite HN. unfold cursor_top. destruct dup; nia. }
  assert (Hmax3 : 3 <= Z.max 3 (_natom this)) by lia.
  assert (HmaxA : _natom this <= Z.max 3 (_natom this)) by lia.
  assert (H9N : 9 * N < 2 ^ 31) by nia.
  assert (H3AN : natom3 * N < 2 ^ 31) by (unfold natom3; nia).
  assert (Hn3 : 1 <= natom3) by (unfold natom3; lia).
  assert (H0N : 1 <= N) by lia.
  assert (E1 : u32 (natom3 * N) = natom3 * N) by (apply u32_small; nia).
  assert (E2 : u32 (_xyz * N) = 3 * N) by (unfold _xyz; apply u32_small; lia).
  assert (E3 : u32 (_xyz * _xyz * N) = 9 * N)
    by (unfold _xyz; rewrite u32_small; lia).
  unfold interpolate. cbv zeta. fold T. fold dup. fold N.
  rewrite (i32_small (T - 1)) by lia.
  rewrite (u32_small (3 * _natom this)) by lia. fold natom3.
  rewrite E1, E2, E3.
  unfold resize_int. destruct (Z.ltb_spec N 0) as [Hneg|_]; [lia|].
  cbn [bind]. fold alpha.
  set (c0 := {| c_velocities := resize d0 (natom3 * N) (_velocities this);
                c_ekin := resize d0 (natom3 * N) (_ekin this);
                c_temperature := resize d0 (3 * N) (_temperature this);
                c_pressure := resize d0 (9 * N) (_pressure this);
                c_entropy := resize d0 N (_entropy this);
                currentTime := u32 (N - 1) |}).
  pose (exact := dup = true /\ cursor_ends_kept alpha ninter natom3 T c0).
  assert (Hsized : cursor_sized natom3 N c0).
  { unfold cursor_sized, c0, size; cbn [c_velocities c_ekin c_temperature
      c_pressure c_entropy].
    rewrite !length_resize. nia. }
  destruct (segments_spec alpha exact dup natom3 ninter T N c0)
    with (k := Z.to_nat (T - 1)) (c := c0) as (c' & Hrun & Hc');
    auto; try lia.
  - rewrite Z2Nat.id by lia.
    refine (conj _ (conj _ (conj _ (conj _ (conj _ _)))));
      try apply outer_ok_start.
    cbn [currentTime c0]. f_equal. lia.
  - rewrite Hrun. cbn [bind]. rewrite Hbase. cbn [bind].
    eexists. split; [reflexivity|].
    cbn [base _velocities _ekin _temperature _pressure _entropy].
    destruct Hc' as (_ & Ov & Oe & Ot & Op & Os).
    assert (Hlen : forall (exact : Prop) s m L (xi x : list D),
               outer_ok exact s m T L xi x -> size x = size xi).
    { intros e s m L xi x (Hl & _). unfold size. congruence. }
    split; [reflexivity|].
    rewrite (Hlen _ _ _ _ _ _ Ov), (Hlen _ _ _ _ _ _ Oe),
      (Hlen _ _ _ _ _ _ Ot), (Hlen _ _ _ _ _ _ Op), (Hlen _ _ _ _ _ _ Os).
    unfold c0, size; cbn [c_velocities c_ekin c_temperature c_pressure
      c_entropy].
    rewrite !length_resize.
    repeat (split; [lia|]).
    intros Hdup (Kv & Ke & Kt & Kp & Ks) L HL.
    assert (He : exact).
    { split; [exact Hdup|].
      refine (conj _ (conj _ (conj _ (conj _ _))));
        cbn [c0 c_velocities c_ekin c_temperature c_pressure c_entropy];
        apply ends_kept_resize; try assumption; try lia; nia. }
    pose proof (outer_ok_end exact 1 (ninter - 1) T L (_ekin this) _ _
                  (natom3 * N) He Oe eq_refl) as Re.
    pose proof (outer_ok_end exact 1 (ninter - 1) T L (_temperature this) _ _
                  (3 * N) He Ot eq_refl) as Rt.
    pose proof (outer_ok_end exact 1 (ninter - 1) T L (_pressure this) _ _
                  (9 * N) He Op eq_refl) as Rp.
    pose proof (outer_ok_end exact 1 (ninter - 1) T L (_entropy this) _ _
                  N He Os eq_refl) as Rs.
    pose proof (outer_ok_end exact natom3 (ninter - 1) T L (_velocities this)
                  _ _ (natom3 * N) He Ov eq_refl) as Rv.
    specialize (Re ltac:(lia) ltac:(nia) HL 0 ltac:(lia)).
    specialize (Rt ltac:(lia) ltac:(nia) HL 0 ltac:(lia)).
    specialize (Rp ltac:(lia) ltac:(nia) HL 0 ltac:(lia)).
    specialize (Rs ltac:(lia) ltac:(nia) HL 0 ltac:(lia)).
    specialize (Rv ltac:(unfold natom3; lia) ltac:(nia) HL).
    replace (1 * ((ninter - 1) * L) + 0) with ((ninter - 1) * L) in * by lia.
    replace (1 * L + 0) with L in * by lia.
    auto.
Qed.



(** C4, for the interpolation.  [_ekin] is resized to [natom3*newNTime],
    [_temperature] to [_xyz*newNTime], [_pressure] to [_xyz*_xyz*newNTime]
    and [_entropy] to [newNTime]: after the call the four scalar series
    have four different lengths, so they cannot all be [_ntime]. *)
Theorem interpolate_breaks_series_lengths (ninter : Z) (amplitude : D)
  (this : HistDataMD D) (b : HistData D) :
  interpolable this ninter -> 2 <= _ntime this -> 2 <= ninter ->
  HistData_interpolate ninter amplitude this = Ok b ->
  exists r,
    interpolate ninter amplitude this = Ok r /\
    0 < size (_entropy r) /\
    size (_ekin r) = 3 * _natom this * size (_entropy r) /\
    size (_temperature r) = 3 * size (_entropy r) /\
    size (_pressure r) = 9 * size (_entropy r) /\
    size (_ekin r) <> size (_entropy r) /\
    size (_temperature r) <> size (_entropy r) /\
    size (_pressure r) <> size (_entropy r).
Proof.
  intros Hi HT Hn Hbase.
  destruct (interpolate_spec ninter amplitude this b Hi Hn ltac:(lia)
              ltac:(intros _; exact HT) Hbase)
    as (r & Hrun & _ & _ & Hekin & Htemp & Hpress & Hentr & _).
  exists r. split; [exact Hrun|].
  destruct Hi as (_ & Hnatom & _ & Hfit).
  assert (HnT : ninter * _ntime this < 2 ^ 31) by nia.
  assert (HN : 0 < newNTime (_ntime this) ninter amplitude).
  { rewrite newNTime_value by (assumption || lia).
    unfold cursor_top. destruct (removeDuplica amplitude); nia. }
  rewrite Hekin, Htemp, Hpress, Hentr.
  repeat split; try lia; nia.
Qed.


End InterpolationProperties.

(** ** Velocity autocorrelation *)

Section VacfProperties.
Context {D : Type} {arith : Double D} {env : Platform D}.

Lemma vadd_head (h x : D) (tl : list D) :
  vadd (h :: tl) 0 x = Ok ((h + x)%dbl :: tl).
Proof.
  unfold vadd. cbn. unfold vset, size. cbn [length].
  destruct (Z.ltb_spec 0 (Z.of_nat (S (length tl)))); [|lia]. reflexivity.
Qed.

Lemma vadd_tail (h x : D) (tl : list D) (t : Z) :
  1 <= t <= size tl ->
  exists a, nth_error tl (Z.to_nat (t - 1)) = Some a /\
            vadd (h :: tl) t x
            = Ok (h :: update (Z.to_nat (t - 1)) (a + x)%dbl tl).
Proof.
  intros Ht. unfold size in Ht.
  destruct (nth_error tl (Z.to_nat (t - 1))) as [a|] eqn:Ha.
  - exists a. split; [reflexivity|].
    unfold vadd, vget.
    destruct (Z.ltb_spec t 0); [lia|].
    replace (Z.to_nat t) with (S (Z.to_nat (t - 1))) by lia.
    cbn [nth_error]. rewrite Ha. cbn [bind].
    unfold vset, size. cbn [length].
    destruct (Z.leb_spec 0 t); [|lia].
    destruct (Z.ltb_spec t (Z.of_nat (S (length tl)))); [|lia].
    cbn [andb]. replace (Z.to_nat t) with (S (Z.to_nat (t - 1))) by lia.
    reflexivity.
  - apply nth_error_None in Ha. lia.
Qed.

Lemma firstn_snoc {A : Type} (l : list A) (k : nat) (x : A) :
  nth_error l k = Some x -> firstn (S k) l = firstn k l ++ [x].
Proof.
  revert k; induction l as [|y r IH]; intros [|k]; cbn; try discriminate.
  - intros [= ->]. reflexivity.
  - intros Hx. f_equal. apply IH. exact Hx.
Qed.

Lemma count_species_snoc (l : list Z) (t s : Z) :
  count_species (l ++ [t]) s
  = count_species l s + (if Z.eq_dec t s then 1 else 0).
Proof.
  unfold count_species. rewrite count_occ_app. cbn.
  destruct (Z.eq_dec t s); lia.
Qed.

Lemma count_species_bound (l : list Z) (s : Z) :
  0 <= count_species l s <= Z.of_nat (length l).
Proof.
  unfold count_species. pose proof (count_occ_bound Z.eq_dec s l). lia.
Qed.

Lemma count_types_spec (this : HistData D) :
  0 < _natom this < 2 ^ 31 ->
  size (_typat this) = _natom this ->
  Forall (fun t => 1 <= t <= size (_znucl this)) (_typat this) ->
  exists counts,
    count_types this = Ok counts /\
    length counts = S (length (_znucl this)) /\
    nth_error counts 0 = Some (_natom this) /\
    forall s, 1 <= s <= size (_znucl this) ->
      nth_error counts (Z.to_nat s) = Some (count_species (_typat this) s).
Proof.
  intros Hnatom Htypat Hvalid. unfold count_types.
  replace (Z.to_nat (size (_znucl this) + 1))
    with (S (length (_znucl this))) by (unfold size; lia).
  destruct (for_loop_invariant
              (fun k n =>
                 length n = S (length (_znucl this)) /\
                 forall s, 1 <= s <= size (_znucl this) ->
                   nth_error n (Z.to_nat s)
                   = Some (count_species
                             (firstn (Z.to_nat k) (_typat this)) s))
              (fun iatom n =>
                 t <- vget (_typat this) iatom ;;
                 k <- vget n t ;;
                 vset n t (i32 (k + 1)))
              0 (Z.to_nat (_natom this))
              (repeat 0 (S (length (_znucl this)))))
    as (counts & Hrun & Hlen & Hcounts).
  - split; [apply repeat_length|].
    intros s Hs.
    replace (count_species (firstn (Z.to_nat 0) (_typat this)) s) with 0
      by reflexivity.
    apply nth_error_repeat. unfold size in Hs. lia.
  - intros k n. rewrite Z2Nat.id by lia. intros Hk (Hlen & Hn).
    destruct (vget_in_range (_typat this) k) as (t & Ht); [lia|].
    rewrite Ht. cbn [bind].
    assert (Htr : 1 <= t <= size (_znucl this)).
    { apply vget_Some in Ht. destruct Ht as [_ Ht].
      apply nth_error_In in Ht. rewrite Forall_forall in Hvalid. auto. }
    assert (Hget : vget n t
                   = Ok (count_species (firstn (Z.to_nat k) (_typat this)) t)).
    { apply vget_Some. split; [lia|]. apply Hn. exact Htr. }
    rewrite Hget. cbn [bind].
    pose proof (count_species_bound (firstn (Z.to_nat k) (_typat this)) t)
      as Hb.
    rewrite length_firstn in Hb.
    rewrite i32_small by (unfold size in *; lia).
    rewrite vset_Ok by (unfold size in *; lia).
    eexists. split; [reflexivity|].
    split; [rewrite length_update; exact Hlen|].
    intros s Hs.
    replace (Z.to_nat (k + 1)) with (S (Z.to_nat k)) by lia.
    apply vget_Some in Ht. destruct Ht as [_ Ht].
    rewrite (firstn_snoc _ _ _ Ht), count_species_snoc.
    destruct (Z.eq_dec t s) as [->|Hne].
    + rewrite nth_error_update_eq by (unfold size in *; lia). reflexivity.
    + rewrite nth_error_update_neq by lia. rewrite (Hn s Hs).
      f_equal. lia.
  - rewrite Hrun. cbn [bind].
    rewrite i32_small by lia.
    rewrite vset_Ok by (unfold size; lia).
    eexists. split; [reflexivity|].
    split; [rewrite length_update; exact Hlen|].
    split.
    + cbn [Z.to_nat]. apply nth_error_update_eq. lia.
    + intros s Hs. cbn [Z.to_nat].
      rewrite nth_error_update_neq by lia.
      rewrite (Hcounts s Hs). f_equal. f_equal.
      apply firstn_all2. unfold size in Htypat. lia.
Qed.

Section ExactVacf.
Hypothesis exact_arith : ExactArith D.

Add Field double_field_vacf : (ea_field D exact_arith).

Lemma total_update (l : list D) (i : nat) (a x : D) :
  nth_error l i = Some a ->
  total (update i (a + x)%dbl l) = (total l + x)%dbl.
Proof.
  revert i; induction l as [|y r IH]; intros [|i]; cbn; try discriminate.
  - intros [= ->]. fold (total r). ring.
  - intros Ha. fold (total r). fold (total (update i (a + x)%dbl r)).
    rewrite (IH i Ha). ring.
Qed.

Lemma total_zeros (n : nat) : total (repeat d0 n) = d0.
Proof.
  induction n as [|n IH]; cbn.
  - reflexivity.
  - fold (total (repeat d0 n)). rewrite IH. ring.
Qed.

Lemma of_Z_sum (a b : Z) : d_to_Z (d_of_Z a + d_of_Z b)%dbl = a + b.
Proof.
  rewrite <- (ea_of_Z_add D exact_arith). apply (ea_to_Z D exact_arith).
Qed.

Lemma accumulate_lag_spec (this : HistData D) (fullvacf : list D) (itau : Z) :
  0 < _natom this ->
  size (_typat this) = _natom this ->
  Forall (fun t => 1 <= t <= size (_znucl this)) (_typat this) ->
  0 <= itau -> (itau + 1) * (3 * _natom this) <= size fullvacf ->
  size fullvacf < 2 ^ 32 ->
  exists row, accumulate_lag this fullvacf itau = Ok row /\
              balanced (length (_znucl this)) row.
Proof.
  intros Hnatom Htypat Hvalid Hitau Hsize Hrep.
  unfold accumulate_lag. cbv zeta.
  apply for_loop_total.
  - replace (Z.to_nat (size (_znucl this) + 1))
      with (S (length (_znucl this))) by (unfold size; lia).
    cbn [repeat].
    exists d0, (repeat d0 (length (_znucl this))).
    split; [reflexivity|]. split; [apply repeat_length|].
    symmetry. apply total_zeros.
  - intros iatom row. rewrite Z2Nat.id by lia. intros Hiatom Hrow.
    apply for_loop_total; [exact Hrow|].
    intros c row1 Hc (h & tl & -> & Hlen & Hbal). cbn in Hc.
    rewrite (u32_small (itau * 3 * _natom this)) by nia.
    rewrite (u32_small (iatom * 3 + c)) by nia.
    rewrite of_Z_sum.
    destruct (vget_in_range fullvacf (itau * 3 * _natom this + (iatom * 3 + c)))
      as (x & Hx); [nia|].
    rewrite Hx. cbn [bind]. rewrite vadd_head. cbn [bind].
    destruct (vget_in_range (_typat this) iatom) as (t & Ht); [lia|].
    rewrite Ht. cbn [bind].
    assert (Htr : 1 <= t <= size (_znucl this)).
    { apply vget_Some in Ht. destruct Ht as [_ Ht].
      apply nth_error_In in Ht. rewrite Forall_forall in Hvalid. auto. }
    destruct (vadd_tail (h + x)%dbl x tl t) as (a & Ha & Hadd);
      [unfold size in *; lia|].
    rewrite Hadd. eexists. split; [reflexivity|].
    eexists. eexists. split; [reflexivity|].
    split; [rewrite length_update; exact Hlen|].
    rewrite (total_update tl _ a x Ha). rewrite Hbal. reflexivity.
Qed.


Lemma velocity_window_slice (this : HistDataMD D) (tbegin tend : Z) :
  vacf_ready this tbegin tend ->
  slice (_velocities this) (u32 (tbegin * 3 * _natom this))
    (u32 (tbegin * 3 * _natom this)
     + u32 (u32 (tend - tbegin) * 3 * _natom this))
  = Ok (velocity_window this tbegin tend).
Proof.
  intros (Hnatom & _ & _ & _ & Hvel & Hwin & Hend & Hrep).
  rewrite (u32_small (tend - tbegin)) by nia.
  rewrite !u32_small by nia.
  unfold slice, velocity_window.
  destruct (Z.leb_spec 0 (tbegin * 3 * _natom this)); [|nia].
  destruct (Z.leb_spec (tbegin * 3 * _natom this)
              (tbegin * 3 * _natom this + (tend - tbegin) * 3 * _natom this));
    [|nia].
  destruct (Z.leb_spec
              (tbegin * 3 * _natom this + (tend - tbegin) * 3 * _natom this)
              (size (_velocities this))); [|nia].
  cbn [andb]. do 2 f_equal. f_equal. lia.
Qed.

Lemma vacf_lags_spec (this : HistDataMD D) (tbegin tend : Z)
  (fullvacf : list D) :
  vacf_ready this tbegin tend ->
  HistData_acf (velocity_window this tbegin tend) (3 * _natom this)
    = Ok fullvacf ->
  size fullvacf <= 3 * _natom this * (tend - tbegin) ->
  exists vacf_tmp,
    vacf_lags this tbegin tend
      = Ok (size fullvacf / (3 * _natom this), vacf_tmp) /\
    length vacf_tmp = Z.to_nat (size fullvacf / (3 * _natom this)) /\
    forall k row, nth_error vacf_tmp k = Some row ->
                  balanced (length (_znucl this)) row.
Proof.
  intros Hready Hacf Hlags.
  pose proof Hready as (Hnatom & Htypat & Hvalid & _ & Hvel & Hwin & Hend & Hrep).
  unfold vacf_lags. cbv zeta.
  rewrite (velocity_window_slice this tbegin tend Hready). cbn [bind].
  assert (H3n : 0 < 3 * _natom this < 2 ^ 31) by nia.
  rewrite (u32_small (3 * _natom this)) by lia.
  rewrite Hacf. cbn [try_catch bind].
  destruct (Z.eqb_spec (3 * _natom this) 0) as [|_]; [lia|].
  assert (Hsz : 0 <= size fullvacf) by (unfold size; lia).
  assert (Hq : 0 <= size fullvacf / (3 * _natom this) <= size fullvacf).
  { split; [apply Z.div_pos; lia|].
    apply Z.div_le_upper_bound; [lia|]. nia. }
  assert (Hmul : 3 * _natom this * (size fullvacf / (3 * _natom this))
                 <= size fullvacf) by (apply Z.mul_div_le; lia).
  rewrite (u32_small (size fullvacf / (3 * _natom this))) by nia.
  destruct (tabulate_total
              (fun _ row => balanced (length (_znucl this)) row)
              (accumulate_lag this fullvacf)
              (Z.to_nat (size fullvacf / (3 * _natom this))) 0)
    as (vacf_tmp & Hrun & Hlen & Hrows).
  - intros itau Hitau. rewrite Z2Nat.id in Hitau by lia.
    destruct (accumulate_lag_spec this fullvacf itau) as (row & Hrow & Hbal);
      auto; try nia.
    exists row. auto.
  - rewrite Hrun. cbn [bind]. exists vacf_tmp.
    split; [reflexivity|]. split; [exact Hlen|].
    intros k row Hk. eapply Hrows. exact Hk.
Qed.

End ExactVacf.

End VacfProperties.

(** ** The aggregation, lag by lag *)

Section AggregationProperties.
Context {D : Type} {arith : Double D} {env : Platform D}.

Lemma lag_sum_snoc (s t : Z) (x y z : D) :
  forall (pre : list Z) (values : list D) (acc : D),
  nth_error values (3 * length pre) = Some x ->
  nth_error values (3 * length pre + 1) = Some y ->
  nth_error values (3 * length pre + 2) = Some z ->
  lag_sum s (pre ++ [t]) values acc
  = (if covers s t
     then (lag_sum s pre values acc + x + y + z)%dbl
     else lag_sum s pre values acc).
Proof.
  induction pre as [|t0 pre IH]; intros values acc Hx Hy Hz.
  - destruct values as [|a [|b [|c r]]]; cbn in Hx, Hy, Hz; try discriminate.
    injection Hx as <-. injection Hy as <-. injection Hz as <-.
    cbn. destruct (covers s t); reflexivity.
  - cbn [length] in Hx, Hy, Hz.
    destruct values as [|a [|b [|c r]]];
      try (replace (3 * S (length pre))%nat
             with (S (S (S (3 * length pre)))) in Hx by lia;
           cbn in Hx; destruct (3 * length pre)%nat; discriminate).
    replace (3 * S (length pre))%nat with (S (S (S (3 * length pre))))
      in Hx by lia.
    replace (3 * S (length pre) + 1)%nat
      with (S (S (S (3 * length pre + 1)))) in Hy by lia.
    replace (3 * S (length pre) + 2)%nat
      with (S (S (S (3 * length pre + 2)))) in Hz by lia.
    cbn [nth_error] in Hx, Hy, Hz.
    cbn [app lag_sum]. apply IH; assumption.
Qed.

Lemma row_holds_update (n : nat) (row : list D) (g : Z -> D) (t : Z)
  (v : D) :
  0 <= t <= Z.of_nat n -> row_holds n row g ->
  row_holds n (update (Z.to_nat t) v row)
    (fun s => if s =? t then v else g s).
Proof.
  intros Ht (Hlen & Hg). split; [rewrite length_update; exact Hlen|].
  intros s Hs. destruct (Z.eqb_spec s t) as [->|Hne].
  - apply nth_error_update_eq. lia.
  - rewrite nth_error_update_neq by lia. apply Hg. exact Hs.
Qed.

Lemma row_holds_ext (n : nat) (row : list D) (g h : Z -> D) :
  (forall s, 0 <= s <= Z.of_nat n -> g s = h s) ->
  row_holds n row g -> row_holds n row h.
Proof.
  intros Hext (Hlen & Hg). split; [exact Hlen|].
  intros s Hs. rewrite <- Hext by exact Hs. apply Hg. exact Hs.
Qed.

(** One channel of one atom: [vacftau[0] += x; vacftau[typat] += x]. *)
Lemma accumulate_channel (n : nat) (row : list D) (g : Z -> D) (t : Z)
  (x : D) :
  1 <= t <= Z.of_nat n -> row_holds n row g ->
  exists row',
    (vacftau <- vadd row 0 x ;; vadd vacftau t x) = Ok row' /\
    row_holds n row' (fun s => if covers s t then (g s + x)%dbl else g s).
Proof.
  intros Ht Hrow. pose proof Hrow as (Hlen & Hg).
  unfold vadd at 1.
  assert (H0 : vget row 0 = Ok (g 0))
    by (apply vget_Some; split; [lia | apply (Hg 0); lia]).
  rewrite H0. cbn [bind].
  rewrite vset_Ok by (unfold size; lia). cbn [bind].
  pose proof (row_holds_update n row g 0 (g 0 + x)%dbl ltac:(lia) Hrow)
    as Hrow1.
  pose proof Hrow1 as (Hlen1 & Hg1).
  unfold vadd.
  assert (Ht1 : vget (update (Z.to_nat 0) (g 0 + x)%dbl row) t = Ok (g t)).
  { apply vget_Some. split; [lia|]. rewrite (Hg1 t) by lia.
    destruct (Z.eqb_spec t 0); [lia | reflexivity]. }
  rewrite Ht1. cbn [bind].
  rewrite vset_Ok by (unfold size; lia).
  eexists. split; [reflexivity|].
  eapply row_holds_ext;
    [|apply (row_holds_update n _ _ t (g t + x)%dbl ltac:(lia) Hrow1)].
  intros s Hs. cbv beta. unfold covers.
  destruct (Z.eqb_spec s t) as [->|Hne].
  - rewrite orb_true_r. reflexivity.
  - destruct (Z.eqb_spec s 0) as [->|Hne0]; reflexivity.
Qed.

Lemma accumulate_lag_sums (this : HistData D) (fullvacf : list D)
  (itau ntau : Z) :
  0 < _natom this ->
  size (_typat this) = _natom this ->
  Forall (fun t => 1 <= t <= size (_znucl this)) (_typat this) ->
  0 <= itau < ntau -> (itau + 1) * (3 * _natom this) <= size fullvacf ->
  size fullvacf < 2 ^ 32 ->
  lag_index_exact (_natom this) ntau ->
  exists row,
    accumulate_lag this fullvacf itau = Ok row /\
    row_holds (length (_znucl this)) row
      (fun s => lag_sum s (_typat this) (from_lag this fullvacf itau) d0).
Proof.
  intros Hnatom Htypat Hvalid Hitau Hsize Hrep Hexact.
  set (n := length (_znucl this)).
  set (V := from_lag this fullvacf itau).
  assert (HV : forall k, 0 <= k < 3 * _natom this ->
            exists x, vget fullvacf (itau * 3 * _natom this + k) = Ok x /\
                      nth_error V (Z.to_nat k) = Some x).
  { intros k Hk.
    destruct (vget_in_range fullvacf (itau * 3 * _natom this + k))
      as (x & Hx); [nia|].
    exists x. split; [exact Hx|].
    apply vget_Some in Hx. destruct Hx as [_ Hx].
    unfold V, from_lag. rewrite nth_error_skipn. rewrite <- Hx.
    f_equal. nia. }
  unfold accumulate_lag. cbv zeta.
  replace (Z.to_nat (size (_znucl this) + 1)) with (S n)
    by (unfold size, n; lia).
  destruct (for_loop_invariant
              (fun a row =>
                 row_holds n row
                   (fun s => lag_sum s (firstn (Z.to_nat a) (_typat this))
                               V d0))
              (fun iatom vacftau =>
                 for_loop 3 0 (fun c vacftau =>
                   x <- vget fullvacf
                          (d_to_Z (d_of_Z (u32 (itau * 3 * _natom this))
                                   + d_of_Z (u32 (iatom * 3 + c)))%dbl) ;;
                   vacftau <- vadd vacftau 0 x ;;
                   t <- vget (_typat this) iatom ;;
                   vadd vacftau t x) vacftau)
              0 (Z.to_nat (_natom this)) (repeat d0 (S n)))
    as (row & Hrun & Hrow).
  - split; [apply repeat_length|].
    intros s Hs. cbn [Z.to_nat firstn lag_sum].
    apply nth_error_repeat. lia.
  - intros a row. rewrite Z2Nat.id by lia. intros Ha Hrow.
    destruct (vget_in_range (_typat this) a) as (t & Ht); [lia|].
    assert (Htr : 1 <= t <= Z.of_nat n).
    { apply vget_Some in Ht. destruct Ht as [_ Ht'].
      apply nth_error_In in Ht'. rewrite Forall_forall in Hvalid.
      specialize (Hvalid _ Ht'). unfold size in Hvalid. fold n in Hvalid.
      exact Hvalid. }
    destruct (HV (a * 3 + 0)) as (x & Hx & Vx); [lia|].
    destruct (HV (a * 3 + 1)) as (y & Hy & Vy); [lia|].
    destruct (HV (a * 3 + 2)) as (z & Hz & Vz); [lia|].
    assert (Hidx : forall c, 0 <= c < 3 ->
              d_to_Z (d_of_Z (u32 (itau * 3 * _natom this))
                      + d_of_Z (u32 (a * 3 + c)))%dbl
              = itau * 3 * _natom this + (a * 3 + c)).
    { intros c Hc.
      rewrite (u32_small (itau * 3 * _natom this)) by nia.
      rewrite (u32_small (a * 3 + c)) by nia.
      apply Hexact; lia. }
    cbn [for_loop].
    rewrite (Hidx 0) by lia. rewrite Hx. cbn [bind].
    destruct (accumulate_channel n row _ t x Htr Hrow)
      as (row1 & Hrun1 & Hrow1).
    change (0 + 1) with 1. change (1 + 1) with 2.
    assert (Hstep : forall (r : list D) (w : D),
              (vacftau <- vadd r 0 w ;;
               t0 <- vget (_typat this) a ;; vadd vacftau t0 w)
              = (vacftau <- vadd r 0 w ;; vadd vacftau t w)).
    { intros r w. destruct (vadd r 0 w); cbn [bind]; try reflexivity.
      rewrite Ht. reflexivity. }
    rewrite Hstep, Hrun1. cbn [bind].
    rewrite (Hidx 1) by lia. rewrite Hy. cbn [bind].
    destruct (accumulate_channel n row1 _ t y Htr Hrow1)
      as (row2 & Hrun2 & Hrow2).
    rewrite Hstep, Hrun2. cbn [bind].
    rewrite (Hidx 2) by lia. rewrite Hz. cbn [bind].
    destruct (accumulate_channel n row2 _ t z Htr Hrow2)
      as (row3 & Hrun3 & Hrow3).
    rewrite Hstep, Hrun3. cbn [bind].
    exists row3. split; [reflexivity|].
    eapply row_holds_ext; [|exact Hrow3].
    intros s Hs. cbv beta.
    replace (Z.to_nat (a + 1)) with (S (Z.to_nat a)) by lia.
    apply vget_Some in Ht. destruct Ht as [_ Ht].
    rewrite (firstn_snoc _ _ _ Ht).
    rewrite (lag_sum_snoc s t x y z).
    + destruct (covers s t); reflexivity.
    + rewrite length_firstn. rewrite <- Vx. f_equal. unfold size in Htypat. lia.
    + rewrite length_firstn. rewrite <- Vy. f_equal. unfold size in Htypat. lia.
    + rewrite length_firstn. rewrite <- Vz. f_equal. unfold size in Htypat. lia.
  - exists row. split; [exact Hrun|].
    eapply row_holds_ext; [|exact Hrow].
    intros s Hs. cbv beta. rewrite Z.add_0_l, Nat2Z.id.
    rewrite firstn_all2 by (unfold size in Htypat; lia). reflexivity.
Qed.

Lemma window_slice (this : HistDataMD D) (tbegin tend : Z) :
  vacf_window this tbegin tend ->
  slice (_velocities this) (u32 (tbegin * 3 * _natom this))
    (u32 (tbegin * 3 * _natom this)
     + u32 (u32 (tend - tbegin) * 3 * _natom this))
  = Ok (velocity_window this tbegin tend).
Proof.
  intros (Hnatom & _ & _ & Hvel & Hwin & Hend & Hrep).
  rewrite (u32_small (tend - tbegin)) by nia.
  rewrite !u32_small by nia.
  unfold slice, velocity_window.
  destruct (Z.leb_spec 0 (tbegin * 3 * _natom this)); [|nia].
  destruct (Z.leb_spec (tbegin * 3 * _natom this)
              (tbegin * 3 * _natom this + (tend - tbegin) * 3 * _natom this));
    [|nia].
  destruct (Z.leb_spec
              (tbegin * 3 * _natom this + (tend - tbegin) * 3 * _natom this)
              (size (_velocities this))); [|nia].
  cbn [andb]. do 2 f_equal. f_equal. lia.
Qed.

(** C9, amended.  On a valid window [getVACF] returns one series for all
    atoms and one per species, and at every lag the value of a series is
    its accumulator divided by three times the number of atoms it covers
    and converted, where the accumulator is the running sum, in the order
    of the atoms, of the three channels of every atom the series covers:
    each atom enters the all-species sum and the sum of its own species
    with the same three values. *)
Theorem vacf_series_are_running_sums (this : HistDataMD D)
  (tbegin tend : Z) (fullvacf : list D) :
  vacf_window this tbegin tend ->
  HistData_acf (velocity_window this tbegin tend) (3 * _natom this)
    = Ok fullvacf ->
  size fullvacf <= 3 * _natom this * (tend - tbegin) ->
  lag_index_exact (_natom this) (size fullvacf / (3 * _natom this)) ->
  exists vacf,
    getVACF this tbegin tend = Ok vacf /\
    size vacf = size (_znucl this) + 1 /\
    forall s itau,
      0 <= s <= size (_znucl this) ->
      0 <= itau < size fullvacf / (3 * _natom this) ->
      exists series,
        nth_error vacf (Z.to_nat s) = Some series /\
        nth_error series (Z.to_nat itau)
        = Some (d0 + lag_sum s (_typat this) (from_lag this fullvacf itau) d0
                     / d_of_Z (3 * slot_count this s)
                     * conversion2nm2ps2)%dbl.
Proof.
  intros Hready Hacf Hlags Hexact.
  pose proof Hready as (Hnatom & Htypat & Hvalid & Hvel & Hwin & Hend & Hrep).
  assert (H3n : 0 < 3 * _natom this < 2 ^ 31) by nia.
  set (ntau := size fullvacf / (3 * _natom this)) in *.
  set (n := length (_znucl this)).
  assert (Hsz : 0 <= size fullvacf) by (unfold size; lia).
  assert (Hq : 0 <= ntau <= size fullvacf).
  { unfold ntau. split; [apply Z.div_pos; lia|].
    apply Z.div_le_upper_bound; [lia|]. nia. }
  assert (Hmul : 3 * _natom this * ntau <= size fullvacf)
    by (apply Z.mul_div_le; lia).
  (* the lags *)
  unfold getVACF, vacf_lags. cbv zeta.
  rewrite (window_slice this tbegin tend Hready). cbn [bind].
  rewrite (u32_small (3 * _natom this)) by lia.
  rewrite Hacf. cbn [try_catch bind].
  destruct (Z.eqb_spec (3 * _natom this) 0) as [|_]; [lia|].
  fold ntau. rewrite (u32_small ntau) by nia.
  destruct (tabulate_total
              (fun itau row =>
                 row_holds n row
                   (fun s => lag_sum s (_typat this)
                               (from_lag this fullvacf itau) d0))
              (accumulate_lag this fullvacf) (Z.to_nat ntau) 0)
    as (vacf_tmp & Htmp & Htlen & Hrows).
  { intros itau Hitau. rewrite Z2Nat.id in Hitau by lia.
    apply (accumulate_lag_sums this fullvacf itau ntau); auto; try nia. }
  rewrite Htmp. cbn [bind].
  (* the counts *)
  destruct (count_types_spec this) as (counts & Hcounts & Hclen & Hc0 & Hcs);
    auto; try lia.
  rewrite Hcounts. cbn [bind].
  assert (Hcount : forall s, 0 <= s <= Z.of_nat n ->
            vget counts s = Ok (slot_count this s)).
  { intros s Hs. apply vget_Some. split; [lia|]. unfold slot_count.
    destruct (Z.eqb_spec s 0) as [->|Hne]; [exact Hc0|].
    apply Hcs. unfold size. fold n. lia. }
  replace (Z.to_nat (size (_znucl this) + 1)) with (S n)
    by (unfold size, n; lia).
  (* the series *)
  destruct (tabulate_total
              (fun s series =>
                 forall itau, 0 <= itau < ntau ->
                   nth_error series (Z.to_nat itau)
                   = Some (d0 + lag_sum s (_typat this)
                                  (from_lag this fullvacf itau) d0
                                / d_of_Z (3 * slot_count this s)
                                * conversion2nm2ps2)%dbl)
              (normalize_type counts vacf_tmp ntau) (S n) 0)
    as (vacf & Hvacf & Hvlen & Hseries).
  { intros s Hs. unfold normalize_type.
    rewrite (Hcount s) by lia. cbn [bind].
    assert (Hsmall : i32 (3 * slot_count this s) = 3 * slot_count this s).
    { apply i32_small. unfold slot_count.
      pose proof (count_species_bound (_typat this) s) as Hb.
      unfold size in Htypat.
      destruct (s =? 0); lia. }
    rewrite Hsmall.
    destruct (tabulate_total
                (fun itau x =>
                   x = (d0 + lag_sum s (_typat this)
                               (from_lag this fullvacf itau) d0
                             / d_of_Z (3 * slot_count this s)
                             * conversion2nm2ps2)%dbl)
                (fun itau =>
                   row <- vget vacf_tmp itau ;;
                   x <- vget row s ;;
                   Ok (d0 + x / d_of_Z (3 * slot_count this s)
                            * conversion2nm2ps2)%dbl)
                (Z.to_nat ntau) 0) as (series & Hs1 & Hslen & Hsx).
    - intros itau Hitau. rewrite Z2Nat.id in Hitau by lia.
      destruct (vget_in_range vacf_tmp itau) as (row & Hrow);
        [unfold size; lia|].
      rewrite Hrow. cbn [bind].
      apply vget_Some in Hrow. destruct Hrow as [_ Hrow].
      pose proof (Hrows _ _ Hrow) as (Hrlen & Hg).
      rewrite Z.add_0_l, Z2Nat.id in Hg by lia.
      assert (Hx : vget row s = Ok (lag_sum s (_typat this)
                                     (from_lag this fullvacf itau) d0))
        by (apply vget_Some; split; [lia | apply Hg; lia]).
      rewrite Hx. cbn [bind]. eexists. split; reflexivity.
    - exists series. split; [exact Hs1|].
      intros itau Hitau.
      destruct (nth_error series (Z.to_nat itau)) as [x|] eqn:Hx;
        [|apply nth_error_None in Hx; lia].
      rewrite (Hsx _ _ Hx). rewrite Z.add_0_l, Z2Nat.id by lia.
      reflexivity. }
  exists vacf. split; [exact Hvacf|].
  split; [unfold size; fold n; lia|].
  intros s itau Hs Hitau. unfold size in Hs. fold n in Hs.
  destruct (nth_error vacf (Z.to_nat s)) as [series|] eqn:Hser;
    [|apply nth_error_None in Hser; lia].
  exists series. split; [reflexivity|].
  pose proof (Hseries _ _ Hser) as Hval.
  rewrite Z.add_0_l, Z2Nat.id in Hval by lia.
  apply Hval. exact Hitau.
Qed.

End AggregationProperties.

(** ** The renormalisation on doubles *)

Section SingleSample.
Context {env : Platform PrimFloat.float}.

Lemma bin_width_returns (this : HistData PrimFloat.float) (nfreq : Z) :
  exists domega, bin_width this nfreq = Ok domega.
Proof.
  unfold bin_width, dtion_ps.
  destruct (_time this) as [|t0 [|t1 r]].
  - eexists. reflexivity.
  - eexists. reflexivity.
  - replace (1 <? size (t0 :: t1 :: r)) with true
      by (symmetry; apply Z.ltb_lt; unfold size; cbn [length]; lia).
    eexists. reflexivity.
Qed.

(** C10, on a PDOS of a single sample and without cutoff.  The loop that
    sums the norm runs over [nmax-1 = 0] bins, the norm is 0, and the
    sample is divided by it: the vector the function leaves is
    [[infinity]], and its sum over the range is the empty sum 0, not 1. *)
Theorem single_sample_pdos_is_divided_by_zero
  (this : HistDataMD PrimFloat.float) (T : PrimFloat.float) :
  exists thermo,
    computeThermoFunctionHA this [PrimFloat.one] T
      (PrimFloat.opp PrimFloat.one)
    = Ok ([PrimFloat.infinity], thermo) /\
    forall domega,
      trapezoid [PrimFloat.infinity] domega (u32 (1 - 1))
      = Ok PrimFloat.zero.
Proof.
  unfold computeThermoFunctionHA.
  change (u32 (size [PrimFloat.one])) with 1.
  destruct (bin_width_returns this 1) as (domega & ->).
  cbn [bind length tabulate].
  unfold cutoff.
  change (PrimFloat.opp PrimFloat.one <? d0)%dbl with true.
  cbn [bind]. change (u32 (1 - 1)) with 0.
  cbn [Z.to_nat trapezoid for_loop bind renormalize].
  change (Z.to_nat 1) with 1%nat.
  cbn [for_loop vget Z.ltb Z.compare Z.to_nat nth_error bind].
  unfold vset. cbn [size length Z.of_nat Z.leb Z.ltb Z.compare andb
                    Pos.of_succ_nat Pos.compare Pos.compare_cont
                    update Z.to_nat bind].
  change (d1 / d0)%dbl with PrimFloat.infinity.
  cbn [thermo_sums for_loop Z.to_nat bind].
  eexists. split; [reflexivity|].
  intros domega'. reflexivity.
Qed.

End SingleSample.

(** *** The interpolation on concrete stores *)

(** The rationals satisfy the laws of exact arithmetic. *)
Lemma Qc_exact : ExactArith Qc.
Proof.
  constructor.
  - constructor.
    + exact (F_R Qcft).
    + exact (F_1_neq_0 Qcft).
    + intros p q. cbn. unfold dinv. cbn. unfold Qcdiv.
      rewrite Qcmult_1_l. reflexivity.
    + intros p Hp. cbn. unfold dinv. cbn. unfold Qcdiv.
      rewrite Qcmult_1_l. apply (Finv_l Qcft). exact Hp.
  - reflexivity.
  - reflexivity.
  - intros a b. apply Qc_is_canon.
    change (Qred (inject_Z (a + b))
            == Qred (Qred (inject_Z a) + Qred (inject_Z b)))%Q.
    rewrite !Qred_correct. rewrite inject_Z_plus. reflexivity.
  - intros a b. apply Qc_is_canon.
    change (Qred (inject_Z (a * b))
            == Qred (Qred (inject_Z a) * Qred (inject_Z b)))%Q.
    rewrite !Qred_correct. rewrite inject_Z_mult. reflexivity.
  - intros a Ha. cbn. intros Heq. apply Q2Qc_eq_iff in Heq.
    apply Ha. unfold Qeq in Heq. cbn in Heq. lia.
  - intros a.
    change (Z.quot (Qnum (Qred (inject_Z a)))
              (Zpos (Qden (Qred (inject_Z a)))) = a).
    rewrite Qred_identity by apply Z.gcd_1_r.
    apply Z.quot_1_r.
  - apply Qc_is_canon. reflexivity.
  - intros q Hq.
    assert (Hlt : (0 < Qred q)%Q) by (rewrite Qred_correct; exact Hq).
    pose proof (proj1 (Qlt_alt 0 (Qred q)) Hlt) as Hc.
    change (match (0 ?= Qred q)%Q with Lt => true | _ => false end = true).
    rewrite Hc. reflexivity.
Qed.

Lemma three_frames_interpolable :
  interpolable Examples.three_frames 3.
Proof. concrete. Qed.


Lemma interpolate_breaks_series_lengths_witness :
  exists r,
    interpolate (env := Examples.swapping) 3 (Q2Qc (1 # 2))
      Examples.three_frames = Ok r /\
    size (_ekin r) <> size (_entropy r).
Proof.
  destruct (interpolate_breaks_series_lengths (env := Examples.swapping) 3
              (Q2Qc (1 # 2)) Examples.three_frames _
              three_frames_interpolable ltac:(concrete) ltac:(concrete)
              eq_refl)
    as (r & Hrun & _ & _ & _ & _ & Hne & _).
  exists r. split; [exact Hrun | exact Hne].
Defined.

Lemma rising_interpolable (ninter : Z) :
  2 <= ninter <= 50 -> interpolable DoubleExamples.rising ninter.
Proof.
  intros Hn. unfold interpolable.
  split; [concrete|]. split; [reflexivity|]. split; [reflexivity|].
  change (3 * 3 * (ninter * 2) < 2 ^ 31). lia.
Qed.




(** *** Autocorrelation on concrete stores *)

Lemma three_frames_vacf_ready : vacf_ready Examples.three_frames 0 3.
Proof.
  unfold vacf_ready.
  split; [reflexivity|]. split; [reflexivity|].
  split; [repeat constructor; discriminate|].
  split; [|concrete].
  intros s Hs.
  assert (Hcase : s = 1 \/ s = 2) by (unfold size in Hs; cbn in Hs; lia).
  destruct Hcase as [-> | ->]; reflexivity.
Qed.

Lemma heavy_middle_window : vacf_window DoubleExamples.heavy_middle 0 1.
Proof.
  unfold vacf_window.
  split; [reflexivity|]. split; [reflexivity|].
  split; [repeat constructor; discriminate|].
  concrete.
Qed.

Lemma heavy_middle_indices : lag_index_exact (D := PrimFloat.float) 3 1.
Proof.
  intros itau k Hitau Hk.
  assert (itau = 0) by lia. subst itau.
  assert (Hcase : k = 0 \/ k = 1 \/ k = 2 \/ k = 3 \/ k = 4 \/ k = 5
                  \/ k = 6 \/ k = 7 \/ k = 8) by lia.
  repeat (destruct Hcase as [-> | Hcase]; [vm_compute; reflexivity|]).
  subst k. vm_compute. reflexivity.
Qed.

Lemma vacf_series_are_running_sums_witness :
  exists vacf series,
    getVACF (env := DoubleExamples.platform) DoubleExamples.heavy_middle 0 1
      = Ok vacf /\
    nth_error vacf 1 = Some series /\
    nth_error series 0 = Some (DoubleExamples.f 2 / DoubleExamples.f 6
                               * conversion2nm2ps2
                                   (env := DoubleExamples.platform))%dbl.
Proof.
  destruct (vacf_series_are_running_sums (env := DoubleExamples.platform)
              DoubleExamples.heavy_middle 0 1 _
              heavy_middle_window eq_refl ltac:(vm_compute; discriminate)
              heavy_middle_indices)
    as (vacf & Hrun & _ & Hseries).
  destruct (Hseries 1 0 ltac:(vm_compute; split; discriminate)
              ltac:(vm_compute; split; [discriminate | reflexivity]))
    as (series & Hser & Hval).
  exists vacf, series. split; [exact Hrun|]. split; [exact Hser|].
  etransitivity; [exact Hval|]. vm_compute. reflexivity.
Defined.

(** C9 as stated fails on doubles: the all-species accumulator adds
    [1 + 1e16 + 1] in the order of the atoms and holds [1e16]; the species
    accumulators hold [2] and [1e16], whose sum is [1e16 + 2].  The
    normalised values, weighted as the claim weights them, differ too. *)
Lemma vacf_weighted_sum_fails_on_doubles :
  exists vacf vacf_tmp,
    getVACF (env := DoubleExamples.platform) DoubleExamples.heavy_middle 0 1
      = Ok vacf /\
    vacf_lags (env := DoubleExamples.platform) DoubleExamples.heavy_middle
      0 1 = Ok (1, vacf_tmp) /\
    (entry vacf 0 0 * d_of_Z (3 * 3))%dbl
    <> total (map (fun s =>
                     (entry vacf (Z.of_nat s) 0
                      * d_of_Z (3 * count_species
                                      (_typat DoubleExamples.heavy_middle)
                                      (Z.of_nat s)))%dbl)
                (seq 1 2)) /\
    entry vacf_tmp 0 0
    <> total (map (fun s => entry vacf_tmp 0 (Z.of_nat s)) (seq 1 2)) /\
    d_to_Z (entry vacf_tmp 0 0) = 10 ^ 16 /\
    d_to_Z (entry vacf_tmp 0 1) + d_to_Z (entry vacf_tmp 0 2) = 10 ^ 16 + 2.
Proof.
  eexists. eexists.
  split; [vm_compute; reflexivity|].
  split; [vm_compute; reflexivity|].
  split; [vm_compute; discriminate|].
  split; [vm_compute; discriminate|].
  split; vm_compute; reflexivity.
Qed.

(** * Further properties of the store *)

(** ** What can be thrown *)

Lemma bind_never_throws {A B : Type} (m : Outcome A) (f : A -> Outcome B) :
  (forall e, m <> Throw e) -> (forall a e, f a <> Throw e) ->
  forall e, bind m f <> Throw e.
Proof.
  intros Hm Hf e. destruct m as [a|e0|]; simpl.
  - apply Hf.
  - exfalso. exact (Hm e0 eq_refl).
  - discriminate.
Qed.

Lemma for_loop_never_throws {St : Type} (body : Z -> St -> Outcome St) :
  (forall i s e, body i s <> Throw e) ->
  forall n i s e, for_loop n i body s <> Throw e.
Proof.
  intros Hbody. induction n as [|n IH]; intros i s e; simpl.
  - discriminate.
  - apply bind_never_throws; [apply Hbody | intros a e0; apply IH].
Qed.

Lemma tabulate_never_throws {A : Type} (f : Z -> Outcome A) :
  (forall i e, f i <> Throw e) ->
  forall n i e, tabulate n i f <> Throw e.
Proof.
  intros Hf. induction n as [|n IH]; intros i e; simpl.
  - discriminate.
  - apply bind_never_throws; [apply Hf|]. intros a e0.
    apply bind_never_throws; [apply IH|]. intros r e1. discriminate.
Qed.

Ltac never_throws :=
  repeat first
    [ apply vget_never_throws
    | apply slice_never_throws
    | apply bind_never_throws;
      [|let a := fresh "a" in
        intros a ?; try destruct a as [[[? ?] ?] ?]]
    | apply for_loop_never_throws;
      let s := fresh "s" in
      intros ? s ?; try destruct s as [[[? ?] ?] ?]
    | apply tabulate_never_throws; intros ? ?
    | discriminate ].

Section ThermoErrors.
Context {D : Type} {arith : Double D} {env : Platform D}.

Lemma vset_never_throws {A : Type} (v : list A) (i : Z) (x : A)
  (e : Exception) : vset v i x <> Throw e.
Proof. unfold vset. destruct (_ && _); discriminate. Qed.

Lemma computeThermoFunctionHA_never_throws (this : HistDataMD D)
  (pdos : list D) (T omegaMax : D) (e : Exception) :
  computeThermoFunctionHA this pdos T omegaMax <> Throw e.
Proof.
  unfold computeThermoFunctionHA, bin_width, dtion_ps, cutoff, trapezoid,
    renormalize, thermo_sums.
  apply bind_never_throws.
  - intros e0. destruct (1 <? size (_time this)); never_throws.
  - intros domega e0. never_throws.
    + intros e2. destruct (dltb omegaMax d0); [discriminate|].
      destruct (_ && _); discriminate.
    + apply vset_never_throws.
Qed.

(** The only exceptions that leave the window overload are the failures of
    [checkTimes], annotated: a failure of the PDOS never does, and nothing
    else in the function throws. *)
Theorem thermo_window_throws_only_checkTimes_failures (this : HistDataMD D)
  (tbegin tend : Z) (omegaMax : D) (e' : Exception) :
  computeThermoFunctionHA_window this tbegin tend omegaMax = Throw e' <->
  exists e, HistData_checkTimes this tbegin tend = Throw e /\
            e' = ADD "Thermodynamics calculations aborted" ERRDIV e.
Proof.
  unfold computeThermoFunctionHA_window.
  destruct (HistData_checkTimes this tbegin tend) as [[]|e|];
    cbn [try_catch bind].
  - split; [|intros (e & [=] & _)].
    intros H. exfalso. revert H.
    apply bind_never_throws.
    + intros e0.
      destruct (getPDOS this tbegin tend d0) as [l| |]; cbn [try_catch bind];
        try discriminate.
      destruct l; discriminate.
    + intros pdos e0.
      apply bind_never_throws; [apply slice_never_throws|].
      intros window e1.
      apply bind_never_throws;
        [intros e2; apply computeThermoFunctionHA_never_throws|].
      discriminate.
  - split.
    + intros [= <-]. exists e. split; reflexivity.
    + intros (e0 & [= <-] & ->). reflexivity.
  - split; [discriminate | intros (e & [=] & _)].
Qed.

End ThermoErrors.

(** ** Accessors inside and above the recorded range *)

Section AccessorProperties.
Context {D : Type} {arith : Double D} {env : Platform D}.

(** The accessors throw exactly on the indices above [_ntime], and what
    they throw is one [ERRDIV] message made of the name of the series, the
    index and the frame count. *)
Theorem accessors_throw_exactly_above_ntime (this : HistDataMD D) (time : Z)
  (e : Exception) :
  (getVel this time = Throw e <->
   _ntime this < time /\
   e = EXCEPTION ("Out of range for velocities " ++ to_string time ++ "/"
                  ++ to_string (_ntime this)) ERRDIV) /\
  (getEkin this time = Throw e <->
   _ntime this < time /\
   e = EXCEPTION ("Out of range for ekin " ++ to_string time ++ "/"
                  ++ to_string (_ntime this)) ERRDIV) /\
  (getTemperature this time = Throw e <->
   _ntime this < time /\
   e = EXCEPTION ("Out of range for temperature" ++ to_string time ++ "/"
                  ++ to_string (_ntime this)) ERRDIV) /\
  (getPressure this time = Throw e <->
   _ntime this < time /\
   e = EXCEPTION ("Out of range for pressure" ++ to_string time ++ "/"
                  ++ to_string (_ntime this)) ERRDIV).
Proof.
  unfold getVel, getEkin, getTemperature, getPressure, range_error.
  destruct (Z.ltb_spec (_ntime this) time) as [Hlt|Hge].
  - repeat split; try assumption;
      solve [ congruence | intros [_ ->]; reflexivity ].
  - assert (Hvel : forall i,
               (_ <- vget (_velocities this) i ;;
                Ok (skipn (Z.to_nat i) (_velocities this))) <> Throw e).
    { intros i. destruct (vget (_velocities this) i) eqn:Hv; simpl;
        try discriminate.
      exfalso. exact (vget_never_throws _ _ _ Hv). }
    repeat split; try lia;
      solve [ exfalso; eapply Hvel; eassumption
            | exfalso; eapply vget_never_throws; eassumption
            | intros [? _]; lia ].
Qed.

(** On a filled store every recorded frame is read back: the scalar
    accessors return the value of the frame, and the storage [getVel]
    points to starts with the [3*natom] velocity components of the frame. *)
Theorem accessors_return_recorded_frame (this : HistDataMD D) (time : Z) :
  series_filled this ->
  size (_velocities this) = 3 * _natom this * _ntime this ->
  0 < _natom this -> 3 * _natom this * _ntime this < 2 ^ 32 ->
  0 <= time < _ntime this ->
  exists vel ekin temperature pressure,
    getVel this time = Ok vel /\
    getEkin this time = Ok ekin /\
    getTemperature this time = Ok temperature /\
    getPressure this time = Ok pressure /\
    slot (_ekin this) time = Some ekin /\
    slot (_temperature this) time = Some temperature /\
    slot (_pressure this) time = Some pressure /\
    forall iatom coord, 0 <= iatom < _natom this -> 0 <= coord < 3 ->
      slot vel (iatom * 3 + coord)
      = velocity (_velocities this) (_natom this) time iatom coord.
Proof.
  intros (_ & _ & Hekin & Htemp & Hpress & _) Hvel Hnatom Hrep Ht.
  unfold getVel, getEkin, getTemperature, getPressure.
  destruct (Z.ltb_spec (_ntime this) time) as [|_]; [lia|].
  rewrite (u32_small (time * 3 * _natom this)) by nia.
  destruct (vget_in_range (_velocities this) (time * 3 * _natom this))
    as (v & Hv); [nia|].
  destruct (vget_in_range (_ekin this) time) as (x & Hx); [lia|].
  destruct (vget_in_range (_temperature this) time) as (y & Hy); [lia|].
  destruct (vget_in_range (_pressure this) time) as (z & Hz); [lia|].
  rewrite Hv, Hx, Hy, Hz. cbn [bind].
  do 4 eexists. do 4 (split; [reflexivity|]).
  apply vget_Some in Hx, Hy, Hz.
  split; [apply Hx|]. split; [apply Hy|]. split; [apply Hz|].
  intros iatom coord Ha Hc. unfold slot, velocity.
  rewrite nth_error_skipn. f_equal. nia.
Qed.

End AccessorProperties.

Lemma accessors_return_recorded_frame_witness :
  exists vel ekin,
    getVel Examples.three_frames 1 = Ok vel /\
    getEkin Examples.three_frames 1 = Ok ekin /\
    slot (_ekin Examples.three_frames) 1 = Some ekin /\
    slot vel (1 * 3 + 2)
    = velocity (_velocities Examples.three_frames) 2 1 1 2.
Proof.
  destruct (accessors_return_recorded_frame Examples.three_frames 1)
    as (vel & ekin & temperature & pressure & Hvel & Hekin & _ & _ & Hslot
        & _ & _ & Hcomp);
    try (repeat split; vm_compute; try reflexivity; try discriminate;
         intros; discriminate).
  exists vel, ekin. split; [exact Hvel|]. split; [exact Hekin|].
  split; [exact Hslot|].
  apply (Hcomp 1 2); split; vm_compute; try reflexivity; discriminate.
Defined.

(** ** Construction, assignment and the edges of the merge *)

Section StoreProperties.
Context {D : Type} {arith : Double D} {env : Platform D}.

Lemma resize_nil {A : Type} (zero : A) (n : Z) :
  resize zero n [] = repeat zero (Z.to_nat n).
Proof.
  unfold resize. rewrite firstn_nil. cbn [length app]. f_equal. lia.
Qed.

Lemma slot_resize_old {A : Type} (zero : A) (n j : Z) (v : list A) :
  0 <= j < n -> j < size v ->
  nth_error (resize zero n v) (Z.to_nat j) = nth_error v (Z.to_nat j).
Proof.
  intros Hj Hv. apply nth_error_resize; unfold size in Hv; lia.
Qed.

Lemma slot_resize_new {A : Type} (zero : A) (n j : Z) (v : list A) :
  0 <= j < n -> size v <= j ->
  nth_error (resize zero n v) (Z.to_nat j) = Some zero.
Proof.
  intros Hj Hv. unfold resize, size in *.
  rewrite nth_error_app2 by (rewrite length_firstn; lia).
  rewrite length_firstn.
  apply nth_error_repeat. lia.
Qed.

Lemma skipn_repeat {A : Type} (x : A) (k n : nat) :
  skipn k (repeat x n) = repeat x (n - k).
Proof.
  revert n; induction k as [|k IH]; intros [|n]; cbn; try reflexivity.
  apply IH.
Qed.

(** A store built from a base store has its five series filled with zeros
    up to the capacity [_ntimeAvail], whatever the filled count [_ntime]
    is.  An index that the accessors let through reads as zero when it
    lies below the capacity ([getVel] returns the zeros from that frame
    on), and reads outside the series when it does not: so does [_ntime]
    itself when the capacity is [_ntime]. *)
Theorem constructed_store_is_zero_filled (copy : HistData D) :
  0 <= _ntimeAvail copy -> 0 <= _natom copy ->
  3 * _natom copy * _ntimeAvail copy < 2 ^ 32 ->
  let r := HistDataMD_of copy in
  base r = copy /\
  _ekin r = repeat d0 (Z.to_nat (_ntimeAvail copy)) /\
  _temperature r = repeat d0 (Z.to_nat (_ntimeAvail copy)) /\
  _pressure r = repeat d0 (Z.to_nat (_ntimeAvail copy)) /\
  _entropy r = repeat d0 (Z.to_nat (_ntimeAvail copy)) /\
  _velocities r
  = repeat d0 (Z.to_nat (3 * _natom copy * _ntimeAvail copy)) /\
  (forall time, 0 <= time < _ntimeAvail copy -> time <= _ntime copy ->
     getEkin r time = Ok d0 /\
     getTemperature r time = Ok d0 /\
     getPressure r time = Ok d0 /\
     (0 < _natom copy ->
      getVel r time
      = Ok (repeat d0
              (Z.to_nat (3 * _natom copy * (_ntimeAvail copy - time)))))) /\
  (forall time, _ntimeAvail copy <= time -> time <= _ntime copy ->
     getEkin r time = Undefined /\
     getTemperature r time = Undefined /\
     getPressure r time = Undefined /\
     (time * 3 * _natom copy < 2 ^ 32 -> getVel r time = Undefined)).
Proof.
  intros Havail Hnatom Hrep r. subst r.
  unfold HistDataMD_of, zero_fill. cbn [base _ekin _velocities _temperature
    _pressure _entropy _natom _ntimeAvail].
  rewrite !resize_nil. unfold _xyz. rewrite u32_small by nia.
  repeat (split; [reflexivity|]).
  split.
  - intros time Ht Hn.
    unfold getEkin, getTemperature, getPressure, getVel.
    cbn [base _ekin _temperature _pressure _velocities _ntime _natom].
    destruct (Z.ltb_spec (_ntime copy) time) as [|_]; [lia|].
    assert (Hget : vget (repeat d0 (Z.to_nat (_ntimeAvail copy))) time
                   = Ok d0).
    { apply vget_Some. split; [lia|]. apply nth_error_repeat. lia. }
    rewrite Hget. do 3 (split; [reflexivity|]).
    intros Hpos. rewrite u32_small by nia.
    assert (Hvel : vget (repeat d0
                           (Z.to_nat (3 * _natom copy * _ntimeAvail copy)))
                     (time * 3 * _natom copy) = Ok d0).
    { apply vget_Some. split; [nia|]. apply nth_error_repeat. nia. }
    rewrite Hvel. cbn [bind]. rewrite skipn_repeat. do 2 f_equal. nia.
  - intros time Ht Hn.
    unfold getEkin, getTemperature, getPressure, getVel.
    cbn [base _ekin _temperature _pressure _velocities _ntime _natom].
    destruct (Z.ltb_spec (_ntime copy) time) as [|_]; [lia|].
    assert (Hget : vget (repeat d0 (Z.to_nat (_ntimeAvail copy))) time
                   = @Undefined D).
    { unfold vget. destruct (Z.ltb_spec time 0); [reflexivity|].
      replace (nth_error (repeat d0 (Z.to_nat (_ntimeAvail copy)))
                 (Z.to_nat time)) with (@None D); [reflexivity|].
      symmetry. apply nth_error_None. rewrite repeat_length. lia. }
    rewrite Hget. do 3 (split; [reflexivity|]).
    intros Hfit. rewrite u32_small by nia.
    assert (Hvel : vget (repeat d0
                           (Z.to_nat (3 * _natom copy * _ntimeAvail copy)))
                     (time * 3 * _natom copy) = @Undefined D).
    { unfold vget. destruct (Z.ltb_spec (time * 3 * _natom copy) 0);
        [reflexivity|].
      replace (nth_error
                 (repeat d0 (Z.to_nat (3 * _natom copy * _ntimeAvail copy)))
                 (Z.to_nat (time * 3 * _natom copy))) with (@None D);
        [reflexivity|].
      symmetry. apply nth_error_None. rewrite repeat_length. nia. }
    rewrite Hvel. reflexivity.
Qed.

(** The assignment of a base store does not reset the MD series: each of
    the five is cut or padded with zeros to the new capacity
    ([3*natom*_ntimeAvail] values, as an [unsigned], for the velocities),
    and the values of the former trajectory stay in the slots they were
    in. *)
Theorem assignment_keeps_former_md_values (this : HistDataMD D)
  (assigned : HistData D) :
  0 <= _ntimeAvail assigned ->
  let r := operator_assign this assigned in
  base r = assigned /\
  cut_or_padded (_ekin this) (_ekin r) (_ntimeAvail assigned) /\
  cut_or_padded (_temperature this) (_temperature r) (_ntimeAvail assigned) /\
  cut_or_padded (_pressure this) (_pressure r) (_ntimeAvail assigned) /\
  cut_or_padded (_entropy this) (_entropy r) (_ntimeAvail assigned) /\
  cut_or_padded (_velocities this) (_velocities r)
    (u32 (3 * _natom assigned * _ntimeAvail assigned)).
Proof.
  intros Havail r. subst r.
  assert (Hpad : forall (old : list D) n, 0 <= n ->
            cut_or_padded old (resize d0 n old) n).
  { intros old n Hn. split; [unfold size; rewrite length_resize; lia|].
    intros j Hj. unfold slot. split; intros Hold.
    - apply slot_resize_old; assumption.
    - apply slot_resize_new; assumption. }
  unfold operator_assign, zero_fill, with_base.
  cbn [base _ekin _velocities _temperature _pressure _entropy _ntimeAvail
       _natom].
  unfold _xyz.
  split; [reflexivity|].
  do 4 (split; [apply Hpad; exact Havail|]).
  apply Hpad. apply u32_range.
Qed.

(** ** Merge: the velocities and the two entry points *)

(** The merge of two stores with filled scalar series, down to what
    depends on the velocities. *)
Lemma merge_scalars (this hist : HistDataMD D) :
  series_filled this -> series_filled hist ->
  _ntime this + _ntime hist < 2 ^ 32 ->
  operator_plus_assign this hist =
  (out1 <- check_dtion this hist ;;
   let natom := _natom this in
   let dovel := xorb (empty (_velocities this)) (empty (_velocities hist)) in
   let vel1 := if dovel && empty (_velocities this)
               then resize d0 (u32 (_xyz * natom * _ntime this))
                      (_velocities this)
               else _velocities this in
   let hvel := if dovel && empty (_velocities hist)
               then resize d0 (u32 (_xyz * natom * _ntimeAvail hist))
                      (_velocities hist)
               else _velocities hist in
   let dovel := negb (empty vel1 || empty hvel) in
   '(order, reorder) <-
      map_structures (HistData_plus_assign this hist) hist ;;
   vel2 <-
     (if dovel then
        let v := resize d0 (u32 ((_ntime this + _ntime hist) * natom * _xyz))
                   vel1 in
        if negb reorder
        then std_copy hvel v (u32 (_ntime this * natom * _xyz))
        else copy_reordered order natom (_ntime hist)
               (u32 (_ntime this * natom * _xyz)) hvel v
      else Ok vel1) ;;
   Ok ({| base := HistData_plus_assign this hist;
          _ekin := _ekin this ++ _ekin hist;
          _velocities := vel2;
          _temperature := _temperature this ++ _temperature hist;
          _pressure := _pressure this ++ _pressure hist;
          _entropy := _entropy this ++ repeat d0 (Z.to_nat (_ntime hist)) |},
       with_velocities hist hvel,
       out1 ++ check_mean warn_temperature (_temperature this)
                 (_temperature hist)
            ++ check_mean warn_pressure (_pressure this) (_pressure hist))).
Proof.
  intros (Hn0 & Htime & Hekin & Htemp & Hpress & Hentr)
         (Hhn0 & Hhtime & Hhekin & Hhtemp & Hhpress & Hhentr) Hrep.
  unfold operator_plus_assign. cbv zeta.
  rewrite Htemp, (u32_small (_ntime this)) by lia.
  rewrite Z.eqb_refl.
  change (_ntime (HistData_plus_assign this hist))
    with (u32 (_ntime this + _ntime hist)).
  change (_natom (HistData_plus_assign this hist)) with (_natom this).
  rewrite (u32_small (_ntime this + _ntime hist)) by lia.
  destruct (check_dtion this hist) as [out1| |]; cbn [bind]; try reflexivity.
  rewrite !(append_by_copy d0 (_ntime this) (_ntime hist)) by assumption.
  cbn [bind].
  destruct (map_structures (HistData_plus_assign this hist) hist)
    as [[order reorder]| |]; cbn [bind]; try reflexivity.
  match goal with
  | |- bind ?m _ = bind ?m _ => destruct m as [vel2| |]
  end; cbn [bind]; try reflexivity.
  rewrite (copy_again (_ntime this)) by assumption. cbn [bind].
  rewrite (resize_extend d0 (_ntime this) (_ntime hist)) by assumption.
  reflexivity.
Qed.


Lemma std_copy_overflow {A : Type} (src dst : list A) (off : Z) :
  size dst < off + size src -> std_copy src dst off = Undefined.
Proof.
  intros Hover. unfold std_copy.
  destruct (Z.leb_spec (off + size src) (size dst)); [lia|].
  rewrite andb_false_r. reflexivity.
Qed.


(** When only the appended store carries no velocities, zeros stand for
    them: the appended store itself is given [3*natom] zeros per frame of
    its capacity, and with no frame reserved ahead these are appended to
    the velocities of the base store. *)
Theorem merge_zero_fills_missing_appended_velocities
  (this hist : HistDataMD D) :
  series_filled this -> series_filled hist -> velocities_filled this ->
  _velocities hist = [] ->
  0 < _ntime hist -> _ntimeAvail hist = _ntime hist ->
  3 * _natom this * (_ntime this + _ntime hist) < 2 ^ 32 ->
  _tryToMap this = false ->
  exists r out,
    operator_plus_assign this hist
    = Ok (r,
          with_velocities hist
            (repeat d0 (Z.to_nat (3 * _natom this * _ntime hist))),
          out) /\
    _velocities r
    = _velocities this
      ++ repeat d0 (Z.to_nat (3 * _natom this * _ntime hist)).
Proof.
  intros Hs Hh (Hnatom & Hnt & Hvel) Hhv Hhnt Havail Hrep Hmap.
  assert (Hsum : _ntime this + _ntime hist < 2 ^ 32) by nia.
  rewrite (merge_scalars this hist Hs Hh Hsum).
  destruct (check_dtion_spec this hist Hs Hh) as (out1 & Hout1 & _).
  rewrite Hout1. cbn [bind]. cbv zeta.
  unfold map_structures.
  change (_tryToMap (HistData_plus_assign this hist)) with (_tryToMap this).
  rewrite Hmap. cbn [bind].
  rewrite Hhv, Havail.
  rewrite (empty_false (_velocities this)) by nia.
  cbn [empty xorb andb orb negb].
  unfold _xyz. rewrite resize_nil.
  rewrite (u32_small (3 * _natom this * _ntime hist)) by nia.
  rewrite (empty_false (repeat d0 _))
    by (unfold size; rewrite repeat_length; nia).
  cbn [orb negb].
  rewrite (u32_small (_ntime this * _natom this * 3)) by nia.
  rewrite (u32_small ((_ntime this + _ntime hist) * _natom this * 3)) by nia.
  replace ((_ntime this + _ntime hist) * _natom this * 3)
    with (3 * _natom this * _ntime this + 3 * _natom this * _ntime hist)
    by lia.
  replace (_ntime this * _natom this * 3) with (3 * _natom this * _ntime this)
    by lia.
  rewrite (resize_extend d0 (3 * _natom this * _ntime this)) by (auto; nia).
  rewrite (copy_over_pad (3 * _natom this * _ntime this))
    by (try rewrite !repeat_length; auto).
  rewrite ?(empty_false (_velocities this)) by nia.
  cbn [orb negb bind]. do 2 eexists. split; reflexivity.
Qed.

(** With frames reserved ahead in the appended store ([_ntimeAvail] above
    [_ntime]) the zeros made for its missing velocities are more than the
    merged store has room for: the copy writes past the end. *)
Theorem merge_overruns_on_reserved_appended_frames
  (this hist : HistDataMD D) :
  series_filled this -> series_filled hist -> velocities_filled this ->
  _velocities hist = [] ->
  _ntime hist < _ntimeAvail hist ->
  3 * _natom this * (_ntime this + _ntimeAvail hist) < 2 ^ 32 ->
  _tryToMap this = false ->
  operator_plus_assign this hist = Undefined.
Proof.
  intros Hs Hh (Hnatom & Hnt & Hvel) Hhv Havail Hrep Hmap.
  pose proof Hh as (Hhn0 & _).
  assert (Hsum : _ntime this + _ntime hist < 2 ^ 32) by nia.
  rewrite (merge_scalars this hist Hs Hh Hsum).
  destruct (check_dtion_spec this hist Hs Hh) as (out1 & Hout1 & _).
  rewrite Hout1. cbn [bind]. cbv zeta.
  unfold map_structures.
  change (_tryToMap (HistData_plus_assign this hist)) with (_tryToMap this).
  rewrite Hmap. cbn [bind].
  rewrite Hhv.
  rewrite (empty_false (_velocities this)) by nia.
  cbn [empty xorb andb orb negb].
  unfold _xyz. rewrite resize_nil.
  rewrite (u32_small (3 * _natom this * _ntimeAvail hist)) by nia.
  rewrite (empty_false (repeat d0 _))
    by (unfold size; rewrite repeat_length; nia).
  cbn [orb negb].
  rewrite (u32_small (_ntime this * _natom this * 3)) by nia.
  rewrite (u32_small ((_ntime this + _ntime hist) * _natom this * 3)) by nia.
  rewrite std_copy_overflow
    by (unfold size in *; rewrite length_resize, repeat_length; nia).
  rewrite ?(empty_false (_velocities this)) by nia.
  reflexivity.
Qed.

(** When only the base store carries no velocities, it is given zeros for
    the frames it holds and the appended velocities follow them. *)
Theorem merge_zero_fills_missing_base_velocities (this hist : HistDataMD D) :
  series_filled this -> series_filled hist -> velocities_filled hist ->
  _velocities this = [] ->
  0 < _ntime this -> _natom hist = _natom this ->
  3 * _natom this * (_ntime this + _ntime hist) < 2 ^ 32 ->
  _tryToMap this = false ->
  exists r out,
    operator_plus_assign this hist = Ok (r, hist, out) /\
    _velocities r
    = repeat d0 (Z.to_nat (3 * _natom this * _ntime this))
      ++ _velocities hist.
Proof.
  intros Hs Hh (Hnatom & Hnt & Hvel) Hv Hnt0 Hsame Hrep Hmap.
  rewrite Hsame in Hnatom, Hvel.
  assert (Hsum : _ntime this + _ntime hist < 2 ^ 32) by nia.
  rewrite (merge_scalars this hist Hs Hh Hsum).
  destruct (check_dtion_spec this hist Hs Hh) as (out1 & Hout1 & _).
  rewrite Hout1. cbn [bind]. cbv zeta.
  unfold map_structures.
  change (_tryToMap (HistData_plus_assign this hist)) with (_tryToMap this).
  rewrite Hmap. cbn [bind].
  rewrite Hv.
  rewrite (empty_false (_velocities hist)) by nia.
  cbn [empty xorb andb orb negb].
  unfold _xyz. rewrite resize_nil.
  rewrite (u32_small (3 * _natom this * _ntime this)) by nia.
  rewrite (empty_false (repeat d0 _))
    by (unfold size; rewrite repeat_length; nia).
  rewrite (empty_false (_velocities hist)) by nia.
  cbn [orb negb].
  rewrite (u32_small (_ntime this * _natom this * 3)) by nia.
  rewrite (u32_small ((_ntime this + _ntime hist) * _natom this * 3)) by nia.
  replace ((_ntime this + _ntime hist) * _natom this * 3)
    with (3 * _natom this * _ntime this + 3 * _natom this * _ntime hist)
    by lia.
  replace (_ntime this * _natom this * 3) with (3 * _natom this * _ntime this)
    by lia.
  rewrite (resize_extend d0 (3 * _natom this * _ntime this))
    by (unfold size; try rewrite repeat_length; nia).
  rewrite (copy_over_pad (3 * _natom this * _ntime this))
    by (unfold size in *; try rewrite !repeat_length; nia).
  rewrite ?(empty_false (_velocities hist)) by nia.
  rewrite ?(empty_false (repeat d0 _))
    by (unfold size; rewrite repeat_length; nia).
  cbn [orb negb bind]. rewrite with_velocities_same.
  do 2 eexists. split; reflexivity.
Qed.

(** A direct merge into a store whose series are longer than [_ntime]
    (frames reserved ahead, as after the construction from a base store)
    skips the merge of the base class, cuts the series to [_ntime] and
    copies the appended values past their end. *)
Theorem merge_overruns_on_reserved_base_frames (this hist : HistDataMD D) :
  0 <= _ntime this ->
  _ntime this < size (_temperature this) < 2 ^ 32 ->
  0 < size (_ekin hist) ->
  operator_plus_assign this hist = Undefined.
Proof.
  intros Hn0 Hlong Hhekin.
  unfold operator_plus_assign. cbv zeta.
  rewrite (u32_small (size (_temperature this))) by lia.
  destruct (Z.eqb_spec (size (_temperature this)) (_ntime this)) as [|_];
    [lia|].
  assert (Hcopy : std_copy (_ekin hist) (resize d0 (_ntime this) (_ekin this))
                    (size (_temperature this)) = Undefined).
  { apply std_copy_overflow. unfold size in *. rewrite length_resize. lia. }
  rewrite Hcopy.
  destruct (check_dtion this hist) as [out1|e|] eqn:Hd; cbn [bind];
    try reflexivity.
  exfalso. revert Hd. unfold check_dtion.
  destruct (_ && _); [|discriminate].
  repeat (apply bind_never_throws; [apply vget_never_throws | intros ? ?]).
  discriminate.
Qed.

Lemma check_dtion_warns_dtion_only (this hist : HistDataMD D)
  (out : list Exception) (w : Exception) :
  check_dtion this hist = Ok out -> In w out -> w = warn_dtion.
Proof.
  unfold check_dtion. destruct (_ && _).
  - destruct (vget (_time this) 1); cbn [bind]; try discriminate.
    destruct (vget (_time this) 0); cbn [bind]; try discriminate.
    destruct (vget (_time hist) 1); cbn [bind]; try discriminate.
    destruct (vget (_time hist) 0); cbn [bind]; try discriminate.
    destruct (dltb _ _); intros [= <-]; [|intros []].
    intros [<-|[]]. reflexivity.
  - intros [= <-] [].
Qed.

Lemma in_check_mean (w x : Exception) (mine theirs : list D) :
  In x (check_mean w mine theirs) <->
  x = w /\
  (dabs (utils_mean mine - utils_mean theirs) / utils_mean mine
   >? d_lit (1 # 2))%dbl = true.
Proof.
  unfold check_mean. cbv zeta. destruct (dltb _ _); cbn [In].
  - split; [intros [<-|[]]; auto | intros [-> _]; auto].
  - split; [intros [] | intros [_ [=]]].
Qed.

(** The warnings on temperature and on pressure are printed exactly when
    the means of the two segments differ by more than half of the mean of
    the base segment, the difference in absolute value and the mean with
    its sign; the merge is produced in all cases. *)
Theorem merge_warns_on_means_relative_to_base (this hist : HistDataMD D) :
  mergeable this hist -> order_usable this hist ->
  exists r out,
    operator_plus_assign this hist = Ok (r, hist, out) /\
    (In warn_temperature out <->
     (dabs (utils_mean (_temperature this) - utils_mean (_temperature hist))
      / utils_mean (_temperature this) >? d_lit (1 # 2))%dbl = true) /\
    (In warn_pressure out <->
     (dabs (utils_mean (_pressure this) - utils_mean (_pressure hist))
      / utils_mean (_pressure this) >? d_lit (1 # 2))%dbl = true).
Proof.
  intros Hm Hu.
  destruct (merge_result this hist Hm Hu)
    as (out1 & order & reorder & vel2 & Hout1 & _ & _ & _ & Hrun).
  do 2 eexists. split; [exact Hrun|].
  rewrite !in_app_iff, !in_check_mean.
  split; split.
  - intros [Hin|[[_ Ht]|[Heq _]]]; [|exact Ht|discriminate].
    apply (check_dtion_warns_dtion_only _ _ _ _ Hout1) in Hin. discriminate.
  - intros Ht. right. left. split; [reflexivity | exact Ht].
  - intros [Hin|[[Heq _]|[_ Ht]]]; [|discriminate|exact Ht].
    apply (check_dtion_warns_dtion_only _ _ _ _ Hout1) in Hin. discriminate.
  - intros Ht. right. right. split; [reflexivity | exact Ht].
Qed.

(** ** The merge of a plain store and the two entry points *)

(** The merge of a store that is not an MD store extends the five series
    with zeros to the new frame count and keeps what they held. *)
Theorem merge_of_plain_store_pads_with_zeros (this : HistDataMD D)
  (h : HistData D) :
  series_filled this ->
  size (_velocities this) = 3 * _natom this * _ntime this ->
  0 <= _natom this -> 0 <= _ntime h ->
  _ntime this + _ntime h < 2 ^ 32 ->
  3 * _natom this * (_ntime this + _ntime h) < 2 ^ 32 ->
  exists r,
    operator_plus_assign_HistData this (Plain h) = Ok (r, Plain h, []) /\
    _ntime r = _ntime this + _ntime h /\
    _ekin r = _ekin this ++ repeat d0 (Z.to_nat (_ntime h)) /\
    _temperature r = _temperature this ++ repeat d0 (Z.to_nat (_ntime h)) /\
    _pressure r = _pressure this ++ repeat d0 (Z.to_nat (_ntime h)) /\
    _entropy r = _entropy this ++ repeat d0 (Z.to_nat (_ntime h)) /\
    _velocities r
    = _velocities this ++ repeat d0 (Z.to_nat (3 * _natom this * _ntime h)).
Proof.
  intros (Hn0 & Htime & Hekin & Htemp & Hpress & Hentr) Hvel Hnatom Hh Hsum
         Hrep.
  unfold operator_plus_assign_HistData. cbv zeta.
  cbn [operand_base HistData_plus_assign _ntime _natom].
  rewrite (u32_small (_ntime this + _ntime h)) by lia.
  unfold _xyz.
  rewrite (u32_small ((_ntime this + _ntime h) * _natom this * 3)) by nia.
  replace ((_ntime this + _ntime h) * _natom this * 3)
    with (3 * _natom this * _ntime this + 3 * _natom this * _ntime h) by lia.
  rewrite !(resize_extend d0 (_ntime this) (_ntime h)) by assumption.
  rewrite (resize_extend d0 (3 * _natom this * _ntime this)) by (auto; nia).
  eexists. split; [reflexivity|].
  cbn [base _ntime _ekin _temperature _pressure _entropy _velocities].
  repeat split.
  change (_ntime (HistData_plus_assign this h))
    with (u32 (_ntime this + _ntime h)).
  apply u32_small. lia.
Qed.

Lemma filled_time_head (s : HistDataMD D) (rest : list D) :
  size (_time s) = _ntime s -> 1 < _ntime s ->
  vget (_time s ++ rest) 1 = vget (_time s) 1 /\
  vget (_time s ++ rest) 0 = vget (_time s) 0.
Proof.
  unfold size. intros Hsize Hn.
  destruct (_time s) as [|t0 [|t1 r]]; cbn [length] in Hsize; try lia.
  split; reflexivity.
Qed.

(** The merge entered through [operator+=(HistData&)] with an MD operand
    gives the same store as the direct [operator+=(HistDataMD&)], and
    prints the same warnings when the base store has at least two
    frames. *)
Theorem merge_entry_points_agree (this hist : HistDataMD D) :
  mergeable this hist -> order_usable this hist ->
  exists r out out',
    operator_plus_assign this hist = Ok (r, hist, out) /\
    operator_plus_assign_HistData this (MD hist) = Ok (r, MD hist, out') /\
    (2 <= _ntime this -> out' = out).
Proof.
  intros Hm Hu.
  destruct (merge_result this hist Hm Hu)
    as (out1 & order & reorder & vel2 & Hout1 & Hmap & Hdirect & Hperm & Hrun).
  pose proof Hm as (Hs & Hh & Hv & Hhv & Hnatom & Hrep).
  pose proof Hs as (Hn0 & Htime & Hekin & Htemp & Hpress & Hentr).
  pose proof Hh as (Hhn0 & Hhtime & Hhekin & Hhtemp & Hhpress & Hhentr).
  destruct Hv as (Hna & Hnt & Hvel).
  destruct Hhv as (_ & Hhnt & Hhvel).
  assert (Hsum : 0 <= _ntime this + _ntime hist < 2 ^ 32) by nia.
  set (B := HistData_plus_assign this hist).
  (* the head of the merge after the base class has run *)
  assert (Hcheck : exists out1',
             check_dtion (with_base this B) hist = Ok out1' /\
             (2 <= _ntime this -> out1' = out1)).
  { unfold check_dtion in *.
    cbn [with_base base _ntime _time B HistData_plus_assign].
    rewrite (u32_small (_ntime this + _ntime hist)) by lia.
    destruct (Z.ltb_spec 1 (_ntime hist)) as [Hh2|Hh1].
    - destruct (Z.ltb_spec 1 (_ntime this + _ntime hist)) as [_|]; [|lia].
      cbn [andb].
      destruct (Z.ltb_spec 1 (_ntime this)) as [Hn2|Hn1]; cbn [andb] in Hout1.
      + destruct (filled_time_head this (_time hist) Htime Hn2) as [-> ->].
        eexists. split; [exact Hout1 | reflexivity].
      + assert (Hone : _ntime this = 1) by lia.
        destruct (vget_in_range (_time this ++ _time hist) 1) as (a & Ha).
        { unfold size in *. rewrite length_app. lia. }
        destruct (vget_in_range (_time this ++ _time hist) 0) as (b & Hb).
        { unfold size in *. rewrite length_app. lia. }
        destruct (vget_in_range (_time hist) 1) as (c & Hc); [lia|].
        destruct (vget_in_range (_time hist) 0) as (d & Hd); [lia|].
        rewrite Ha, Hb, Hc, Hd. cbn [bind].
        eexists. split; [reflexivity | lia].
    - rewrite andb_false_r in *. injection Hout1 as <-.
      eexists. split; [reflexivity | reflexivity]. }
  destruct Hcheck as (out1' & Hout1' & Hsame).
  assert (Hgeneric :
            operator_plus_assign (with_base this B) hist =
            Ok ({| base := B;
                   _ekin := _ekin this ++ _ekin hist;
                   _velocities := vel2;
                   _temperature := _temperature this ++ _temperature hist;
                   _pressure := _pressure this ++ _pressure hist;
                   _entropy :=
                     _entropy this ++ repeat d0 (Z.to_nat (_ntime hist)) |},
                hist,
                out1' ++ check_mean warn_temperature (_temperature this)
                           (_temperature hist)
                      ++ check_mean warn_pressure (_pressure this)
                           (_pressure hist))).
  { rewrite (merge_unfold this hist Hm) in Hrun.
    rewrite Hout1, Hmap in Hrun. cbn [bind] in Hrun.
    unfold operator_plus_assign. cbv zeta.
    rewrite Hout1'. cbn [bind].
    cbn [with_base base _ekin _velocities _temperature _pressure _entropy].
    rewrite Htemp, (u32_small (_ntime this)) by lia.
    assert (HB : _ntime B = _ntime this + _ntime hist)
      by (apply u32_small; lia).
    assert (HBa : _natom B = _natom this) by reflexivity.
    rewrite HB.
    destruct (Z.eqb_spec (_ntime this) (_ntime this + _ntime hist)) as [|_];
      [lia|].
    rewrite ?HB, ?HBa.
    rewrite (empty_false (_velocities this)) by nia.
    rewrite (empty_false (_velocities hist)) by nia.
    cbn [xorb andb orb negb].
    rewrite !(append_by_copy d0 (_ntime this) (_ntime hist)) by assumption.
    cbn [bind]. fold B in Hmap. rewrite Hmap. cbn [bind].
    rewrite (copy_again (_ntime this)) by assumption.
    rewrite (resize_extend d0 (_ntime this) (_ntime hist)) by assumption.
    unfold _xyz.
    rewrite (u32_small (_ntime this * _natom this * 3)) by nia.
    rewrite (u32_small ((_ntime this + _ntime hist) * _natom this * 3)) by nia.
    replace ((_ntime this + _ntime hist) * _natom this * 3)
      with (3 * _natom this * _ntime this + 3 * _natom this * _ntime hist)
      by lia.
    replace (_ntime this * _natom this * 3)
      with (3 * _natom this * _ntime this) by lia.
    rewrite (resize_extend d0 (3 * _natom this * _ntime this)) by (auto; nia).
    rewrite (empty_false (_velocities this)) by nia.
    rewrite (empty_false (_velocities hist)) by nia.
    cbn [orb negb bind].
    rewrite (copy_over_pad (3 * _natom this * _ntime this))
      by (try rewrite repeat_length; unfold size in *; nia).
    rewrite with_velocities_same.
    destruct (if negb reorder then _ else _) as [v| |]; cbn [bind] in *;
      try discriminate.
    injection Hrun as ->. reflexivity. }
  do 3 eexists. split; [exact Hrun|]. split.
  - unfold operator_plus_assign_HistData. cbv zeta.
    cbn [operand_base]. fold B. rewrite Hgeneric. cbn [bind]. reflexivity.
  - intros Hn2. rewrite (Hsame Hn2). reflexivity.
Qed.

End StoreProperties.

(** ** Autocorrelation and spectrum *)

Section SpectrumErrors.
Context {D : Type} {arith : Double D} {env : Platform D}.

Lemma vadd_never_throws (v : list D) (i : Z) (x : D) (e : Exception) :
  vadd v i x <> Throw e.
Proof.
  unfold vadd. apply bind_never_throws; [apply vget_never_throws|].
  intros a e0. apply vset_never_throws.
Qed.

Lemma accumulate_lag_never_throws (this : HistData D) (fullvacf : list D)
  (itau : Z) (e : Exception) :
  accumulate_lag this fullvacf itau <> Throw e.
Proof.
  unfold accumulate_lag. cbv zeta.
  apply for_loop_never_throws. intros iatom v e0.
  apply for_loop_never_throws. intros c v0 e1.
  apply bind_never_throws; [apply vget_never_throws|]. intros x e2.
  apply bind_never_throws; [intros e3; apply vadd_never_throws|].
  intros v1 e3.
  apply bind_never_throws; [apply vget_never_throws|]. intros t e4.
  apply vadd_never_throws.
Qed.

Lemma count_types_never_throws (this : HistData D) (e : Exception) :
  count_types this <> Throw e.
Proof.
  unfold count_types.
  apply bind_never_throws; [|intros counts e0; apply vset_never_throws].
  apply for_loop_never_throws. intros iatom n e0.
  apply bind_never_throws; [apply vget_never_throws|]. intros t e1.
  apply bind_never_throws; [apply vget_never_throws|]. intros k e2.
  apply vset_never_throws.
Qed.

Lemma normalize_type_never_throws (ntypat : list Z)
  (vacf_tmp : list (list D)) (ntau ityp : Z) (e : Exception) :
  normalize_type ntypat vacf_tmp ntau ityp <> Throw e.
Proof.
  unfold normalize_type.
  apply bind_never_throws; [apply vget_never_throws|]. intros k e0.
  apply tabulate_never_throws. intros itau e1.
  apply bind_never_throws; [apply vget_never_throws|]. intros row e2.
  apply bind_never_throws; [apply vget_never_throws|]. intros x e3.
  discriminate.
Qed.

(** On a valid window the only exceptions that leave [getVACF] are the
    failures of the autocorrelation primitive, annotated and thrown
    again. *)
Theorem vacf_throws_only_acf_failures (this : HistDataMD D)
  (tbegin tend : Z) (e' : Exception) :
  vacf_ready this tbegin tend ->
  (getVACF this tbegin tend = Throw e' <->
   exists e,
     HistData_acf (velocity_window this tbegin tend) (3 * _natom this)
     = Throw e /\
     e' = ADD "VACF calculation failed" ERRDIV e).
Proof.
  intros Hready.
  pose proof Hready as (Hnatom & _ & _ & _ & _ & Hwin & Hend & Hrep).
  unfold getVACF, vacf_lags. cbv zeta.
  rewrite (velocity_window_slice this tbegin tend Hready). cbn [bind].
  rewrite (u32_small (3 * _natom this)) by nia.
  destruct (HistData_acf (velocity_window this tbegin tend)
              (3 * _natom this)) as [fullvacf|e|]; cbn [try_catch bind].
  - split; [|intros (e & [=] & _)].
    intros H. exfalso. revert H.
    destruct (3 * _natom this =? 0); [discriminate|].
    apply bind_never_throws.
    + apply bind_never_throws; [|discriminate].
      apply tabulate_never_throws. intros itau e0.
      apply accumulate_lag_never_throws.
    + intros [ntau vacf_tmp] e0.
      apply bind_never_throws; [intros e1; apply count_types_never_throws|].
      intros ntypat e1. apply tabulate_never_throws. intros ityp e2.
      apply normalize_type_never_throws.
  - split.
    + intros [= <-]. exists e. split; reflexivity.
    + intros (e0 & [= <-] & ->). reflexivity.
  - split; [discriminate | intros (e & [=] & _)].
Qed.

Lemma smear_never_throws (n : Z) (sigma : D) (out : list D) (e : Exception) :
  smear n sigma out <> Throw e.
Proof.
  unfold smear. cbv zeta.
  apply for_loop_never_throws. intros i fit e0.
  apply bind_never_throws; [apply vget_never_throws|]. intros o e1.
  apply for_loop_never_throws. intros g fit0 e2.
  apply vadd_never_throws.
Qed.

(** [getPDOS] throws in two cases only: in a build without FFTW3, always
    and with one fixed message; in a build with FFTW3, what [getVACF]
    throws, unchanged.  The transform and the smearing never throw. *)
Theorem pdos_throws_without_fftw_or_as_vacf (this : HistDataMD D)
  (tbegin tend : Z) (tsmear : D) (e' : Exception) :
  getPDOS this tbegin tend tsmear = Throw e' <->
  (HAVE_FFTW3 = false /\
   e' = EXCEPTION "FFTW3 is needed to compute the PDOS" ERRDIV) \/
  (HAVE_FFTW3 = true /\ getVACF this tbegin tend = Throw e').
Proof.
  unfold getPDOS. destruct HAVE_FFTW3; cbn [negb].
  - destruct (getVACF this tbegin tend) as [pdos|e|]; cbn [bind].
    + split; [|intros [[[=] _]|[_ [=]]]].
      intros H. exfalso. revert H.
      apply bind_never_throws; [destruct pdos; discriminate|].
      intros first e0. cbv zeta.
      destruct (dltb d0 tsmear); [|discriminate].
      apply tabulate_never_throws. intros u e1.
      apply bind_never_throws; [apply vget_never_throws|].
      intros out e2. apply smear_never_throws.
    + split.
      * intros [= <-]. right. split; reflexivity.
      * intros [[[=] _]|[_ [= <-]]]. reflexivity.
    + split; [discriminate | intros [[[=] _]|[_ [=]]]].
  - split.
    + intros [= <-]. left. split; reflexivity.
    + intros [[_ ->]|[[=] _]]. reflexivity.
Qed.

Section ExactSpectrum.
Hypothesis exact_arith : ExactArith D.

(** On a valid window [getVACF] returns one series for all atoms and one
    per species, each with one value per lag: as many lags as the
    autocorrelation returned full blocks of [3*natom] values. *)
Theorem vacf_has_one_series_per_species (this : HistDataMD D)
  (tbegin tend : Z) (fullvacf : list D) :
  vacf_ready this tbegin tend ->
  HistData_acf (velocity_window this tbegin tend) (3 * _natom this)
    = Ok fullvacf ->
  size fullvacf <= 3 * _natom this * (tend - tbegin) ->
  exists vacf,
    getVACF this tbegin tend = Ok vacf /\
    size vacf = size (_znucl this) + 1 /\
    Forall (fun series => size series = size fullvacf / (3 * _natom this))
      vacf.
Proof.
  intros Hready Hacf Hlags.
  destruct (vacf_lags_spec exact_arith this tbegin tend fullvacf Hready Hacf
              Hlags) as (vacf_tmp & Hrun & Hlen & Hrows).
  pose proof Hready as (Hnatom & Htypat & Hvalid & Hpresent & Hvel & Hwin
                        & Hend & Hrep).
  assert (H3n : 0 < 3 * _natom this < 2 ^ 31) by nia.
  destruct (count_types_spec this) as (counts & Hcounts & Hclen & _);
    auto; try lia.
  set (ntau := size fullvacf / (3 * _natom this)) in *.
  assert (Hntau : 0 <= ntau)
    by (apply Z.div_pos; [unfold size|]; lia).
  unfold getVACF. rewrite Hrun. cbn [bind]. rewrite Hcounts. cbn [bind].
  replace (Z.to_nat (size (_znucl this) + 1)) with (S (length (_znucl this)))
    by (unfold size; lia).
  destruct (tabulate_total
              (fun _ series => length series = Z.to_nat ntau)
              (normalize_type counts vacf_tmp ntau)
              (S (length (_znucl this))) 0)
    as (vacf & Hvacf & Hvlen & Hseries).
  - intros ityp Hityp. unfold normalize_type.
    destruct (vget_in_range counts ityp) as (k & Hk);
      [unfold size; lia|].
    rewrite Hk. cbn [bind].
    destruct (tabulate_total (fun _ _ => True)
                (fun itau =>
                   row <- vget vacf_tmp itau ;;
                   x <- vget row ityp ;;
                   Ok (d0 + x / d_of_Z (i32 (3 * k)) * conversion2nm2ps2)%dbl)
                (Z.to_nat ntau) 0) as (series & Hs & Hslen & _).
    + intros itau Hitau.
      destruct (vget_in_range vacf_tmp itau) as (row & Hrow);
        [unfold size; lia|].
      rewrite Hrow. cbn [bind].
      apply vget_Some in Hrow. destruct Hrow as [_ Hrow].
      destruct (Hrows _ _ Hrow) as (h & tl & -> & Htl & _).
      destruct (vget_in_range (h :: tl) ityp) as (x & Hx);
        [unfold size; cbn [length]; lia|].
      rewrite Hx. cbn [bind]. eexists. split; [reflexivity | exact I].
    + exists series. split; [exact Hs | exact Hslen].
  - exists vacf. split; [exact Hvacf|]. split; [unfold size; lia|].
    apply Forall_forall. intros series Hin.
    apply In_nth_error in Hin. destruct Hin as (j & Hj).
    unfold size. rewrite (Hseries _ _ Hj). lia.
Qed.

End ExactSpectrum.

End SpectrumErrors.

Lemma vacf_has_one_series_per_species_witness :
  exists vacf,
    getVACF (env := Examples.swapping) Examples.three_frames 0 3 = Ok vacf /\
    size vacf = 3 /\
    Forall (fun series => size series = 1) vacf.
Proof.
  destruct (vacf_has_one_series_per_species (env := Examples.swapping)
              Qc_exact Examples.three_frames 0 3 _
              three_frames_vacf_ready eq_refl
              ltac:(vm_compute; discriminate))
    as (vacf & Hrun & Hlen & Hall).
  exists vacf. split; [exact Hrun|]. split; [exact Hlen | exact Hall].
Defined.

(** ** Harmonic thermodynamics: cutoff and normalisation *)

Section ThermoEdges.
Context {D : Type} {arith : Double D} {env : Platform D}.

Lemma vget_outside {A : Type} (v : list A) (i : Z) :
  size v <= i -> vget v i = Undefined.
Proof.
  intros Hi. unfold vget. destruct (i <? 0); [reflexivity|].
  destruct (nth_error v (Z.to_nat i)) eqn:Hn; [|reflexivity].
  exfalso. assert (Z.to_nat i < length v)%nat
    by (apply nth_error_Some; congruence).
  unfold size in Hi. lia.
Qed.

(** A trapezoid sum asked over more bins than the vector has runs off its
    end. *)
Lemma trapezoid_overrun (pdos : list D) (domega : D) :
  size pdos < 2 ^ 32 ->
  forall (n : nat) (lo : Z) (acc : D),
    0 <= lo -> (0 < n)%nat -> size pdos <= lo + Z.of_nat n ->
    for_loop n lo (fun iomega norme =>
      a <- vget pdos iomega ;;
      b <- vget pdos (u32 (iomega + 1)) ;;
      Ok (norme + (a + b) * d_lit (1 # 2) * domega)%dbl) acc = Undefined.
Proof.
  intros Hsize. induction n as [|n IH]; intros lo acc Hlo Hn Hover; [lia|].
  cbn [for_loop].
  destruct (Z_lt_le_dec lo (size pdos)) as [Hin|Hout].
  - destruct (vget_in_range pdos lo) as (a & Ha); [lia|].
    rewrite Ha. cbn [bind]. rewrite u32_small by lia.
    destruct (Z_lt_le_dec (lo + 1) (size pdos)) as [Hin'|Hout'].
    + destruct (vget_in_range pdos (lo + 1)) as (b & Hb); [lia|].
      rewrite Hb. cbn [bind]. apply IH; lia.
    + rewrite vget_outside by exact Hout'. reflexivity.
  - rewrite vget_outside by exact Hout. reflexivity.
Qed.

(** When no sample lies below the cutoff ([nmax = 0], as for
    [omegaMax = 0]), the unsigned bound [nmax-1] of the first loop is
    [UINT_MAX]: the loop reads past the end of the PDOS, whatever its
    length. *)
Theorem thermo_cutoff_below_first_bin_overruns (this : HistDataMD D)
  (pdos : list D) (T omegaMax domega : D) :
  size pdos < 2 ^ 32 ->
  bin_width this (size pdos) = Ok domega ->
  cutoff omegaMax domega (size pdos) = Ok 0 ->
  computeThermoFunctionHA this pdos T omegaMax = Undefined.
Proof.
  intros Hsize Hwidth Hcut.
  assert (Hsize0 : 0 <= size pdos) by (unfold size; lia).
  unfold computeThermoFunctionHA.
  rewrite (u32_small (size pdos)) by lia.
  rewrite Hwidth. cbn [bind].
  destruct (tabulate_total (fun _ _ => True)
              (fun itime =>
                 Ok (phys_THz2Ha * phys_Ha2eV
                     * (d_of_Z itime + d_lit (1 # 2)) * domega)%dbl)
              (length pdos) 0) as (omega & Homega & Hlen & _).
  { intros i _. eexists. split; [reflexivity | exact I]. }
  rewrite Homega. cbn [bind]. rewrite Hcut. cbn [bind].
  change (u32 (0 - 1)) with 4294967295.
  unfold trapezoid. rewrite trapezoid_overrun; try reflexivity; try lia.
Qed.

End ThermoEdges.

Lemma thermo_cutoff_below_first_bin_overruns_witness :
  computeThermoFunctionHA (env := Examples.swapping) Examples.three_frames
    [Examples.q 1; Examples.q 2; Examples.q 3] (Examples.q 300) 0%Qc
  = Undefined.
Proof.
  eapply (thermo_cutoff_below_first_bin_overruns (env := Examples.swapping));
    [ vm_compute; reflexivity | reflexivity | reflexivity ].
Defined.


(** ** Average over a window *)

Section AverageProperties.
Context {D : Type} {arith : Double D} {env : Platform D}.

Lemma channel_snoc (v : list D) (stride val tbegin time : Z) :
  tbegin <= time ->
  channel v stride val tbegin (time + 1)
  = channel v stride val tbegin time
    ++ [nth (Z.to_nat (time * stride + val)) v d0].
Proof.
  intros Ht. unfold channel.
  replace (Z.to_nat (time + 1 - tbegin)) with (S (Z.to_nat (time - tbegin)))
    by lia.
  rewrite seq_S, map_app. cbn [map Nat.add].
  rewrite Z2Nat.id by lia.
  replace (tbegin + (time - tbegin)) with time by lia. reflexivity.
Qed.

Lemma channel_empty (v : list D) (stride val tbegin : Z) :
  channel v stride val tbegin tbegin = [].
Proof. unfold channel. rewrite Z.sub_diag. reflexivity. Qed.

(** One frame added to the running velocities. *)
Lemma accumulate_velocities (vel : list D) (natom time : Z) (inv : D)
  (v : list D) :
  0 <= natom -> 0 <= time -> size v = 3 * natom ->
  (time + 1) * (3 * natom) <= size vel ->
  (time + 1) * (3 * natom) < 2 ^ 32 ->
  exists v',
    for_loop (Z.to_nat (3 * natom)) 0 (fun val v =>
      x <- vget vel (u32 (time * 3 * natom + val)) ;;
      vadd v val (x * inv)%dbl) v = Ok v' /\
    size v' = 3 * natom /\
    forall val, 0 <= val < 3 * natom ->
      slot v' val
      = Some (nth (Z.to_nat val) v d0
              + nth (Z.to_nat (time * (3 * natom) + val)) vel d0 * inv)%dbl.
Proof.
  intros Hs Htime Hv Hvel Hrep.
  destruct (for_loop_invariant
              (fun k w =>
                 size w = 3 * natom /\
                 (forall val, 0 <= val < k ->
                    slot w val
                    = Some (nth (Z.to_nat val) v d0
                            + nth (Z.to_nat (time * (3 * natom) + val)) vel d0
                              * inv)%dbl)
                 /\ (forall val, k <= val -> slot w val = slot v val))
              (fun val v =>
                 x <- vget vel (u32 (time * 3 * natom + val)) ;;
                 vadd v val (x * inv)%dbl)
              0 (Z.to_nat (3 * natom)) v) as (v' & Hrun & Hlen & Hdone & _).
  - split; [exact Hv|]. split; [intros; lia | reflexivity].
  - intros k w. rewrite Z2Nat.id by lia. intros Hk (Hlen & Hdone & Hrest).
    rewrite u32_small by nia.
    replace (time * 3 * natom + k) with (time * (3 * natom) + k) by lia.
    destruct (vget_in_range vel (time * (3 * natom) + k)) as (x & Hx); [nia|].
    rewrite Hx. cbn [bind]. unfold vadd.
    destruct (vget_in_range w k) as (a & Ha); [lia|].
    rewrite Ha. cbn [bind]. rewrite vset_Ok by lia.
    eexists. split; [reflexivity|].
    split; [unfold size in *; rewrite length_update; exact Hlen|].
    apply vget_Some in Hx, Ha. destruct Hx as [_ Hx]. destruct Ha as [_ Ha].
    split.
    + intros val Hval. destruct (Z.eq_dec val k) as [->|Hne].
      * unfold slot. rewrite nth_error_update_eq by (unfold size in *; lia).
        rewrite (nth_error_nth _ _ d0 Hx).
        assert (Hold : slot v k = Some a)
          by (rewrite <- Hrest by lia; exact Ha).
        unfold slot in Hold. rewrite (nth_error_nth _ _ d0 Hold).
        reflexivity.
      * unfold slot. rewrite nth_error_update_neq by lia.
        apply Hdone. lia.
    + intros val Hval. unfold slot. rewrite nth_error_update_neq by lia.
      apply Hrest. lia.
  - exists v'. rewrite Z2Nat.id in Hdone by lia.
    split; [exact Hrun|]. split; [exact Hlen|].
    intros val Hval. apply Hdone. lia.
Qed.

Section AverageOfFrames.
Variable HistData_myAverage :
  HistDataMD D -> Z -> Z -> Outcome (HistDataMD D).

Lemma scaled_sum_snoc (inv : D) (l : list D) (x : D) :
  scaled_sum inv (l ++ [x]) = (scaled_sum inv l + x * inv)%dbl.
Proof. unfold scaled_sum. rewrite fold_left_app. reflexivity. Qed.

(** One frame added to a running scalar. *)
Lemma accumulate_scalar (x : list D) (tbegin time : Z) (inv : D) :
  0 <= tbegin <= time -> time < size x ->
  exists e,
    vget x time = Ok e /\
    vadd [scaled_sum inv (channel x 1 0 tbegin time)] 0 (e * inv)%dbl
    = Ok [scaled_sum inv (channel x 1 0 tbegin (time + 1))].
Proof.
  intros Ht Hsize.
  destruct (vget_in_range x time) as (e & He); [lia|].
  exists e. split; [exact He|].
  rewrite vadd_head. do 2 f_equal.
  rewrite channel_snoc by lia. rewrite scaled_sum_snoc.
  apply vget_Some in He. destruct He as [_ He].
  replace (time * 1 + 0) with time by lia.
  rewrite (nth_error_nth _ _ d0 He). reflexivity.
Qed.

(** On a window of a filled store that [checkTimes] accepts, [average]
    returns a store whose MD part holds one value per scalar series and
    [3*natom] velocity components.  Each is the running sum, from 0 and in
    the order of the frames, of the frame values multiplied one by one by
    [1/(tend-tbegin)]: the code scales every frame by the inverse count, it
    does not divide the sum. *)
Theorem average_accumulates_scaled_frames (this av0 : HistDataMD D)
  (tbegin tend : Z) :
  HistData_checkTimes this tbegin tend = Ok tt ->
  HistData_myAverage this tbegin tend = Ok av0 ->
  md_series_empty av0 ->
  series_filled this ->
  size (_velocities this) = 3 * _natom this * _ntime this ->
  0 < _natom this -> 3 * _natom this * _ntime this < 2 ^ 32 ->
  0 <= tbegin < tend -> tend <= _ntime this ->
  let inv := (d1 / d_of_Z (tend - tbegin))%dbl in
  exists r,
    average HistData_myAverage this tbegin tend = Ok r /\
    base r = base av0 /\
    _ekin r = [scaled_sum inv (channel (_ekin this) 1 0 tbegin tend)] /\
    _temperature r
    = [scaled_sum inv (channel (_temperature this) 1 0 tbegin tend)] /\
    _pressure r
    = [scaled_sum inv (channel (_pressure this) 1 0 tbegin tend)] /\
    _entropy r
    = [scaled_sum inv (channel (_entropy this) 1 0 tbegin tend)] /\
    size (_velocities r) = 3 * _natom this /\
    forall val, 0 <= val < 3 * _natom this ->
      slot (_velocities r) val
      = Some (scaled_sum inv
                (channel (_velocities this) (3 * _natom this) val tbegin
                   tend)).
Proof.
  intros Hcheck Hav (Eekin & Evel & Etemp & Epress & Eentr)
         (Hn0 & Htime & Hekin & Htemp & Hpress & Hentr) Hvel Hnatom Hrep
         Hwin Hend inv.
  unfold average. rewrite Hcheck, Hav. cbn [bind]. cbv zeta.
  rewrite Eekin, Evel, Etemp, Epress, Eentr.
  rewrite (u32_small (tend - tbegin)) by nia.
  unfold _xyz. rewrite (u32_small (3 * _natom this)) by nia.
  fold inv.
  set (s := 3 * _natom this) in *.
  destruct (for_loop_invariant
              (fun time av =>
                 tbegin <= time /\
                 base av = base av0 /\
                 _ekin av
                 = [scaled_sum inv (channel (_ekin this) 1 0 tbegin time)]
                 /\ _temperature av
                 = [scaled_sum inv
                      (channel (_temperature this) 1 0 tbegin time)]
                 /\ _pressure av
                 = [scaled_sum inv
                      (channel (_pressure this) 1 0 tbegin time)]
                 /\ _entropy av
                 = [scaled_sum inv
                      (channel (_entropy this) 1 0 tbegin time)]
                 /\ size (_velocities av) = s
                 /\ forall val, 0 <= val < s ->
                      slot (_velocities av) val
                      = Some (scaled_sum inv
                                (channel (_velocities this) s val tbegin
                                   time)))
              (accumulate_frame this inv) tbegin
              (Z.to_nat (tend - tbegin))
              {| base := base av0;
                 _ekin := resize d0 1 [];
                 _velocities := resize d0 s [];
                 _temperature := resize d0 1 [];
                 _pressure := resize d0 1 [];
                 _entropy := resize d0 1 [] |})
    as (r & Hrun & _ & Hbase & Rekin & Rtemp & Rpress & Rentr & Rlen & Rvel).
  - cbn [base _ekin _velocities _temperature _pressure _entropy].
    rewrite !channel_empty.
    split; [lia|]. split; [reflexivity|].
    do 4 (split; [reflexivity|]).
    split; [unfold size; rewrite length_resize; lia|].
    intros val Hval. rewrite channel_empty.
    unfold slot, resize. rewrite firstn_nil. cbn [app length].
    apply nth_error_repeat. lia.
  - intros time av. rewrite Z2Nat.id by lia.
    intros Ht (_ & Hb & Aekin & Atemp & Apress & Aentr & Alen & Avel).
    unfold accumulate_frame. cbv zeta.
    rewrite (u32_small (3 * _natom this)) by (unfold s in *; nia).
    destruct (accumulate_velocities (_velocities this) (_natom this) time inv
                (_velocities av)) as (v' & Hv' & Hlen' & Hslots);
      try (unfold s in *; nia); auto.
    rewrite Hv'. cbn [bind].
    destruct (accumulate_scalar (_ekin this) tbegin time inv)
      as (e & He & Hekin'); try lia.
    destruct (accumulate_scalar (_temperature this) tbegin time inv)
      as (t & Ht' & Htemp'); try lia.
    destruct (accumulate_scalar (_pressure this) tbegin time inv)
      as (p & Hp & Hpress'); try lia.
    destruct (accumulate_scalar (_entropy this) tbegin time inv)
      as (en & Hen & Hentr'); try lia.
    rewrite He, Aekin. cbn [bind]. rewrite Hekin'. cbn [bind].
    rewrite Ht', Atemp. cbn [bind]. rewrite Htemp'. cbn [bind].
    rewrite Hp, Apress. cbn [bind]. rewrite Hpress'. cbn [bind].
    rewrite Hen, Aentr. cbn [bind]. rewrite Hentr'. cbn [bind].
    eexists. split; [reflexivity|].
    cbn [base _ekin _velocities _temperature _pressure _entropy].
    split; [lia|]. split; [exact Hb|].
    do 4 (split; [reflexivity|]).
    split; [exact Hlen'|].
    intros val Hval. rewrite (Hslots val Hval).
    rewrite channel_snoc by lia. rewrite scaled_sum_snoc.
    pose proof (Avel val Hval) as Hold. unfold slot in Hold.
    rewrite (nth_error_nth _ _ d0 Hold). unfold s.
    replace (time * (3 * _natom this) + val)
      with (time * (3 * _natom this) + val) by lia.
    reflexivity.
  - replace (tbegin + Z.of_nat (Z.to_nat (tend - tbegin))) with tend in *
      by lia.
    exists r. split; [exact Hrun|]. split; [exact Hbase|].
    split; [exact Rekin|]. split; [exact Rtemp|].
    split; [exact Rpress|]. split; [exact Rentr|].
    split; [exact Rlen|]. exact Rvel.
Qed.

End AverageOfFrames.

End AverageProperties.

(** ** Finite differences *)

Section EstimatorProperties.
Context {D : Type} {arith : Double D} {env : Platform D}
        {chem : Chemistry D}.

Lemma difference_velocities_spec (traj : Trajectory D)
  (natom T : Z) (central : bool) (dtion : D) (frame hi lo : Z)
  (vel : list D) :
  0 < natom -> 0 <= frame < T -> 0 <= hi < T -> 0 <= lo < T ->
  size (_xcart traj) = 3 * natom * T -> size vel = 3 * natom * T ->
  3 * natom * T < 2 ^ 32 ->
  exists v,
    difference_velocities traj natom central dtion frame hi lo vel = Ok v /\
    length v = length vel /\
    (forall a c, 0 <= a < natom -> 0 <= c < 3 ->
       velocity v natom frame a c
       = Some (difference central dtion (position traj natom hi a c)
                 (position traj natom lo a c))) /\
    (forall t a c, 0 <= t -> t <> frame -> 0 <= a < natom -> 0 <= c < 3 ->
       velocity v natom t a c = velocity vel natom t a c).
Proof.
  intros Hnatom Hframe Hhi Hlo Hx Hvel Hrep.
  unfold difference_velocities.
  pose (Inv := fun (L : Z) (v : list D) =>
    length v = length vel /\
    (forall a c, 0 <= a < natom -> 0 <= c < 3 -> a * 3 + c < L ->
       velocity v natom frame a c
       = Some (difference central dtion (position traj natom hi a c)
                 (position traj natom lo a c))) /\
    (forall t a c, 0 <= t -> t <> frame -> 0 <= a < natom -> 0 <= c < 3 ->
       velocity v natom t a c = velocity vel natom t a c)).
  destruct (for_loop_invariant (fun a v => Inv (a * 3) v)
              (fun iatom v =>
                 for_loop 3 0 (fun c v =>
                   a <- vget (_xcart traj) (u32 ((hi * natom + iatom) * 3 + c)) ;;
                   b <- vget (_xcart traj) (u32 ((lo * natom + iatom) * 3 + c)) ;;
                   vset v (u32 (frame * 3 * natom + iatom * 3 + c))
                     (if central then (d_lit (1 # 2) * (a - b) / dtion)%dbl
                      else ((a - b) / dtion)%dbl)) v)
              0 (Z.to_nat natom) vel) as (v & Hv & HI).
  - split; [reflexivity|]. split; [intros; lia | reflexivity].
  - intros a v0. rewrite Z2Nat.id by lia. intros Ha HIa.
    destruct (for_loop_invariant (fun c v => Inv (a * 3 + c) v)
                (fun c v =>
                   x <- vget (_xcart traj) (u32 ((hi * natom + a) * 3 + c)) ;;
                   y <- vget (_xcart traj) (u32 ((lo * natom + a) * 3 + c)) ;;
                   vset v (u32 (frame * 3 * natom + a * 3 + c))
                     (if central then (d_lit (1 # 2) * (x - y) / dtion)%dbl
                      else ((x - y) / dtion)%dbl))
                0 3 v0) as (v1 & Hv1 & HI1).
    + rewrite Z.add_0_r. exact HIa.
    + intros c v2 Hc (Hlen & Hdone & Hrest). cbn in Hc.
      rewrite !u32_small by nia.
      destruct (vget_in_range (_xcart traj) ((hi * natom + a) * 3 + c))
        as (x & Hxv); [nia|].
      destruct (vget_in_range (_xcart traj) ((lo * natom + a) * 3 + c))
        as (y & Hyv); [nia|].
      rewrite Hxv, Hyv. cbn [bind].
      rewrite vset_Ok by (unfold size in *; nia).
      eexists. split; [reflexivity|].
      split; [rewrite length_update; exact Hlen|].
      apply vget_Some in Hxv, Hyv.
      destruct Hxv as [_ Hxv]. destruct Hyv as [_ Hyv].
      split.
      * intros a' c' Ha' Hc' HL. unfold velocity.
        destruct (Z.eq_dec (a' * 3 + c') (a * 3 + c)) as [Heq|Hne].
        -- assert (a' = a /\ c' = c) as [-> ->] by lia.
           rewrite nth_error_update_eq by (unfold size in *; nia).
           unfold difference, position.
           rewrite (nth_error_nth _ _ d0 Hxv), (nth_error_nth _ _ d0 Hyv).
           reflexivity.
        -- rewrite nth_error_update_neq by nia.
           apply Hdone; try assumption. lia.
      * intros t a' c' Ht Hne Ha' Hc'. unfold velocity.
        rewrite nth_error_update_neq.
        -- apply Hrest; assumption.
        -- intros Heq. apply Hne.
           assert (Hp := position_inj natom frame a c t a' c').
           destruct Hp as (-> & _); try lia.
    + exists v1. split; [exact Hv1|].
      replace ((a + 1) * 3) with (a * 3 + (0 + Z.of_nat 3)) by lia.
      exact HI1.
  - exists v. split; [exact Hv|].
    destruct HI as (Hlen & Hdone & Hrest).
    split; [exact Hlen|]. split; [|exact Hrest].
    intros a c Ha Hc. apply Hdone; try assumption. lia.
Qed.

Lemma estimable_with_velocities (traj : Trajectory D) (this : HistDataMD D)
  (v : list D) :
  estimable traj this -> length v = length (_velocities this) ->
  estimable traj (with_velocities_of this v).
Proof.
  intros (H1 & H2 & H3 & H4 & H5 & H6 & H7 & H8 & H9 & H10 & H11 & H12 & H13)
         Hlen.
  unfold estimable, with_velocities_of, size in *.
  cbn [base _velocities _temperature _pressure].
  rewrite Hlen. repeat split; assumption.
Qed.

Lemma squared_velocity_total (this : HistDataMD D) (itime iatom : Z) :
  0 < _natom this -> 0 <= itime < _ntime this -> 0 <= iatom < _natom this ->
  size (_velocities this) = 3 * _natom this * _ntime this ->
  3 * _natom this * _ntime this < 2 ^ 32 ->
  exists v2, squared_velocity this itime iatom = Ok v2.
Proof.
  intros Hnatom Hitime Hiatom Hvel Hrep. unfold squared_velocity.
  destruct (for_loop_total (fun _ => True)
              (fun c v2 =>
                 x <- vget (_velocities this)
                        (u32 (itime * _natom this * 3 + iatom * 3 + c)) ;;
                 Ok (v2 + x * x)%dbl) 0 3 d0 I) as (v2 & Hv2 & _).
  - intros c s Hc _. cbn in Hc. rewrite u32_small by nia.
    destruct (vget_in_range (_velocities this)
                (itime * _natom this * 3 + iatom * 3 + c)) as (x & Hx); [nia|].
    rewrite Hx. cbn [bind]. eexists. split; [reflexivity | exact I].
  - exists v2. exact Hv2.
Qed.

(** [computePressureTemperature] writes slot [itime] of the temperature
    and of the pressure, and nothing else. *)
Lemma computePressureTemperature_spec (traj : Trajectory D)
  (this : HistDataMD D) (itime : Z) :
  estimable traj this -> 0 <= itime < _ntime this ->
  exists r,
    computePressureTemperature traj this itime = Ok r /\
    base r = base this /\
    _ekin r = _ekin this /\
    _velocities r = _velocities this /\
    _entropy r = _entropy this /\
    length (_temperature r) = length (_temperature this) /\
    length (_pressure r) = length (_pressure this) /\
    (forall j, 0 <= j -> j <> itime ->
       slot (_temperature r) j = slot (_temperature this) j) /\
    (forall j, 0 <= j -> j <> itime ->
       slot (_pressure r) j = slot (_pressure this) j).
Proof.
  intros (Hnatom & Hn0 & Htypat & Hznucl & Hvalid & Hmass & Hx & Hvel & Hcell
          & Hstress & Htemp & Hpress & Hrep) Hitime.
  unfold computePressureTemperature. cbv zeta.
  rewrite (u32_small (itime * 9)) by nia.
  unfold slice.
  destruct (Z.leb_spec 0 (itime * 9)); [|lia].
  destruct (Z.leb_spec (itime * 9) (itime * 9 + 9)); [|lia].
  destruct (Z.leb_spec (itime * 9 + 9) (size (_rprimd traj))); [|lia].
  cbn [andb bind].
  rewrite vset_Ok by lia. cbn [bind].
  set (t0 := update (Z.to_nat itime) d0 (_temperature this)).
  destruct (for_loop_total
              (fun temperature =>
                 length temperature = length (_temperature this) /\
                 forall j, 0 <= j -> j <> itime ->
                   slot temperature j = slot (_temperature this) j)
              (fun iatom temperature =>
                 t <- vget (_typat this) iatom ;;
                 z <- vget (_znucl this) (i32 (t - 1)) ;;
                 m <- vget MendeTable_mass z ;;
                 v2 <- squared_velocity this itime iatom ;;
                 vadd temperature itime (m * phys_amu_emass * v2)%dbl)
              0 (Z.to_nat (_natom this)) t0)
    as (t1 & Ht1 & Hlen1 & Hrest1).
  - unfold t0. split; [apply length_update|].
    intros j Hj Hne. unfold slot. apply nth_error_update_neq. lia.
  - intros iatom temperature. rewrite Z2Nat.id by lia.
    intros Hiatom (Hlen & Hrest).
    destruct (vget_in_range (_typat this) iatom) as (t & Ht); [lia|].
    rewrite Ht. cbn [bind].
    apply vget_Some in Ht. destruct Ht as [_ Ht].
    apply nth_error_In in Ht.
    rewrite Forall_forall in Hvalid. specialize (Hvalid _ Ht).
    rewrite i32_small by lia.
    destruct (vget_in_range (_znucl this) (t - 1)) as (z & Hz); [lia|].
    rewrite Hz. cbn [bind].
    apply vget_Some in Hz. destruct Hz as [_ Hz].
    apply nth_error_In in Hz.
    rewrite Forall_forall in Hmass. specialize (Hmass _ Hz).
    destruct (vget_in_range MendeTable_mass z) as (m & Hm); [lia|].
    rewrite Hm. cbn [bind].
    destruct (squared_velocity_total this itime iatom) as (v2 & Hv2);
      try assumption; try nia.
    rewrite Hv2. cbn [bind]. unfold vadd.
    destruct (vget_in_range temperature itime) as (a & Ha);
      [unfold size in *; lia|].
    rewrite Ha. cbn [bind]. rewrite vset_Ok by (unfold size in *; lia).
    eexists. split; [reflexivity|].
    split; [rewrite length_update; exact Hlen|].
    intros j Hj Hne. unfold slot. rewrite nth_error_update_neq by lia.
    apply Hrest; assumption.
  - rewrite Ht1. cbn [bind].
    destruct (vget_in_range t1 itime) as (T1 & HT1); [unfold size in *; lia|].
    rewrite HT1. cbn [bind]. rewrite vset_Ok by (unfold size in *; lia).
    cbn [bind].
    rewrite !u32_small by nia.
    destruct (vget_in_range (_stress traj) (itime * 6)) as (s0 & Hs0); [lia|].
    destruct (vget_in_range (_stress traj) (itime * 6 + 1)) as (s1 & Hs1);
      [lia|].
    destruct (vget_in_range (_stress traj) (itime * 6 + 2)) as (s2 & Hs2);
      [lia|].
    rewrite Hs0, Hs1, Hs2. cbn [bind].
    destruct (vget_in_range
                (update (Z.to_nat itime)
                   (T1 * (phys_Ha / (d_lit 3 * phys_kB * d_of_Z (_natom this))))%dbl
                   t1) itime) as (T2 & HT2).
    { unfold size in *. rewrite length_update. lia. }
    rewrite HT2. cbn [bind]. rewrite vset_Ok by lia. cbn [bind].
    eexists. split; [reflexivity|].
    cbn [base _ekin _velocities _temperature _pressure _entropy].
    do 4 (split; [reflexivity|]).
    split; [rewrite length_update; exact Hlen1|].
    split; [apply length_update|].
    split.
    + intros j Hj Hne. unfold slot. rewrite nth_error_update_neq by lia.
      apply Hrest1; assumption.
    + intros j Hj Hne. unfold slot. apply nth_error_update_neq. lia.
Qed.

(** One block of the estimator: the velocities of [frame] by finite
    difference, then its temperature and pressure. *)
Lemma estimate_frame (traj : Trajectory D) (this : HistDataMD D)
  (central : bool) (dtion : D) (frame hi lo : Z) :
  estimable traj this ->
  0 <= frame < _ntime this -> 0 <= hi < _ntime this ->
  0 <= lo < _ntime this ->
  exists r,
    (v <- difference_velocities traj (_natom this) central dtion frame hi lo
            (_velocities this) ;;
     computePressureTemperature traj (with_velocities_of this v) frame)
    = Ok r /\
    estimable traj r /\
    base r = base this /\ _ekin r = _ekin this /\ _entropy r = _entropy this /\
    (forall a c, 0 <= a < _natom this -> 0 <= c < 3 ->
       velocity (_velocities r) (_natom this) frame a c
       = Some (difference central dtion
                 (position traj (_natom this) hi a c)
                 (position traj (_natom this) lo a c))) /\
    (forall t a c, 0 <= t -> t <> frame -> 0 <= a < _natom this ->
       0 <= c < 3 ->
       velocity (_velocities r) (_natom this) t a c
       = velocity (_velocities this) (_natom this) t a c) /\
    (forall j, 0 <= j -> j <> frame ->
       slot (_temperature r) j = slot (_temperature this) j /\
       slot (_pressure r) j = slot (_pressure this) j).
Proof.
  intros Hest Hframe Hhi Hlo.
  pose proof Hest as (Hnatom & Hn0 & Htypat & Hznucl & Hvalid & Hmass & Hx
                      & Hvel & Hcell & Hstress & Htemp & Hpress & Hrep).
  destruct (difference_velocities_spec traj (_natom this) (_ntime this)
              central dtion frame hi lo (_velocities this))
    as (v & Hv & Hlen & Hnew & Hold); try assumption; try nia.
  rewrite Hv. cbn [bind].
  pose proof (estimable_with_velocities traj this v Hest Hlen) as Hest'.
  destruct (computePressureTemperature_spec traj (with_velocities_of this v)
              frame Hest' Hframe)
    as (r & Hr & Hbase & Hekin & Hrvel & Hentr & Hlt & Hlp & Htr & Hpr).
  exists r. split; [exact Hr|].
  cbn [with_velocities_of base _ekin _velocities _temperature _pressure
       _entropy] in *.
  split.
  { unfold estimable, size in *.
    rewrite Hbase, Hrvel, Hlt, Hlp, Hlen. repeat split; assumption. }
  split; [exact Hbase|]. split; [exact Hekin|]. split; [exact Hentr|].
  rewrite Hrvel. split; [exact Hnew|]. split; [exact Hold|].
  intros j Hj Hne. split; [apply Htr | apply Hpr]; assumption.
Qed.

(** The call for a frame [itime >= 2] estimates frame [itime-1] by the
    central difference of the positions of its two neighbours and, when
    [itime] is the last frame, frame [itime] by the backward difference.
    No other frame of the velocities, the temperature or the pressure is
    written (frame [itime] itself is left as it was when it is not the last
    one), and the kinetic energy and the entropy are not touched. *)
Theorem estimator_central_difference_inside (traj : Trajectory D)
  (this : HistDataMD D) (itime : Z) (dtion : D) :
  estimable traj this -> 2 <= itime < _ntime this ->
  exists r,
    computeVelocitiesPressureTemperature traj this itime dtion = Ok r /\
    base r = base this /\ _ekin r = _ekin this /\ _entropy r = _entropy this /\
    (forall a c, 0 <= a < _natom this -> 0 <= c < 3 ->
       velocity (_velocities r) (_natom this) (itime - 1) a c
       = Some (d_lit (1 # 2)
               * (position traj (_natom this) itime a c
                  - position traj (_natom this) (itime - 2) a c)
               / dtion)%dbl) /\
    (itime = _ntime this - 1 ->
     forall a c, 0 <= a < _natom this -> 0 <= c < 3 ->
       velocity (_velocities r) (_natom this) itime a c
       = Some ((position traj (_natom this) itime a c
                - position traj (_natom this) (itime - 1) a c)
               / dtion)%dbl) /\
    (forall t a c, 0 <= t -> t <> itime - 1 ->
       t <> itime \/ itime <> _ntime this - 1 ->
       0 <= a < _natom this -> 0 <= c < 3 ->
       velocity (_velocities r) (_natom this) t a c
       = velocity (_velocities this) (_natom this) t a c) /\
    (forall j, 0 <= j -> j <> itime - 1 ->
       j <> itime \/ itime <> _ntime this - 1 ->
       slot (_temperature r) j = slot (_temperature this) j /\
       slot (_pressure r) j = slot (_pressure this) j).
Proof.
  intros Hest Hitime.
  pose proof Hest as (Hnatom & Hn0 & _ & _ & _ & _ & _ & _ & _ & _ & _ & _
                      & Hrep).
  unfold computeVelocitiesPressureTemperature. cbv zeta.
  destruct (Z.leb_spec 2 itime) as [_|]; [|lia].
  rewrite (u32_small (itime - 1)), (u32_small (itime - 2)) by nia.
  destruct (estimate_frame traj this true dtion (itime - 1) itime (itime - 2)
              Hest) as (r1 & Hr1 & Hest1 & Hb1 & He1 & Hs1 & Hnew1 & Hold1
                        & Hrest1); try lia.
  rewrite Hr1. cbn [bind].
  assert (Hnt1 : _ntime r1 = _ntime this) by (rewrite Hb1; reflexivity).
  assert (Hna1 : _natom r1 = _natom this) by (rewrite Hb1; reflexivity).
  rewrite Hnt1, (u32_small (_ntime this - 1)) by nia.
  destruct (Z.eqb_spec itime 1) as [|_]; [lia|].
  destruct (Z.ltb_spec 0 itime) as [_|]; [|lia].
  destruct (Z.eqb_spec itime (_ntime this - 1)) as [Hlast|Hnotlast];
    cbn [andb bind].
  - rewrite <- Hna1.
    destruct (estimate_frame traj r1 false dtion itime itime (itime - 1)
                Hest1) as (r2 & Hr2 & Hest2 & Hb2 & He2 & Hs2 & Hnew2 & Hold2
                           & Hrest2); try lia.
    rewrite Hr2. rewrite Hna1 in *.
    exists r2. split; [reflexivity|].
    split; [congruence|]. split; [congruence|]. split; [congruence|].
    split.
    { intros a c Ha Hc. rewrite Hold2 by (assumption || lia).
      apply (Hnew1 a c Ha Hc). }
    split; [intros _ a c Ha Hc; apply (Hnew2 a c Ha Hc)|].
    split.
    { intros t a c Ht Hne [Hne'|Hne'] Ha Hc; [|lia].
      rewrite Hold2 by assumption. apply Hold1; assumption. }
    intros j Hj Hne [Hne'|Hne']; [|lia].
    destruct (Hrest2 j Hj Hne') as [-> ->]. apply Hrest1; assumption.
  - exists r1. split; [reflexivity|].
    split; [exact Hb1|]. split; [exact He1|]. split; [exact Hs1|].
    split; [exact Hnew1|].
    split; [intros Heq; lia|].
    split.
    { intros t a c Ht Hne _ Ha Hc. apply Hold1; assumption. }
    intros j Hj Hne _. apply Hrest1; assumption.
Qed.

(** The velocities of frame 0 come from the call for [itime = 1], as the
    forward difference of the first two positions; with two frames only,
    frame 1 gets the same values.  The call for [itime = 0] computes
    nothing. *)
Theorem estimator_first_frame_by_forward_difference (traj : Trajectory D)
  (this : HistDataMD D) (dtion : D) :
  estimable traj this -> 2 <= _ntime this ->
  computeVelocitiesPressureTemperature traj this 0 dtion = Ok this /\
  exists r,
    computeVelocitiesPressureTemperature traj this 1 dtion = Ok r /\
    (forall a c, 0 <= a < _natom this -> 0 <= c < 3 ->
       velocity (_velocities r) (_natom this) 0 a c
       = Some ((position traj (_natom this) 1 a c
                - position traj (_natom this) 0 a c) / dtion)%dbl) /\
    (_ntime this = 2 ->
     forall a c, 0 <= a < _natom this -> 0 <= c < 3 ->
       velocity (_velocities r) (_natom this) 1 a c
       = velocity (_velocities r) (_natom this) 0 a c) /\
    (forall t a c, 2 <= t -> 0 <= a < _natom this -> 0 <= c < 3 ->
       velocity (_velocities r) (_natom this) t a c
       = velocity (_velocities this) (_natom this) t a c).
Proof.
  intros Hest Hntime.
  pose proof Hest as (Hnatom & Hn0 & _ & _ & _ & _ & _ & _ & _ & _ & _ & _
                      & Hrep).
  split.
  { unfold computeVelocitiesPressureTemperature. cbv zeta.
    cbn [Z.leb Z.compare Z.ltb Z.eqb andb bind].
    rewrite andb_false_r. reflexivity. }
  unfold computeVelocitiesPressureTemperature. cbv zeta.
  change (2 <=? 1) with false. change (1 =? 1) with true.
  change (0 <? 1) with true. change (u32 (1 - 1)) with 0.
  cbn [bind]. rewrite (u32_small (_ntime this - 1)) by nia.
  rewrite andb_true_r.
  destruct (Z.eqb_spec 1 (_ntime this - 1)) as [Htwo|Hmore]; cbn [bind].
  - destruct (estimate_frame traj this false dtion 1 1 0 Hest)
      as (r1 & Hr1 & Hest1 & Hb1 & He1 & Hs1 & Hnew1 & Hold1 & Hrest1);
      try lia.
    rewrite Hr1. cbn [bind].
    assert (Hna1 : _natom r1 = _natom this) by (rewrite Hb1; reflexivity).
    rewrite <- Hna1.
    destruct (estimate_frame traj r1 false dtion 0 1 0 Hest1)
      as (r2 & Hr2 & Hest2 & Hb2 & He2 & Hs2 & Hnew2 & Hold2 & Hrest2);
      try (rewrite ?Hb1; lia).
    rewrite Hr2. rewrite Hna1 in *.
    exists r2. split; [reflexivity|].
    split; [intros a c Ha Hc; apply (Hnew2 a c Ha Hc)|].
    split.
    + intros _ a c Ha Hc. rewrite (Hnew2 a c Ha Hc).
      rewrite Hold2 by (assumption || lia). apply (Hnew1 a c Ha Hc).
    + intros t a c Ht Ha Hc.
      rewrite Hold2 by (assumption || lia). apply Hold1; assumption || lia.
  - destruct (estimate_frame traj this false dtion 0 1 0 Hest)
      as (r1 & Hr1 & Hest1 & Hb1 & He1 & Hs1 & Hnew1 & Hold1 & Hrest1);
      try lia.
    rewrite Hr1.
    exists r1. split; [reflexivity|].
    split; [intros a c Ha Hc; apply (Hnew1 a c Ha Hc)|].
    split; [intros Heq; lia|].
    intros t a c Ht Ha Hc. apply Hold1; assumption || lia.
Qed.


End EstimatorProperties.

(** ** The properties on concrete stores *)

Ltac evaluated :=
  repeat split; vm_compute;
  try reflexivity; try discriminate; try (intros; discriminate).

Lemma constructed_store_is_zero_filled_witness :
  _ekin (HistDataMD_of (MoreExamples.reserved 2 4)) = repeat 0%Qc 4 /\
  getTemperature (HistDataMD_of (MoreExamples.reserved 2 4)) 2 = Ok 0%Qc /\
  getVel (HistDataMD_of (MoreExamples.reserved 2 4)) 2 = Ok (repeat 0%Qc 12) /\
  getEkin (HistDataMD_of (MoreExamples.reserved 2 2)) 2 = Undefined.
Proof.
  destruct (constructed_store_is_zero_filled (MoreExamples.reserved 2 4)
              ltac:(evaluated) ltac:(evaluated) ltac:(evaluated))
    as (_ & Hekin & _ & _ & _ & _ & Hread & _).
  destruct (constructed_store_is_zero_filled (MoreExamples.reserved 2 2)
              ltac:(evaluated) ltac:(evaluated) ltac:(evaluated))
    as (_ & _ & _ & _ & _ & _ & _ & Hout).
  split; [exact Hekin|].
  destruct (Hread 2 ltac:(evaluated) ltac:(evaluated))
    as (_ & Htemp & _ & Hvel).
  split; [exact Htemp|].
  split; [exact (Hvel ltac:(evaluated))|].
  apply (Hout 2); evaluated.
Defined.

Lemma assignment_keeps_former_md_values_witness :
  slot (_entropy (operator_assign Examples.three_frames
                    (MoreExamples.reserved 2 4))) 1
  = slot (_entropy Examples.three_frames) 1 /\
  slot (_entropy (operator_assign Examples.three_frames
                    (MoreExamples.reserved 2 4))) 3
  = Some 0%Qc.
Proof.
  destruct (assignment_keeps_former_md_values Examples.three_frames
              (MoreExamples.reserved 2 4) ltac:(evaluated))
    as (_ & _ & _ & _ & (_ & Hslots) & _).
  split.
  - apply (Hslots 1); evaluated.
  - apply (Hslots 3); evaluated.
Defined.

Lemma still_stores_filled :
  series_filled (MoreExamples.still 2 2) /\
  series_filled (MoreExamples.still 3 3) /\
  series_filled (MoreExamples.still 3 5) /\
  series_filled MoreExamples.two_frames_unmapped /\
  series_filled MoreExamples.three_frames_unmapped.
Proof. evaluated. Qed.


Lemma merge_zero_fills_missing_appended_velocities_witness :
  exists r out,
    operator_plus_assign (env := Examples.swapping)
      MoreExamples.two_frames_unmapped (MoreExamples.still 3 3)
    = Ok (r, with_velocities (MoreExamples.still 3 3) (repeat 0%Qc 18), out) /\
    _velocities r
    = _velocities MoreExamples.two_frames_unmapped ++ repeat 0%Qc 18.
Proof.
  destruct still_stores_filled as (_ & H3 & _ & H2 & _).
  exact (merge_zero_fills_missing_appended_velocities
           (env := Examples.swapping) MoreExamples.two_frames_unmapped
           (MoreExamples.still 3 3) H2 H3 ltac:(evaluated) eq_refl
           ltac:(evaluated) eq_refl ltac:(evaluated) eq_refl).
Defined.

Lemma merge_overruns_on_reserved_appended_frames_witness :
  operator_plus_assign (env := Examples.swapping)
    MoreExamples.two_frames_unmapped (MoreExamples.still 3 5) = Undefined.
Proof.
  destruct still_stores_filled as (_ & _ & H3 & H2 & _).
  exact (merge_overruns_on_reserved_appended_frames
           (env := Examples.swapping) MoreExamples.two_frames_unmapped
           (MoreExamples.still 3 5) H2 H3 ltac:(evaluated) eq_refl
           ltac:(evaluated) ltac:(evaluated) eq_refl).
Defined.

Lemma merge_zero_fills_missing_base_velocities_witness :
  exists r out,
    operator_plus_assign (env := Examples.swapping) (MoreExamples.still 2 2)
      MoreExamples.three_frames_unmapped
    = Ok (r, MoreExamples.three_frames_unmapped, out) /\
    _velocities r
    = repeat 0%Qc 12 ++ _velocities MoreExamples.three_frames_unmapped.
Proof.
  destruct still_stores_filled as (H2 & _ & _ & _ & H3).
  exact (merge_zero_fills_missing_base_velocities
           (env := Examples.swapping) (MoreExamples.still 2 2)
           MoreExamples.three_frames_unmapped H2 H3 ltac:(evaluated) eq_refl
           ltac:(evaluated) eq_refl ltac:(evaluated) eq_refl).
Defined.

Lemma merge_overruns_on_reserved_base_frames_witness :
  operator_plus_assign (env := Examples.swapping)
    (HistDataMD_of (MoreExamples.reserved 2 4)) Examples.three_frames
  = Undefined.
Proof.
  exact (merge_overruns_on_reserved_base_frames (env := Examples.swapping)
           (HistDataMD_of (MoreExamples.reserved 2 4)) Examples.three_frames
           ltac:(evaluated) ltac:(evaluated) ltac:(evaluated)).
Defined.

Lemma merge_warns_on_means_relative_to_base_witness :
  exists r out,
    operator_plus_assign (env := Examples.swapping) Examples.two_frames
      Examples.three_frames = Ok (r, Examples.three_frames, out) /\
    In warn_temperature out /\ In warn_pressure out.
Proof.
  destruct two_and_three_frames_mergeable as (Hm & Hu).
  destruct (merge_warns_on_means_relative_to_base (env := Examples.swapping)
              Examples.two_frames Examples.three_frames Hm Hu)
    as (r & out & Hrun & Htemp & Hpress).
  exists r, out. split; [exact Hrun|].
  split; [apply Htemp | apply Hpress]; vm_compute; reflexivity.
Defined.

Lemma merge_of_plain_store_pads_with_zeros_witness :
  exists r,
    operator_plus_assign_HistData (env := Examples.swapping)
      Examples.two_frames (Plain (MoreExamples.reserved 3 3))
    = Ok (r, Plain (MoreExamples.reserved 3 3), []) /\
    _ntime r = 5 /\
    _entropy r = _entropy Examples.two_frames ++ repeat 0%Qc 3.
Proof.
  destruct (merge_of_plain_store_pads_with_zeros (env := Examples.swapping)
              Examples.two_frames
              (MoreExamples.reserved 3 3) ltac:(evaluated) ltac:(evaluated)
              ltac:(evaluated) ltac:(evaluated) ltac:(evaluated)
              ltac:(evaluated))
    as (r & Hrun & Hntime & _ & _ & _ & Hentropy & _).
  exists r. split; [exact Hrun|]. split; [exact Hntime | exact Hentropy].
Defined.

Lemma merge_entry_points_agree_witness :
  exists r out,
    operator_plus_assign (env := Examples.swapping) Examples.two_frames
      Examples.three_frames = Ok (r, Examples.three_frames, out) /\
    operator_plus_assign_HistData (env := Examples.swapping)
      Examples.two_frames (MD Examples.three_frames)
    = Ok (r, MD Examples.three_frames, out).
Proof.
  destruct two_and_three_frames_mergeable as (Hm & Hu).
  destruct (merge_entry_points_agree (env := Examples.swapping)
              Examples.two_frames Examples.three_frames Hm Hu)
    as (r & out & out' & Hdirect & Hgeneric & Hsame).
  exists r, out. split; [exact Hdirect|].
  rewrite <- (Hsame ltac:(vm_compute; discriminate)). exact Hgeneric.
Defined.

Lemma vacf_throws_only_acf_failures_witness :
  getVACF (env := MoreExamples.failing_acf) Examples.three_frames 0 3
  = Throw (ADD "VACF calculation failed" ERRDIV
             (EXCEPTION "not enough data" ERRDIV)).
Proof.
  apply (vacf_throws_only_acf_failures (env := MoreExamples.failing_acf)
           Examples.three_frames 0 3 _ three_frames_vacf_ready).
  eexists. split; reflexivity.
Defined.

Lemma average_accumulates_scaled_frames_witness :
  exists r,
    average (env := Examples.swapping) MoreExamples.fresh_average
      Examples.three_frames 0 3 = Ok r /\
    _ekin r
    = [scaled_sum (d1 / d_of_Z 3)%dbl (_ekin Examples.three_frames)].
Proof.
  destruct (average_accumulates_scaled_frames (env := Examples.swapping)
              MoreExamples.fresh_average Examples.three_frames _ 0 3
              eq_refl eq_refl ltac:(evaluated) ltac:(evaluated)
              ltac:(evaluated) ltac:(evaluated) ltac:(evaluated)
              ltac:(evaluated) ltac:(evaluated))
    as (r & Hrun & _ & Hekin & _).
  exists r. split; [exact Hrun | exact Hekin].
Defined.

Lemma three_frames_estimable :
  estimable (chem := MoreExamples.chemistry) MoreExamples.moving
    Examples.three_frames.
Proof.
  unfold estimable.
  repeat match goal with
         | |- _ /\ _ => split
         end;
    try (vm_compute; try reflexivity; try discriminate; intros; discriminate).
  - repeat constructor; discriminate.
  - repeat constructor; discriminate.
Qed.

Lemma estimator_central_difference_inside_witness :
  exists r,
    computeVelocitiesPressureTemperature (env := Examples.swapping)
      (chem := MoreExamples.chemistry) MoreExamples.moving
      Examples.three_frames 2 1%Qc = Ok r /\
    velocity (_velocities r) 2 (2 - 1) 0 0
    = Some (d_lit (1 # 2)
            * (position MoreExamples.moving 2 2 0 0
               - position MoreExamples.moving 2 (2 - 2) 0 0) / 1%Qc)%dbl.
Proof.
  destruct (estimator_central_difference_inside (env := Examples.swapping)
              (chem := MoreExamples.chemistry) MoreExamples.moving
              Examples.three_frames 2 1%Qc three_frames_estimable
              ltac:(evaluated))
    as (r & Hrun & _ & _ & _ & Hcentral & _).
  exists r. split; [exact Hrun|]. apply (Hcentral 0 0); evaluated.
Defined.

Lemma estimator_first_frame_by_forward_difference_witness :
  exists r,
    computeVelocitiesPressureTemperature (env := Examples.swapping)
      (chem := MoreExamples.chemistry) MoreExamples.moving
      Examples.three_frames 1 1%Qc = Ok r /\
    velocity (_velocities r) 2 0 1 2
    = Some ((position MoreExamples.moving 2 1 1 2
             - position MoreExamples.moving 2 0 1 2) / 1%Qc)%dbl.
Proof.
  destruct (estimator_first_frame_by_forward_difference
              (env := Examples.swapping) (chem := MoreExamples.chemistry)
              MoreExamples.moving Examples.three_frames 1%Qc
              three_frames_estimable ltac:(evaluated))
    as (_ & r & Hrun & Hforward & _).
  exists r. split; [exact Hrun|]. apply (Hforward 1 2); evaluated.
Defined.


(** ** Interpolation: every frame written *)

(** What a loop that returns has established. *)
Lemma for_loop_establishes {St : Type} (P : Z -> St -> Prop)
  (body : Z -> St -> Outcome St) :
  forall (n : nat) (lo : Z) (s s' : St),
  P lo s ->
  (forall i s s1, lo <= i < lo + Z.of_nat n -> P i s -> body i s = Ok s1 ->
     P (i + 1) s1) ->
  for_loop n lo body s = Ok s' -> P (lo + Z.of_nat n) s'.
Proof.
  induction n as [|n IH]; intros lo s s' Hs Hbody; cbn [for_loop].
  - intros [= <-]. rewrite Z.add_0_r. exact Hs.
  - destruct (body lo s) as [s1| |] eqn:Hs1; cbn [bind]; try discriminate.
    intros Hrun.
    replace (lo + Z.of_nat (S n)) with (lo + 1 + Z.of_nat n) by lia.
    apply (IH (lo + 1) s1 s'); [|intros i s2 s3 Hi; apply Hbody; lia|exact Hrun].
    apply (Hbody lo s s1); [lia | exact Hs | exact Hs1].
Qed.

Section InterpolationBetween.
Context {D : Type} {arith : Double D} {env : Platform D}.

Lemma blend_scalar_written (alpha : D) (L t cur : Z) (last : D)
  (x x' : list D) :
  1 <= L -> 0 <= cur ->
  blend_scalar alpha t (L - 1) cur last x = Ok x' ->
  frame_written alpha 1 L t cur (fun _ => Some last) x x'.
Proof.
  intros HL Hcur. unfold blend_scalar.
  destruct (vget x (L - 1)) as [f| |] eqn:Hf; cbn [bind]; try discriminate.
  intros Hset. apply vset_inv in Hset. destruct Hset as (Hrange & ->).
  apply vget_Some in Hf. destruct Hf as [_ Hf].
  split.
  - intros p Hp Hne. apply slot_update_neq; lia.
  - intros d Hd. assert (d = 0) by lia. subst d.
    exists last, f. split; [reflexivity|].
    replace (1 * (L - 1) + 0) with (L - 1) by lia.
    replace (1 * cur + 0) with cur by lia.
    split; [exact Hf|]. apply slot_update_eq. lia.
Qed.

Lemma blend_vector_written (alpha : D) (s L t cur : Z) (vl x x' : list D) :
  1 <= s -> 1 <= L -> 0 <= cur ->
  s * (L - 1) + s < 2 ^ 32 -> s * cur + s < 2 ^ 32 ->
  for_loop (Z.to_nat s) 0 (fun iatomDir v =>
    l <- vget vl iatomDir ;;
    f <- vget v (u32 (s * (L - 1) + iatomDir)) ;;
    vset v (u32 (s * cur + iatomDir)) (blend alpha t l f)) x = Ok x' ->
  frame_written alpha s L t cur (slot vl) x x'.
Proof.
  intros Hs HL Hcur Hrep1 Hrep2 Hrun.
  pose (P := fun (k : Z) (v : list D) =>
               (forall p, 0 <= p -> p < s * cur \/ s * cur + k <= p ->
                  slot v p = slot x p) /\
               (forall d, 0 <= d < k ->
                  exists l f, slot vl d = Some l /\
                              slot x (s * (L - 1) + d) = Some f /\
                              slot v (s * cur + d)
                              = Some (blend alpha t l f))).
  assert (Hloop : P (0 + Z.of_nat (Z.to_nat s)) x');
    [refine (for_loop_establishes P _ (Z.to_nat s) 0 x x' _ _ Hrun); unfold P
    |unfold P in Hloop; rewrite Z2Nat.id in Hloop by lia;
     destruct Hloop as (Hrest & Hdone)].
  - split; [reflexivity | intros; lia].
  - intros k v v1 Hk (Hrest & Hdone). cbv beta.
    destruct (vget vl k) as [l| |] eqn:Hl; cbn [bind]; try discriminate.
    rewrite (u32_small (s * (L - 1) + k)), (u32_small (s * cur + k)) by nia.
    destruct (vget v (s * (L - 1) + k)) as [f| |] eqn:Hf; cbn [bind];
      try discriminate.
    intros Hset. apply vset_inv in Hset. destruct Hset as (Hrange & ->).
    apply vget_Some in Hl, Hf.
    destruct Hl as [_ Hl]. destruct Hf as [_ Hf].
    split.
    + intros p Hp Hne. rewrite slot_update_neq by nia. apply Hrest; lia.
    + intros d Hd. destruct (Z.eq_dec d k) as [->|Hne].
      * exists l, f. split; [exact Hl|]. split.
        -- rewrite <- Hrest; [exact Hf | nia |].
           destruct (Z_lt_le_dec (s * (L - 1) + k) (s * cur)); [left; lia|].
           right. assert (L - 1 >= cur) by nia.
           assert (Hge : s * (L - 1) >= s * cur) by nia. lia.
        -- apply slot_update_eq. lia.
      * destruct (Hdone d) as (l' & f' & Hl' & Hf' & Hv); [lia|].
        exists l', f'. split; [exact Hl'|]. split; [exact Hf'|].
        rewrite slot_update_neq by nia. exact Hv.
  - split; [|exact Hdone].
    intros p Hp Hne. apply Hrest; lia.
Qed.


Lemma slot_resize_keeps (orig : list D) (K p : Z) :
  0 <= p < size orig -> size orig <= K ->
  slot (resize d0 K orig) p = slot orig p.
Proof.
  intros Hp HK. unfold slot. apply nth_error_resize; unfold size in *; lia.
Qed.


End InterpolationBetween.


Section InterpolationElided.
Context {D : Type} {arith : Double D} {env : Platform D}.

Lemma elided_step (alpha : D) (s n T L t : Z) (xi x x' : list D)
  (last : Z -> option D) :
  1 <= s -> 3 <= n -> 1 <= L < T -> 0 <= t < n ->
  (forall d, 0 <= d < s -> last d = slot xi (s * L + d)) ->
  frame_written alpha s L t ((n - 1) * L - t) last x x' ->
  elided_written alpha s n T L t xi x ->
  elided_written alpha s n T L (t + 1) xi x'.
Proof.
  intros Hs Hn HL Ht Hlast (Hrest & Hnew) (Hlow & Hold).
  assert (HmL : n - 1 <= (n - 1) * L) by nia.
  assert (HmL1 : L - 1 <= (n - 1) * (L - 1)) by nia.
  assert (H0 : 0 <= s * ((n - 1) * L - t))
    by (apply Z.mul_nonneg_nonneg; lia).
  assert (Hroom : (n - 1) * L - t
                  <= (n - 1) * L - t + (if t =? 0 then 0 else 1))
    by (destruct (t =? 0); lia).
  split.
  - intros p Hp.
    destruct (Z.eqb_spec (t + 1) 0) as [|_]; [lia|].
    replace ((n - 1) * L - (t + 1) + 1) with ((n - 1) * L - t) in Hp by lia.
    rewrite Hrest by lia. apply Hlow.
    assert (s * ((n - 1) * L - t)
            <= s * ((n - 1) * L - t + (if t =? 0 then 0 else 1)))
      by (apply Z.mul_le_mono_nonneg_l; lia).
    lia.
  - intros L' t' Ht' Hkeep Hcase d Hd.
    destruct (Z.eq_dec L' L) as [->|HneL].
    + destruct (Z.eq_dec t' t) as [->|Hnet].
      * destruct (Hnew d Hd) as (l & f & Hl & Hf & Hx').
        exists l, f. split; [rewrite <- Hlast by exact Hd; exact Hl|].
        split; [|exact Hx'].
        rewrite <- Hlow; [exact Hf|].
        assert (L <= (n - 1) * L - t + (if t =? 0 then 0 else 1))
          by (destruct (Z.eqb_spec t 0); nia).
        assert (s * (L - 1 + 1)
                <= s * ((n - 1) * L - t + (if t =? 0 then 0 else 1)))
          by (apply Z.mul_le_mono_nonneg_l; lia).
        assert (0 <= s * (L - 1)) by (apply Z.mul_nonneg_nonneg; lia).
        lia.
      * destruct (Hold L t' Ht' Hkeep ltac:(lia) d Hd)
          as (l & f & Hl & Hf & Hx).
        exists l, f. split; [exact Hl|]. split; [exact Hf|].
        assert (Hframe : (n - 1) * L - t + 1 <= (n - 1) * L - t') by lia.
        assert (Hpos : s * ((n - 1) * L - t + 1) <= s * ((n - 1) * L - t'))
          by (apply Z.mul_le_mono_nonneg_l; lia).
        rewrite Hrest; [exact Hx | lia | right; lia].
    + destruct (Hold L' t' Ht' Hkeep ltac:(lia) d Hd)
        as (l & f & Hl & Hf & Hx).
      exists l, f. split; [exact Hl|]. split; [exact Hf|].
      assert (HLL : (n - 1) * (L + 1) <= (n - 1) * L')
        by (apply Z.mul_le_mono_nonneg_l; lia).
      assert (Hframe : (n - 1) * L - t + 1 <= (n - 1) * L' - t') by lia.
      assert (Hpos : s * ((n - 1) * L - t + 1) <= s * ((n - 1) * L' - t'))
        by (apply Z.mul_le_mono_nonneg_l; lia).
      rewrite Hrest; [exact Hx | lia | right; lia].
Qed.

Lemma elided_leave (alpha : D) (s n T L : Z) (xi x : list D) :
  1 <= n ->
  elided_written alpha s n T L n xi x ->
  elided_written alpha s n T (L - 1) 0 xi x.
Proof.
  intros Hn (Hlow & Hold). split.
  - intros p Hp. apply Hlow.
    destruct (Z.eqb_spec n 0) as [|_]; [lia|].
    change (0 =? 0) with true in Hp. cbv iota in Hp.
    replace ((n - 1) * L - n + 1) with ((n - 1) * (L - 1) - 0 + 0) by lia.
    exact Hp.
  - intros L' t' Ht' Hkeep Hcase. apply Hold; [exact Ht' | exact Hkeep |].
    destruct (Z.eq_dec L' L); [right | left]; lia.
Qed.

Lemma elided_last (alpha : D) (s n T L : Z) (xi x : list D) (d : Z) :
  1 <= s -> 3 <= n -> 1 <= L -> 0 <= d < s ->
  elided_written alpha s n T L 0 xi x ->
  slot x (s * L + d) = slot xi (s * L + d).
Proof.
  intros Hs Hn HL Hd (Hlow & _). apply Hlow.
  change (0 =? 0) with true. cbv iota.
  assert (s * (L + 1) <= s * ((n - 1) * L - 0 + 0))
    by (apply Z.mul_le_mono_nonneg_l; nia).
  assert (0 <= s * L) by (apply Z.mul_nonneg_nonneg; lia).
  lia.
Qed.

Lemma substep_elided (alpha : D) (natom3 n T L t N : Z)
  (c0 c c' : @Cursor D) (vl : list D)
  (ekinLast temperatureLast pressureLast entropyLast : D) :
  1 <= natom3 -> 3 <= n -> 1 <= L < T -> 0 <= t < n ->
  natom3 * N < 2 ^ 32 -> (n - 1) * L < N ->
  (forall d, 0 <= d < natom3 ->
     slot vl d = slot (c_velocities c0) (natom3 * L + d)) ->
  slot (c_ekin c0) L = Some ekinLast ->
  slot (c_temperature c0) L = Some temperatureLast ->
  slot (c_pressure c0) L = Some pressureLast ->
  slot (c_entropy c0) L = Some entropyLast ->
  currentTime c = u32 ((n - 1) * L - t) ->
  cursor_elided alpha natom3 n T L t c0 c ->
  substep natom3 alpha (L - 1) vl ekinLast temperatureLast pressureLast
    entropyLast t c = Ok c' ->
  cursor_elided alpha natom3 n T L (t + 1) c0 c'.
Proof.
  intros Hnatom3 Hn HL Ht Hrep Htop Lv Le Lt Lp Ls Hct
    (Bv & Be & Bt & Bp & Bs) Hrun.
  assert (Hcur0 : 0 <= (n - 1) * L - t) by nia.
  rewrite u32_small in Hct by nia.
  unfold substep in Hrun. rewrite Hct in Hrun.
  match type of Hrun with
  | bind ?m _ = _ => destruct m as [vel| |] eqn:Hvel
  end; cbn [bind] in Hrun; try discriminate.
  destruct (blend_scalar alpha t (L - 1) ((n - 1) * L - t) ekinLast (c_ekin c))
    as [ekin| |] eqn:Hekin; cbn [bind] in Hrun; try discriminate.
  destruct (blend_scalar alpha t (L - 1) ((n - 1) * L - t) temperatureLast
              (c_temperature c))
    as [temp| |] eqn:Htemp; cbn [bind] in Hrun; try discriminate.
  destruct (blend_scalar alpha t (L - 1) ((n - 1) * L - t) pressureLast
              (c_pressure c))
    as [press| |] eqn:Hpress; cbn [bind] in Hrun; try discriminate.
  destruct (blend_scalar alpha t (L - 1) ((n - 1) * L - t) entropyLast
              (c_entropy c))
    as [entr| |] eqn:Hentr; cbn [bind] in Hrun; try discriminate.
  injection Hrun as <-.
  cbn [c_velocities c_ekin c_temperature c_pressure c_entropy].
  apply blend_vector_written in Hvel; try lia; try nia.
  apply blend_scalar_written in Hekin, Htemp, Hpress, Hentr; try lia.
  assert (Hscalar : forall xi (last : D), slot xi L = Some last ->
            forall d, 0 <= d < 1 ->
              (fun _ : Z => Some last) d = slot xi (1 * L + d)).
  { intros xi last Hl d Hd. replace (1 * L + d) with L by lia.
    symmetry. exact Hl. }
  unfold cursor_elided.
  refine (conj _ (conj _ (conj _ (conj _ _)))).
  - apply elided_step with (x := c_velocities c) (last := slot vl);
      try lia; assumption.
  - apply elided_step with (x := c_ekin c) (last := fun _ => Some ekinLast);
      try lia; try assumption. apply Hscalar; exact Le.
  - apply elided_step with (x := c_temperature c)
                           (last := fun _ => Some temperatureLast);
      try lia; try assumption. apply Hscalar; exact Lt.
  - apply elided_step with (x := c_pressure c)
                           (last := fun _ => Some pressureLast);
      try lia; try assumption. apply Hscalar; exact Lp.
  - apply elided_step with (x := c_entropy c)
                           (last := fun _ => Some entropyLast);
      try lia; try assumption. apply Hscalar; exact Ls.
Qed.

Lemma segment_elided (alpha : D) (natom3 n T L N : Z) (c0 c c' : @Cursor D) :
  1 <= natom3 -> 3 <= n -> 1 <= L < T ->
  cursor_sized natom3 N c0 -> T <= N -> natom3 * N < 2 ^ 32 ->
  cursor_top true n L < N ->
  cursor_done False natom3 n T L c0 c (u32 (cursor_top true n L)) ->
  cursor_elided alpha natom3 n T L 0 c0 c ->
  segment natom3 n alpha true L c = Ok c' ->
  cursor_done False natom3 n T (L - 1) c0 c'
    (u32 (cursor_top true n (L - 1))) /\
  cursor_elided alpha natom3 n T (L - 1) 0 c0 c'.
Proof.
  intros Hnatom3 Hn HL Hsized HTN Hrep Htop Hdone Helided Hrun.
  assert (Hex : False -> true = true /\ cursor_ends_kept alpha n natom3 T c0)
    by (intros []).
  split.
  { destruct (segment_spec alpha False true natom3 n T L N c0 c)
      as (c1 & Hrun1 & Hc1); auto; try lia.
    rewrite Hrun in Hrun1. injection Hrun1 as <-. exact Hc1. }
  pose proof Hdone as (Hct & Ov & Oe & Ot & Op & Os).
  pose proof Hsized as (Sv & Se & St & Sp & Ss).
  pose proof Helided as (Bv0 & Be0 & Bt0 & Bp0 & Bs0).
  unfold cursor_top in Htop.
  unfold segment in Hrun.
  assert (Hvsize : size (c_velocities c) = size (c_velocities c0))
    by (unfold size; destruct Ov; congruence).
  destruct (slice_frame (c_velocities c) natom3 L)
    as (vl & Hvl & Hvlsize & Hvlslot); try nia.
  rewrite Hvl in Hrun. cbn [bind] in Hrun.
  assert (Hlast : forall xi x, length x = length xi -> N <= size xi ->
            elided_written alpha 1 n T L 0 xi x ->
            exists last, vget x L = Ok last /\ slot xi L = Some last).
  { intros xi x Hlen HNx Hw.
    destruct (vget_in_range x L) as (last & Hl);
      [unfold size in *; lia|].
    exists last. split; [exact Hl|].
    pose proof (elided_last alpha 1 n T L xi x 0 ltac:(lia) Hn
                  ltac:(lia) ltac:(lia) Hw) as Heq.
    replace (1 * L + 0) with L in Heq by lia. rewrite <- Heq.
    apply vget_Some in Hl. apply Hl. }
  destruct (Hlast (c_ekin c0) (c_ekin c) (proj1 Oe) Se Be0)
    as (ekinLast & He & Le).
  destruct (Hlast (c_temperature c0) (c_temperature c) (proj1 Ot) St Bt0)
    as (temperatureLast & Ht & Lt).
  destruct (Hlast (c_pressure c0) (c_pressure c) (proj1 Op) Sp Bp0)
    as (pressureLast & Hp & Lp).
  destruct (Hlast (c_entropy c0) (c_entropy c) (proj1 Os) Ss Bs0)
    as (entropyLast & Hs & Ls).
  rewrite He, Ht, Hp, Hs in Hrun. cbn [bind] in Hrun.
  match type of Hrun with
  | bind ?m _ = _ => destruct m as [c1| |] eqn:Hloop
  end; cbn [bind] in Hrun; try discriminate.
  injection Hrun as <-.
  assert (Hvlast : forall d, 0 <= d < natom3 ->
            slot vl d = slot (c_velocities c0) (natom3 * L + d)).
  { intros d Hd. rewrite Hvlslot by exact Hd.
    apply (elided_last alpha natom3 n T L); auto; lia. }
  pose (P := fun (t : Z) (c2 : @Cursor D) =>
               cursor_ok False natom3 n T L t c0 c2
                 (u32 (cursor_top true n L - t)) /\
               cursor_elided alpha natom3 n T L t c0 c2).
  assert (Hend : P (0 + Z.of_nat (Z.to_nat n)) c1).
  { refine (for_loop_establishes P _ (Z.to_nat n) 0 c c1 _ _ Hloop); unfold P.
    - split; [|exact Helided].
      rewrite Z.sub_0_r.
      refine (conj Hct (conj _ (conj _ (conj _ (conj _ _)))));
        apply outer_ok_enter; assumption.
    - intros t c2 c3. rewrite Z2Nat.id by lia. intros Ht1 (Hc2 & Hb2) Hstep.
      split.
      + destruct (substep_spec alpha False true natom3 n T L t N c0 c2 vl
                    ekinLast temperatureLast pressureLast entropyLast)
          as (c4 & Hstep4 & Hc4); auto; try lia;
          try (intros []); try (unfold cursor_top; lia).
        rewrite Hstep in Hstep4. injection Hstep4 as <-. exact Hc4.
      + apply (substep_elided alpha natom3 n T L t N c0 c2 c3 vl
                 ekinLast temperatureLast pressureLast entropyLast);
          auto; try lia.
        destruct Hc2 as (Hct2 & _). exact Hct2. }
  unfold P in Hend. rewrite Z2Nat.id in Hend by lia.
  destruct Hend as (_ & Bv & Be & Bt & Bp & Bs).
  rewrite Z.add_0_l in Bv, Be, Bt, Bp, Bs.
  unfold cursor_elided.
  cbn [c_velocities c_ekin c_temperature c_pressure c_entropy].
  refine (conj _ (conj _ (conj _ (conj _ _)))); apply elided_leave;
    try lia; assumption.
Qed.

Lemma segments_elided (alpha : D) (natom3 n T N : Z) (c0 : @Cursor D) :
  1 <= natom3 -> 3 <= n ->
  cursor_sized natom3 N c0 -> T <= N -> natom3 * N < 2 ^ 32 ->
  cursor_top true n (T - 1) < N ->
  forall (k : nat) (c c' : Cursor),
    Z.of_nat k < T ->
    cursor_done False natom3 n T (Z.of_nat k) c0 c
      (u32 (cursor_top true n (Z.of_nat k))) ->
    cursor_elided alpha natom3 n T (Z.of_nat k) 0 c0 c ->
    segments natom3 n alpha true k c = Ok c' ->
    cursor_elided alpha natom3 n T 0 0 c0 c'.
Proof.
  intros Hnatom3 Hn Hsized HTN Hrep Htop.
  induction k as [|k IH]; intros c c' Hk Hdone Helided Hrun.
  - cbn [segments] in Hrun. injection Hrun as <-. exact Helided.
  - cbn [segments] in Hrun.
    destruct (segment natom3 n alpha true (Z.of_nat (S k)) c)
      as [c1| |] eqn:Hseg; cbn [bind] in Hrun; try discriminate.
    destruct (segment_elided alpha natom3 n T (Z.of_nat (S k)) N c0 c c1)
      as (Hdone1 & Helided1); auto; try lia.
    + pose proof (cursor_top_mono true n (Z.of_nat (S k)) (T - 1)
                    ltac:(lia)). lia.
    + replace (Z.of_nat (S k) - 1) with (Z.of_nat k) in Hdone1, Helided1
        by lia.
      apply (IH c1 c'); [lia | exact Hdone1 | exact Helided1 | exact Hrun].
Qed.

Lemma blended_onto_resize (alpha : D) (s n T K L t : Z) (orig x : list D) :
  1 <= s -> 1 <= L < T -> size orig = s * T -> s * T <= K ->
  blended_onto alpha s n (resize d0 K orig) x L t ->
  blended_onto alpha s n orig x L t.
Proof.
  intros Hs HL Hsize HK Hb d Hd.
  destruct (Hb d Hd) as (l & f & Hl & Hf & Hx).
  assert (0 <= s * (L - 1)) by (apply Z.mul_nonneg_nonneg; lia).
  assert (s * (L + 1) <= s * T) by (apply Z.mul_le_mono_nonneg_l; lia).
  rewrite slot_resize_keeps in Hl by lia.
  rewrite slot_resize_keeps in Hf by lia.
  exists l, f. split; [exact Hl|]. split; [exact Hf | exact Hx].
Qed.

(** When [|amplitude - 1| < 1e-10] is true and [ninter >= 3], the
    interpolation returns and the segment between the recorded frames
    [L-1] and [L] is found in the frames [(ninter-1)*(L-1)] to
    [(ninter-1)*L] of the result: for [tinter < ninter-1], frame
    [(ninter-1)*L - tinter] holds [(1 - tinter*alpha)*x_L +
    tinter*alpha*x_(L-1)] with [alpha = amplitude/(ninter-1)], computed as
    the code computes it from the recorded values; the frame of
    [tinter = ninter-1] is overwritten by the first sub-step of the next
    segment, except frame 0, which keeps the last sub-step of the first
    segment.  No law of arithmetic is assumed. *)
Theorem interpolate_blends_each_segment_with_elision (ninter : Z)
  (amplitude : D) (this : HistDataMD D) (b : HistData D) :
  interpolable this ninter -> 3 <= ninter -> 1 <= _ntime this ->
  (dabs (amplitude - d1) <? d_lit (1 # 10000000000))%dbl = true ->
  HistData_interpolate ninter amplitude this = Ok b ->
  let alpha := (amplitude / d_of_Z (u32 (ninter - 1)))%dbl in
  exists r,
    interpolate ninter amplitude this = Ok r /\
    forall L t, 1 <= L < _ntime this -> 0 <= t < ninter ->
      t < ninter - 1 \/ L = 1 ->
      blended_onto alpha 1 ninter (_ekin this) (_ekin r) L t /\
      blended_onto alpha 1 ninter (_temperature this) (_temperature r) L t /\
      blended_onto alpha 1 ninter (_pressure this) (_pressure r) L t /\
      blended_onto alpha 1 ninter (_entropy this) (_entropy r) L t /\
      blended_onto alpha (3 * _natom this) ninter (_velocities this)
        (_velocities r) L t.
Proof.
  intros (Hs & Hnatom & Hvel & Hfit) Hn HT Hdup Hbase alpha.
  destruct Hs as (_ & _ & Hekin & Htemp & Hpress & Hentr).
  fold (removeDuplica amplitude) in Hdup.
  set (T := _ntime this) in *.
  set (N := newNTime T ninter amplitude).
  set (natom3 := 3 * _natom this).
  assert (HnT : ninter * T < 2 ^ 31) by nia.
  assert (HN : N = cursor_top true ninter (T - 1) + 1).
  { unfold N. rewrite newNTime_value by (assumption || lia).
    rewrite Hdup. reflexivity. }
  assert (HTN : T <= N) by (rewrite HN; unfold cursor_top; nia).
  assert (HNle : N <= ninter * T) by (rewrite HN; unfold cursor_top; nia).
  assert (Hmax3 : 3 <= Z.max 3 (_natom this)) by lia.
  assert (HmaxA : _natom this <= Z.max 3 (_natom this)) by lia.
  assert (H9N : 9 * N < 2 ^ 31) by nia.
  assert (H3AN : natom3 * N < 2 ^ 31) by (unfold natom3; nia).
  assert (Hn3 : 1 <= natom3) by (unfold natom3; lia).
  assert (H0N : 1 <= N) by lia.
  assert (E1 : u32 (natom3 * N) = natom3 * N) by (apply u32_small; nia).
  assert (E2 : u32 (_xyz * N) = 3 * N) by (unfold _xyz; apply u32_small; lia).
  assert (E3 : u32 (_xyz * _xyz * N) = 9 * N)
    by (unfold _xyz; rewrite u32_small; lia).
  unfold interpolate. cbv zeta. fold T. fold N.
  rewrite (i32_small (T - 1)) by lia.
  rewrite (u32_small (3 * _natom this)) by lia. fold natom3.
  rewrite E1, E2, E3. rewrite Hdup.
  unfold resize_int. destruct (Z.ltb_spec N 0) as [Hneg|_]; [lia|].
  cbn [bind]. fold alpha.
  set (c0 := {| c_velocities := resize d0 (natom3 * N) (_velocities this);
                c_ekin := resize d0 (natom3 * N) (_ekin this);
                c_temperature := resize d0 (3 * N) (_temperature this);
                c_pressure := resize d0 (9 * N) (_pressure this);
                c_entropy := resize d0 N (_entropy this);
                currentTime := u32 (N - 1) |}).
  assert (Hsized : cursor_sized natom3 N c0).
  { unfold cursor_sized, c0, size; cbn [c_velocities c_ekin c_temperature
      c_pressure c_entropy].
    rewrite !length_resize. nia. }
  assert (Hstart : cursor_done False natom3 ninter T
                     (Z.of_nat (Z.to_nat (T - 1))) c0 c0
                     (u32 (cursor_top true ninter
                             (Z.of_nat (Z.to_nat (T - 1)))))).
  { rewrite Z2Nat.id by lia.
    refine (conj _ (conj _ (conj _ (conj _ (conj _ _)))));
      try apply outer_ok_start.
    cbn [currentTime c0]. f_equal. lia. }
  destruct (segments_spec alpha False true natom3 ninter T N c0)
    with (k := Z.to_nat (T - 1)) (c := c0) as (c' & Hrun & _);
    auto; try lia; try (intros []).
  destruct (segments_elided alpha natom3 ninter T N c0)
    with (k := Z.to_nat (T - 1)) (c := c0) (c' := c')
    as (Bv & Be & Bt & Bp & Bs); auto; try lia.
  { rewrite Z2Nat.id by lia.
    refine (conj _ (conj _ (conj _ (conj _ _))));
      (split; [reflexivity | intros L' t' Ht' _ [Hcase|Hcase]; lia]). }
  rewrite Hrun. cbn [bind]. rewrite Hbase. cbn [bind].
  eexists. split; [reflexivity|].
  cbn [_velocities _ekin _temperature _pressure _entropy].
  intros L t HL Ht Hkeep.
  unfold c0 in Bv, Be, Bt, Bp, Bs.
  cbn [c_velocities c_ekin c_temperature c_pressure c_entropy]
    in Bv, Be, Bt, Bp, Bs.
  fold natom3.
  refine (conj _ (conj _ (conj _ (conj _ _)))).
  - apply (blended_onto_resize alpha 1 ninter T (natom3 * N)); try lia;
      [nia|]. apply (proj2 Be); lia.
  - apply (blended_onto_resize alpha 1 ninter T (3 * N)); try lia.
    apply (proj2 Bt); lia.
  - apply (blended_onto_resize alpha 1 ninter T (9 * N)); try lia.
    apply (proj2 Bp); lia.
  - apply (blended_onto_resize alpha 1 ninter T N); try lia.
    apply (proj2 Bs); lia.
  - apply (blended_onto_resize alpha natom3 ninter T (natom3 * N)); try lia;
      [apply Z.mul_le_mono_nonneg_l; lia|].
    apply (proj2 Bv); lia.
Qed.

End InterpolationElided.

Lemma interpolate_blends_each_segment_with_elision_witness :
  exists r,
    interpolate (env := DoubleExamples.platform) 50 PrimFloat.one
      DoubleExamples.rising = Ok r /\
    blended_onto (PrimFloat.one / d_of_Z (u32 (50 - 1)))%dbl 1 50
      (_ekin DoubleExamples.rising) (_ekin r) 1 49.
Proof.
  destruct (interpolate_blends_each_segment_with_elision
              (env := DoubleExamples.platform) 50 PrimFloat.one
              DoubleExamples.rising _
              (rising_interpolable 50 ltac:(lia)) ltac:(lia) ltac:(concrete)
              eq_refl eq_refl)
    as (r & Hrun & Hblend).
  exists r. split; [exact Hrun|].
  apply (Hblend 1 49); [concrete | lia | right; reflexivity].
Defined.

Section InterpolationStepped.
Context {D : Type} {arith : Double D} {env : Platform D}.

Lemma stepped_step (alpha : D) (s n T L t : Z) (xi x x' : list D)
  (last : Z -> option D) :
  1 <= s -> 2 <= n -> 1 <= L < T -> 0 <= t < n ->
  (forall d, 0 <= d < s -> last d = slot xi (s * L + d)) ->
  frame_written alpha s L t (n * L - 1 - t) last x x' ->
  stepped_written alpha s n T L t xi x ->
  stepped_written alpha s n T L (t + 1) xi x'.
Proof.
  intros Hs Hn HL Ht Hlast (Hrest & Hnew) (Hlow & Hold).
  assert (HnL : n <= n * L) by nia.
  assert (HnL1 : L - 1 <= n * (L - 1)) by nia.
  assert (H0 : 0 <= s * (n * L - 1 - t)) by (apply Z.mul_nonneg_nonneg; lia).
  split.
  - intros p Hp.
    replace (n * L - (t + 1)) with (n * L - 1 - t) in Hp by lia.
    rewrite Hrest by lia. apply Hlow.
    assert (s * (n * L - 1 - t) <= s * (n * L - t))
      by (apply Z.mul_le_mono_nonneg_l; lia).
    lia.
  - intros L' t' Ht' Hcase d Hd.
    destruct (Z.eq_dec L' L) as [->|HneL].
    + destruct (Z.eq_dec t' t) as [->|Hnet].
      * destruct (Hnew d Hd) as (l & f & Hl & Hf & Hx').
        exists l, f. split; [rewrite <- Hlast by exact Hd; exact Hl|].
        split; [|exact Hx'].
        rewrite <- Hlow; [exact Hf|].
        assert (s * (L - 1 + 1) <= s * (n * L - t))
          by (apply Z.mul_le_mono_nonneg_l; lia).
        assert (0 <= s * (L - 1)) by (apply Z.mul_nonneg_nonneg; lia).
        lia.
      * destruct (Hold L t' Ht' ltac:(lia) d Hd) as (l & f & Hl & Hf & Hx).
        exists l, f. split; [exact Hl|]. split; [exact Hf|].
        assert (Hframe : n * L - 1 - t + 1 <= n * L - 1 - t') by lia.
        assert (Hpos : s * (n * L - 1 - t + 1) <= s * (n * L - 1 - t'))
          by (apply Z.mul_le_mono_nonneg_l; lia).
        rewrite Hrest; [exact Hx | lia | right; lia].
    + destruct (Hold L' t' Ht' ltac:(lia) d Hd) as (l & f & Hl & Hf & Hx).
      exists l, f. split; [exact Hl|]. split; [exact Hf|].
      assert (HLL : n * (L + 1) <= n * L')
        by (apply Z.mul_le_mono_nonneg_l; lia).
      assert (Hframe : n * L - 1 - t + 1 <= n * L' - 1 - t') by lia.
      assert (Hpos : s * (n * L - 1 - t + 1) <= s * (n * L' - 1 - t'))
        by (apply Z.mul_le_mono_nonneg_l; lia).
      rewrite Hrest; [exact Hx | lia | right; lia].
Qed.

Lemma stepped_leave (alpha : D) (s n T L : Z) (xi x : list D) :
  stepped_written alpha s n T L n xi x ->
  stepped_written alpha s n T (L - 1) 0 xi x.
Proof.
  intros (Hlow & Hold). split.
  - intros p Hp. apply Hlow.
    replace (n * L - n) with (n * (L - 1) - 0) by lia. exact Hp.
  - intros L' t' Ht' Hcase. apply Hold; [exact Ht'|].
    destruct (Z.eq_dec L' L); [right | left]; lia.
Qed.

Lemma stepped_last (alpha : D) (s n T L : Z) (xi x : list D) (d : Z) :
  1 <= s -> 2 <= n -> 1 <= L -> 0 <= d < s ->
  stepped_written alpha s n T L 0 xi x ->
  slot x (s * L + d) = slot xi (s * L + d).
Proof.
  intros Hs Hn HL Hd (Hlow & _). apply Hlow.
  assert (s * (L + 1) <= s * (n * L - 0))
    by (apply Z.mul_le_mono_nonneg_l; nia).
  assert (0 <= s * L) by (apply Z.mul_nonneg_nonneg; lia).
  lia.
Qed.

Lemma substep_stepped (alpha : D) (natom3 n T L t N : Z)
  (c0 c c' : @Cursor D) (vl : list D)
  (ekinLast temperatureLast pressureLast entropyLast : D) :
  1 <= natom3 -> 2 <= n -> 1 <= L < T -> 0 <= t < n ->
  natom3 * N < 2 ^ 32 -> n * L - 1 < N ->
  (forall d, 0 <= d < natom3 ->
     slot vl d = slot (c_velocities c0) (natom3 * L + d)) ->
  slot (c_ekin c0) L = Some ekinLast ->
  slot (c_temperature c0) L = Some temperatureLast ->
  slot (c_pressure c0) L = Some pressureLast ->
  slot (c_entropy c0) L = Some entropyLast ->
  currentTime c = u32 (n * L - 1 - t) ->
  cursor_stepped alpha natom3 n T L t c0 c ->
  substep natom3 alpha (L - 1) vl ekinLast temperatureLast pressureLast
    entropyLast t c = Ok c' ->
  cursor_stepped alpha natom3 n T L (t + 1) c0 c'.
Proof.
  intros Hnatom3 Hn HL Ht Hrep Htop Lv Le Lt Lp Ls Hct
    (Bv & Be & Bt & Bp & Bs) Hrun.
  assert (Hcur0 : 0 <= n * L - 1 - t) by nia.
  rewrite u32_small in Hct by nia.
  unfold substep in Hrun. rewrite Hct in Hrun.
  match type of Hrun with
  | bind ?m _ = _ => destruct m as [vel| |] eqn:Hvel
  end; cbn [bind] in Hrun; try discriminate.
  destruct (blend_scalar alpha t (L - 1) (n * L - 1 - t) ekinLast (c_ekin c))
    as [ekin| |] eqn:Hekin; cbn [bind] in Hrun; try discriminate.
  destruct (blend_scalar alpha t (L - 1) (n * L - 1 - t) temperatureLast
              (c_temperature c))
    as [temp| |] eqn:Htemp; cbn [bind] in Hrun; try discriminate.
  destruct (blend_scalar alpha t (L - 1) (n * L - 1 - t) pressureLast
              (c_pressure c))
    as [press| |] eqn:Hpress; cbn [bind] in Hrun; try discriminate.
  destruct (blend_scalar alpha t (L - 1) (n * L - 1 - t) entropyLast
              (c_entropy c))
    as [entr| |] eqn:Hentr; cbn [bind] in Hrun; try discriminate.
  injection Hrun as <-.
  cbn [c_velocities c_ekin c_temperature c_pressure c_entropy].
  apply blend_vector_written in Hvel; try lia; try nia.
  apply blend_scalar_written in Hekin, Htemp, Hpress, Hentr; try lia.
  assert (Hscalar : forall xi (last : D), slot xi L = Some last ->
            forall d, 0 <= d < 1 ->
              (fun _ : Z => Some last) d = slot xi (1 * L + d)).
  { intros xi last Hl d Hd. replace (1 * L + d) with L by lia.
    symmetry. exact Hl. }
  unfold cursor_stepped.
  refine (conj _ (conj _ (conj _ (conj _ _)))).
  - apply stepped_step with (x := c_velocities c) (last := slot vl);
      try lia; assumption.
  - apply stepped_step with (x := c_ekin c) (last := fun _ => Some ekinLast);
      try lia; try assumption. apply Hscalar; exact Le.
  - apply stepped_step with (x := c_temperature c)
                            (last := fun _ => Some temperatureLast);
      try lia; try assumption. apply Hscalar; exact Lt.
  - apply stepped_step with (x := c_pressure c)
                            (last := fun _ => Some pressureLast);
      try lia; try assumption. apply Hscalar; exact Lp.
  - apply stepped_step with (x := c_entropy c)
                            (last := fun _ => Some entropyLast);
      try lia; try assumption. apply Hscalar; exact Ls.
Qed.

Lemma segment_stepped (alpha : D) (natom3 n T L N : Z) (c0 c c' : @Cursor D) :
  1 <= natom3 -> 2 <= n -> 1 <= L < T ->
  cursor_sized natom3 N c0 -> T <= N -> natom3 * N < 2 ^ 32 ->
  cursor_top false n L < N ->
  cursor_done False natom3 n T L c0 c (u32 (cursor_top false n L)) ->
  cursor_stepped alpha natom3 n T L 0 c0 c ->
  segment natom3 n alpha false L c = Ok c' ->
  cursor_done False natom3 n T (L - 1) c0 c'
    (u32 (cursor_top false n (L - 1))) /\
  cursor_stepped alpha natom3 n T (L - 1) 0 c0 c'.
Proof.
  intros Hnatom3 Hn HL Hsized HTN Hrep Htop Hdone Hstepped Hrun.
  assert (Hex : False -> false = true /\ cursor_ends_kept alpha n natom3 T c0)
    by (intros []).
  split.
  { destruct (segment_spec alpha False false natom3 n T L N c0 c)
      as (c1 & Hrun1 & Hc1); auto.
    rewrite Hrun in Hrun1. injection Hrun1 as <-. exact Hc1. }
  pose proof Hdone as (Hct & Ov & Oe & Ot & Op & Os).
  pose proof Hsized as (Sv & Se & St & Sp & Ss).
  pose proof Hstepped as (Bv0 & Be0 & Bt0 & Bp0 & Bs0).
  unfold cursor_top in Htop.
  unfold segment in Hrun.
  assert (Hvsize : size (c_velocities c) = size (c_velocities c0))
    by (unfold size; destruct Ov; congruence).
  destruct (slice_frame (c_velocities c) natom3 L)
    as (vl & Hvl & Hvlsize & Hvlslot); try nia.
  rewrite Hvl in Hrun. cbn [bind] in Hrun.
  assert (Hlast : forall xi x, length x = length xi -> N <= size xi ->
            stepped_written alpha 1 n T L 0 xi x ->
            exists last, vget x L = Ok last /\ slot xi L = Some last).
  { intros xi x Hlen HNx Hw.
    destruct (vget_in_range x L) as (last & Hl);
      [unfold size in *; lia|].
    exists last. split; [exact Hl|].
    pose proof (stepped_last alpha 1 n T L xi x 0 ltac:(lia) Hn
                  ltac:(lia) ltac:(lia) Hw) as Heq.
    replace (1 * L + 0) with L in Heq by lia. rewrite <- Heq.
    apply vget_Some in Hl. apply Hl. }
  destruct (Hlast (c_ekin c0) (c_ekin c) (proj1 Oe) Se Be0)
    as (ekinLast & He & Le).
  destruct (Hlast (c_temperature c0) (c_temperature c) (proj1 Ot) St Bt0)
    as (temperatureLast & Ht & Lt).
  destruct (Hlast (c_pressure c0) (c_pressure c) (proj1 Op) Sp Bp0)
    as (pressureLast & Hp & Lp).
  destruct (Hlast (c_entropy c0) (c_entropy c) (proj1 Os) Ss Bs0)
    as (entropyLast & Hs & Ls).
  rewrite He, Ht, Hp, Hs in Hrun. cbn [bind] in Hrun.
  match type of Hrun with
  | bind ?m _ = _ => destruct m as [c1| |] eqn:Hloop
  end; cbn [bind] in Hrun; try discriminate.
  injection Hrun as <-.
  assert (Hvlast : forall d, 0 <= d < natom3 ->
            slot vl d = slot (c_velocities c0) (natom3 * L + d)).
  { intros d Hd. rewrite Hvlslot by exact Hd.
    apply (stepped_last alpha natom3 n T L); auto; lia. }
  pose (P := fun (t : Z) (c2 : @Cursor D) =>
               cursor_ok False natom3 n T L t c0 c2
                 (u32 (cursor_top false n L - t)) /\
               cursor_stepped alpha natom3 n T L t c0 c2).
  assert (Hend : P (0 + Z.of_nat (Z.to_nat n)) c1).
  { refine (for_loop_establishes P _ (Z.to_nat n) 0 c c1 _ _ Hloop); unfold P.
    - split; [|exact Hstepped].
      rewrite Z.sub_0_r.
      refine (conj Hct (conj _ (conj _ (conj _ (conj _ _)))));
        apply outer_ok_enter; assumption.
    - intros t c2 c3. rewrite Z2Nat.id by lia. intros Ht1 (Hc2 & Hb2) Hstep.
      split.
      + destruct (substep_spec alpha False false natom3 n T L t N c0 c2 vl
                    ekinLast temperatureLast pressureLast entropyLast)
          as (c4 & Hstep4 & Hc4); auto; try lia;
          try (intros []); try (unfold cursor_top; lia).
        rewrite Hstep in Hstep4. injection Hstep4 as <-. exact Hc4.
      + apply (substep_stepped alpha natom3 n T L t N c0 c2 c3 vl
                 ekinLast temperatureLast pressureLast entropyLast);
          auto; try lia.
        destruct Hc2 as (Hct2 & _). exact Hct2. }
  unfold P in Hend. rewrite Z2Nat.id in Hend by lia.
  destruct Hend as (_ & Bv & Be & Bt & Bp & Bs).
  rewrite Z.add_0_l in Bv, Be, Bt, Bp, Bs.
  unfold cursor_stepped.
  refine (conj _ (conj _ (conj _ (conj _ _)))); apply stepped_leave;
    assumption.
Qed.

Lemma segments_stepped (alpha : D) (natom3 n T N : Z) (c0 : @Cursor D) :
  1 <= natom3 -> 2 <= n ->
  cursor_sized natom3 N c0 -> T <= N -> natom3 * N < 2 ^ 32 ->
  cursor_top false n (T - 1) < N ->
  forall (k : nat) (c c' : Cursor),
    Z.of_nat k < T ->
    cursor_done False natom3 n T (Z.of_nat k) c0 c
      (u32 (cursor_top false n (Z.of_nat k))) ->
    cursor_stepped alpha natom3 n T (Z.of_nat k) 0 c0 c ->
    segments natom3 n alpha false k c = Ok c' ->
    cursor_stepped alpha natom3 n T 0 0 c0 c'.
Proof.
  intros Hnatom3 Hn Hsized HTN Hrep Htop.
  induction k as [|k IH]; intros c c' Hk Hdone Hstepped Hrun.
  - cbn [segments] in Hrun. injection Hrun as <-. exact Hstepped.
  - cbn [segments] in Hrun.
    destruct (segment natom3 n alpha false (Z.of_nat (S k)) c)
      as [c1| |] eqn:Hseg; cbn [bind] in Hrun; try discriminate.
    destruct (segment_stepped alpha natom3 n T (Z.of_nat (S k)) N c0 c c1)
      as (Hdone1 & Hstepped1); auto; try lia.
    + pose proof (cursor_top_mono false n (Z.of_nat (S k)) (T - 1) Hn). lia.
    + replace (Z.of_nat (S k) - 1) with (Z.of_nat k) in Hdone1, Hstepped1
        by lia.
      apply (IH c1 c'); [lia | exact Hdone1 | exact Hstepped1 | exact Hrun].
Qed.

Lemma blended_from_resize (alpha : D) (s n T K L t : Z) (orig x : list D) :
  1 <= s -> 1 <= L < T -> size orig = s * T -> s * T <= K ->
  blended_from alpha s n (resize d0 K orig) x L t ->
  blended_from alpha s n orig x L t.
Proof.
  intros Hs HL Hsize HK Hb d Hd.
  destruct (Hb d Hd) as (l & f & Hl & Hf & Hx).
  assert (0 <= s * (L - 1)) by (apply Z.mul_nonneg_nonneg; lia).
  assert (s * (L + 1) <= s * T) by (apply Z.mul_le_mono_nonneg_l; lia).
  rewrite slot_resize_keeps in Hl by lia.
  rewrite slot_resize_keeps in Hf by lia.
  exists l, f. split; [exact Hl|]. split; [exact Hf | exact Hx].
Qed.

(** When [|amplitude - 1| < 1e-10] is false, on a store of at least two
    frames and with [ninter >= 2], the interpolation returns and the
    segment between the recorded frames [L-1] and [L] fills the frames
    [ninter*(L-1)] to [ninter*L - 1] of the result: frame
    [ninter*L - 1 - t] holds [(1 - t*alpha)*x_L + t*alpha*x_(L-1)] with
    [alpha = amplitude/(ninter-1)], computed as the code computes it, for
    the kinetic energy, the temperature, the pressure, the entropy and
    each velocity component.  No law of arithmetic is assumed. *)
Theorem interpolate_blends_each_segment (ninter : Z) (amplitude : D)
  (this : HistDataMD D) (b : HistData D) :
  interpolable this ninter -> 2 <= ninter -> 2 <= _ntime this ->
  (dabs (amplitude - d1) <? d_lit (1 # 10000000000))%dbl = false ->
  HistData_interpolate ninter amplitude this = Ok b ->
  let alpha := (amplitude / d_of_Z (u32 (ninter - 1)))%dbl in
  exists r,
    interpolate ninter amplitude this = Ok r /\
    forall L t, 1 <= L < _ntime this -> 0 <= t < ninter ->
      blended_from alpha 1 ninter (_ekin this) (_ekin r) L t /\
      blended_from alpha 1 ninter (_temperature this) (_temperature r) L t /\
      blended_from alpha 1 ninter (_pressure this) (_pressure r) L t /\
      blended_from alpha 1 ninter (_entropy this) (_entropy r) L t /\
      blended_from alpha (3 * _natom this) ninter (_velocities this)
        (_velocities r) L t.
Proof.
  intros (Hs & Hnatom & Hvel & Hfit) Hn HT Hdup Hbase alpha.
  destruct Hs as (_ & _ & Hekin & Htemp & Hpress & Hentr).
  fold (removeDuplica amplitude) in Hdup.
  set (T := _ntime this) in *.
  set (N := newNTime T ninter amplitude).
  set (natom3 := 3 * _natom this).
  assert (HnT : ninter * T < 2 ^ 31) by nia.
  assert (HN : N = cursor_top false ninter (T - 1) + 1).
  { unfold N. rewrite newNTime_value by (assumption || lia).
    rewrite Hdup. reflexivity. }
  assert (HTN : T <= N) by (rewrite HN; unfold cursor_top; nia).
  assert (HNle : N <= ninter * T) by (rewrite HN; unfold cursor_top; nia).
  assert (Hmax3 : 3 <= Z.max 3 (_natom this)) by lia.
  assert (HmaxA : _natom this <= Z.max 3 (_natom this)) by lia.
  assert (H9N : 9 * N < 2 ^ 31) by nia.
  assert (H3AN : natom3 * N < 2 ^ 31) by (unfold natom3; nia).
  assert (Hn3 : 1 <= natom3) by (unfold natom3; lia).
  assert (H0N : 1 <= N) by lia.
  assert (E1 : u32 (natom3 * N) = natom3 * N) by (apply u32_small; nia).
  assert (E2 : u32 (_xyz * N) = 3 * N) by (unfold _xyz; apply u32_small; lia).
  assert (E3 : u32 (_xyz * _xyz * N) = 9 * N)
    by (unfold _xyz; rewrite u32_small; lia).
  unfold interpolate. cbv zeta. fold T. fold N.
  rewrite (i32_small (T - 1)) by lia.
  rewrite (u32_small (3 * _natom this)) by lia. fold natom3.
  rewrite E1, E2, E3. rewrite Hdup.
  unfold resize_int. destruct (Z.ltb_spec N 0) as [Hneg|_]; [lia|].
  cbn [bind]. fold alpha.
  set (c0 := {| c_velocities := resize d0 (natom3 * N) (_velocities this);
                c_ekin := resize d0 (natom3 * N) (_ekin this);
                c_temperature := resize d0 (3 * N) (_temperature this);
                c_pressure := resize d0 (9 * N) (_pressure this);
                c_entropy := resize d0 N (_entropy this);
                currentTime := u32 (N - 1) |}).
  assert (Hsized : cursor_sized natom3 N c0).
  { unfold cursor_sized, c0, size; cbn [c_velocities c_ekin c_temperature
      c_pressure c_entropy].
    rewrite !length_resize. nia. }
  assert (Hstart : cursor_done False natom3 ninter T
                     (Z.of_nat (Z.to_nat (T - 1))) c0 c0
                     (u32 (cursor_top false ninter
                             (Z.of_nat (Z.to_nat (T - 1)))))).
  { rewrite Z2Nat.id by lia.
    refine (conj _ (conj _ (conj _ (conj _ (conj _ _)))));
      try apply outer_ok_start.
    cbn [currentTime c0]. f_equal. lia. }
  destruct (segments_spec alpha False false natom3 ninter T N c0)
    with (k := Z.to_nat (T - 1)) (c := c0) as (c' & Hrun & _);
    auto; try lia; try (intros []).
  destruct (segments_stepped alpha natom3 ninter T N c0)
    with (k := Z.to_nat (T - 1)) (c := c0) (c' := c')
    as (Bv & Be & Bt & Bp & Bs); auto; try lia.
  { rewrite Z2Nat.id by lia.
    refine (conj _ (conj _ (conj _ (conj _ _))));
      (split; [reflexivity | intros L' t' Ht' [Hcase|Hcase]; lia]). }
  rewrite Hrun. cbn [bind]. rewrite Hbase. cbn [bind].
  eexists. split; [reflexivity|].
  cbn [_velocities _ekin _temperature _pressure _entropy].
  intros L t HL Ht.
  unfold c0 in Bv, Be, Bt, Bp, Bs.
  cbn [c_velocities c_ekin c_temperature c_pressure c_entropy]
    in Bv, Be, Bt, Bp, Bs.
  fold natom3.
  refine (conj _ (conj _ (conj _ (conj _ _)))).
  - apply (blended_from_resize alpha 1 ninter T (natom3 * N)); try lia;
      [nia|]. apply (proj2 Be); lia.
  - apply (blended_from_resize alpha 1 ninter T (3 * N)); try lia.
    apply (proj2 Bt); lia.
  - apply (blended_from_resize alpha 1 ninter T (9 * N)); try lia.
    apply (proj2 Bp); lia.
  - apply (blended_from_resize alpha 1 ninter T N); try lia.
    apply (proj2 Bs); lia.
  - apply (blended_from_resize alpha natom3 ninter T (natom3 * N)); try lia;
      [apply Z.mul_le_mono_nonneg_l; lia|].
    apply (proj2 Bv); lia.
Qed.

End InterpolationStepped.

Lemma interpolate_blends_each_segment_witness :
  exists r,
    interpolate (env := Examples.swapping) 3 (Examples.q 2)
      Examples.three_frames = Ok r /\
    blended_from (Examples.q 2 / d_of_Z (u32 (3 - 1)))%dbl 1 3
      (_entropy Examples.three_frames) (_entropy r) 2 1.
Proof.
  destruct (interpolate_blends_each_segment (env := Examples.swapping)
              3 (Examples.q 2) Examples.three_frames _
              three_frames_interpolable ltac:(concrete) ltac:(concrete)
              eq_refl eq_refl)
    as (r & Hrun & Hblend).
  exists r. split; [exact Hrun|].
  apply (Hblend 2 1); concrete.
Defined.

Section InterpolationEdges.
Context {D : Type} {arith : Double D} {env : Platform D}.

(** A store of a single frame has no segment to interpolate: unless the
    amplitude is 1 (to 1e-10), the new frame count is 0 and the five MD
    series come out empty. *)
Theorem interpolate_single_frame_empties_the_series (ninter : Z)
  (amplitude : D) (this : HistDataMD D) (b : HistData D) :
  _ntime this = 1 ->
  (dabs (amplitude - d1) <? d_lit (1 # 10000000000))%dbl = false ->
  HistData_interpolate ninter amplitude this = Ok b ->
  interpolate ninter amplitude this
  = Ok {| base := b;
          _ekin := [];
          _velocities := [];
          _temperature := [];
          _pressure := [];
          _entropy := [] |}.
Proof.
  intros Hone Hdup Hbase.
  assert (Hzero : forall v : list D, resize d0 0 v = []).
  { intros v. unfold resize. cbn [Z.to_nat firstn Nat.sub repeat app].
    reflexivity. }
  unfold interpolate. cbv zeta.
  unfold newNTime, removeDuplica. rewrite Hone, Hdup.
  change (i32 (1 - 1)) with 0.
  rewrite Z.mul_0_r. change (i32 0) with 0.
  rewrite !Z.mul_0_r. change (u32 0) with 0.
  unfold resize_int. cbn [Z.ltb Z.compare bind].
  rewrite !Hzero. cbn [Z.to_nat segments bind].
  rewrite Hbase. cbn [bind c_ekin c_velocities c_temperature c_pressure
                      c_entropy].
  reflexivity.
Qed.

End InterpolationEdges.

Lemma interpolate_single_frame_empties_the_series_witness :
  exists b,
    interpolate (env := Examples.swapping) 3 (Q2Qc (1 # 2))
      (Examples.store 1 1 (Examples.q 1) false)
    = Ok {| base := b;
            _ekin := [];
            _velocities := [];
            _temperature := [];
            _pressure := [];
            _entropy := [] |}.
Proof.
  eexists.
  exact (interpolate_single_frame_empties_the_series
           (env := Examples.swapping) 3 (Q2Qc (1 # 2))
           (Examples.store 1 1 (Examples.q 1) false) _
           eq_refl eq_refl eq_refl).
Defined.

(** ** Autocorrelation of a single species *)

Section SingleSpecies.
Context {D : Type} {arith : Double D} {env : Platform D}.


Section ExactSingleSpecies.
Hypothesis exact_arith : ExactArith D.

Add Field double_field_single : (ea_field D exact_arith).


End ExactSingleSpecies.

End SingleSpecies.


